(** * PingPongLab chart engine: hardness scales, rank projection,
      label declutter and zoom, embedded from [src/app.js].

    Number model.  A JavaScript number is modelled as an exact rational
    ([Q]); [null], [undefined] and non-finite results ([NaN], [Infinity]) are
    modelled by [None] in an [option].  Array indices, ranks and priorities
    are integers ([Z]).  Rounding of binary64 arithmetic is not modelled:
    every statement below is about the exact-arithmetic reading of the code. *)

From Stdlib Require Import QArith Qminmax Qabs ZArith List Bool String Ascii.
From Stdlib Require Import Lia Lqa Permutation Sorted.
From Stdlib Require Import Qround.
Import ListNotations.

Open Scope Q_scope.

(* ================================================================== *)
(** ** Numbers *)

Definition number := Q.

(** [a <= b] and [a < b] on numbers, as booleans. *)
Definition leq (a b : number) : bool := Qle_bool a b.
Definition ltq (a b : number) : bool := negb (Qle_bool b a).

(** [ToNumber] on a nullable integer field: [null] coerces to [0]. *)
Definition toNumber (v : option Z) : number :=
  match v with
  | Some z => inject_Z z
  | None => 0
  end.

(** [Math.min(...xs)] and [Math.max(...xs)] on a non-empty array
    [x :: xs]. *)
Definition mathMin (x : number) (xs : list number) : number :=
  fold_left Qmin xs x.
Definition mathMax (x : number) (xs : list number) : number :=
  fold_left Qmax xs x.

(* ================================================================== *)
(** ** Hardness scales ([HARDNESS_SCALES], [interpolateScale]) *)

Definition HARDNESS_SCALES : list (string * list number) :=
  [ ("Germany"%string, [40; 47.5; 55]);
    ("Japan"%string,   [33; 36;   44]);
    ("China"%string,   [35; 39;   41]) ].

Fixpoint lookupScale (country : string) (tbl : list (string * list number))
  : option (list number) :=
  match tbl with
  | [] => None
  | (k, pts) :: rest =>
      if String.eqb k country then Some pts else lookupScale country rest
  end.

(** One arithmetic step of the loop body.  A zero denominator makes the
    JavaScript result non-finite, which is [None] here. *)
Definition segmentValue (value a0 a1 b0 b1 : number) : option number :=
  if Qeq_bool (a1 - a0) 0 then None
  else
    let t := (value - a0) / (a1 - a0) in
    Some (b0 + t * (b1 - b0)).

(** The [for] loop of [interpolateScale], started at index [i] with
    [fuel] iterations left ([fromPts.length - 1 - i] of them). *)
Fixpoint interpolateLoop (fuel : nat) (i : nat) (value : number)
                         (fromPts toPts : list number) : option number :=
  match fuel with
  | O => Some value
  | S fuel' =>
      match nth_error fromPts i, nth_error fromPts (i + 1) with
      | Some a0, Some a1 =>
          if leq value a1 || Nat.eqb i (List.length fromPts - 2) then
            match nth_error toPts i, nth_error toPts (i + 1) with
            | Some b0, Some b1 => segmentValue value a0 a1 b0 b1
            | _, _ => None
            end
          else interpolateLoop fuel' (S i) value fromPts toPts
      | _, _ => None
      end
  end.

Definition interpolateScale (value : number) (fromPts toPts : list number)
  : option number :=
  interpolateLoop (List.length fromPts - 1) 0 value fromPts toPts.

(** [toGermanScale]: a non-finite input gives [null]; Germany or an unknown
    country gives the input back. *)
Definition toGermanScale (value : option number) (country : string)
  : option number :=
  match value with
  | None => None
  | Some v =>
      if String.eqb country "Germany" then Some v
      else
        match lookupScale country HARDNESS_SCALES,
              lookupScale "Germany" HARDNESS_SCALES with
        | Some src, Some ge => interpolateScale v src ge
        | _, _ => Some v
        end
  end.


(* ================================================================== *)
(** ** Strings used as lookup keys *)

(** [String.prototype.toLowerCase] and [trim], on the ASCII range; bytes
    outside it are left as they are. *)
Definition lowerAscii (c : ascii) : ascii :=
  let n := nat_of_ascii c in
  if (Nat.leb 65 n && Nat.leb n 90)%bool then ascii_of_nat (n + 32) else c.

Fixpoint toLowerCase (s : string) : string :=
  match s with
  | EmptyString => EmptyString
  | String c rest => String (lowerAscii c) (toLowerCase rest)
  end.

Definition isWhiteSpace (c : ascii) : bool :=
  let n := nat_of_ascii c in
  ((Nat.leb 9 n && Nat.leb n 13) || Nat.eqb n 32)%bool.

Fixpoint trimStart (s : string) : string :=
  match s with
  | EmptyString => EmptyString
  | String c rest => if isWhiteSpace c then trimStart rest else s
  end.

(** Drops trailing white space: a character is kept when it is not white
    space or when something non-blank follows it. *)
Fixpoint trimEnd (s : string) : string :=
  match s with
  | EmptyString => EmptyString
  | String c rest =>
      match trimEnd rest with
      | EmptyString => if isWhiteSpace c then EmptyString
                       else String c EmptyString
      | kept => String c kept
      end
  end.

Definition trim (s : string) : string := trimEnd (trimStart s).

(** [v || ''] on an optional string. *)
Definition orEmpty (v : option string) : string :=
  match v with
  | Some s => s
  | None => EmptyString
  end.

(** [===] on optional strings ([None] is [undefined]). *)
Definition strictEq (a b : option string) : bool :=
  match a, b with
  | Some s, Some t => String.eqb s t
  | None, None => true
  | _, _ => false
  end.

(* ================================================================== *)
(** ** Catalog items and rank tables *)

Record RankEntry : Type := mkRankEntry {
  entryBrand : option string;
  entryName  : option string
}.

(** The fields of a raw catalog entry that [loadRubberData] reads for the
    chart position, the filters and the priority.  [rawHardness] and
    [rawWeight] are the values after [parseRatingNumber]. *)
Record RawItem : Type := mkRawItem {
  rawDisabled     : bool;
  rawName         : option string;
  rawAbbr         : option string;
  rawManufacturer : option string;
  rawHardness     : option number;
  rawCountry      : option string;
  rawWeight       : option number
}.

Record Rubber : Type := mkRubber {
  name               : option string;
  abbr               : option string;
  brand              : option string;
  x                  : option Z;
  y                  : option Z;
  weight             : option number;
  normalizedHardness : option number;
  priority           : Z;
  bestseller         : bool;
  spinRank           : option Z;
  speedRank          : option Z;
  controlRank        : option Z;
  controlTotal       : Z
}.

Record Rankings : Type := mkRankings {
  spin    : list RankEntry;
  speed   : list RankEntry;
  control : list RankEntry
}.

(** The loop of [findRubberRank] from index [i] on. *)
Fixpoint findRankFrom (i : Z) (rubberBrand : string)
                      (rubberNameNorm rubberAbbrNorm : option string)
                      (rankingArray : list RankEntry) : Z :=
  match rankingArray with
  | [] => (-1)%Z
  | entry :: rest =>
      let entryBrand := toLowerCase (trim (orEmpty (entryBrand entry))) in
      if negb (String.eqb entryBrand rubberBrand) then
        findRankFrom (i + 1) rubberBrand rubberNameNorm rubberAbbrNorm rest
      else if (strictEq (entryName entry) rubberNameNorm
               || strictEq (entryName entry) rubberAbbrNorm)%bool then i
      else findRankFrom (i + 1) rubberBrand rubberNameNorm rubberAbbrNorm rest
  end.

(** 0-based position of a rubber in a ranking array, [-1] when absent. *)
Definition findRubberRank (rubber : Rubber) (rankingArray : list RankEntry)
  : Z :=
  findRankFrom 0 (toLowerCase (trim (orEmpty (brand rubber))))
               (name rubber) (abbr rubber) rankingArray.

(* ================================================================== *)
(** ** Loading ([loadRubberData]) *)

(** [a || b] on optional strings: the empty string is falsy. *)
Definition orElse (a b : option string) : option string :=
  match a with
  | Some (String _ _) => a
  | _ => b
  end.

(** A missing country indexes [HARDNESS_SCALES] with the key
    ["undefined"]. *)
Definition countryKey (c : option string) : string :=
  match c with
  | Some s => s
  | None => "undefined"%string
  end.

(** The object literal built for each raw entry in the first loop. *)
Definition makeRubber (raw : RawItem) : Rubber :=
  {| name := rawName raw;
     abbr := orElse (rawAbbr raw) (rawName raw);
     brand := rawManufacturer raw;
     x := None;
     y := None;
     weight := rawWeight raw;
     normalizedHardness :=
       toGermanScale (rawHardness raw) (countryKey (rawCountry raw));
     priority := 999;
     bestseller := false;
     spinRank := None;
     speedRank := None;
     controlRank := None;
     controlTotal := 0 |}.

(** [idx >= 0 ? v : null]. *)
Definition whenFound (idx : Z) (v : Z) : option Z :=
  if (0 <=? idx)%Z then Some v else None.

(** The body of the second loop: positions, ranks and priority of one
    rubber. *)
Definition applyRankings (rankings : Rankings)
                         (priorityRanking bestsellerRanking : list RankEntry)
                         (rubber : Rubber) : Rubber :=
  let spinTotal := Z.of_nat (List.length (spin rankings)) in
  let speedTotal := Z.of_nat (List.length (speed rankings)) in
  let controlTotal := Z.of_nat (List.length (control rankings)) in
  let spinIdx := findRubberRank rubber (spin rankings) in
  let speedIdx := findRubberRank rubber (speed rankings) in
  let controlIdx := findRubberRank rubber (control rankings) in
  let popIdx := findRubberRank rubber priorityRanking in
  let bestsellerIdx := findRubberRank rubber bestsellerRanking in
  let isBestseller := (0 <=? bestsellerIdx)%Z in
  {| name := name rubber;
     abbr := abbr rubber;
     brand := brand rubber;
     x := whenFound spinIdx (spinTotal - spinIdx);
     y := whenFound speedIdx (speedTotal - speedIdx);
     weight := weight rubber;
     normalizedHardness := normalizedHardness rubber;
     priority :=
       if isBestseller then (bestsellerIdx + 1)%Z
       else if (0 <=? popIdx)%Z
            then (Z.of_nat (List.length bestsellerRanking) + popIdx + 1)%Z
            else priority rubber;
     bestseller := isBestseller;
     spinRank := whenFound spinIdx (spinIdx + 1);
     speedRank := whenFound speedIdx (speedIdx + 1);
     controlRank := whenFound controlIdx (controlIdx + 1);
     controlTotal := controlTotal |}.

Definition isNull (v : option Z) : bool :=
  match v with
  | Some _ => false
  | None => true
  end.

(** The array [data] after both loops, before the final filter. *)
Definition rankedData (rawItems : list RawItem) (rankings : Rankings)
                      (priorityRanking bestsellerRanking : list RankEntry)
  : list Rubber :=
  map (applyRankings rankings priorityRanking bestsellerRanking)
      (map makeRubber (filter (fun raw => negb (rawDisabled raw)) rawItems)).

(** [rubberData] as left by [loadRubberData]: only rubbers present in both
    the spin and the speed ranking. *)
Definition loadRubberData (rawItems : list RawItem) (rankings : Rankings)
                          (priorityRanking bestsellerRanking : list RankEntry)
  : list Rubber :=
  filter (fun r => negb (isNull (x r)) && negb (isNull (y r)))
         (rankedData rawItems rankings priorityRanking bestsellerRanking).

(* ================================================================== *)
(** ** Control tiers ([getControlTierFromRank]) *)

Inductive ControlTier : Type := Easy | Med | Hard.

Record ControlFilterState : Type := mkControlFilterState {
  rankMin : option Z;
  rankMax : option Z;
  selectedTiers : list ControlTier
}.

(** The initial value of [controlFilterState]. *)
Definition initialControlFilterState : ControlFilterState :=
  {| rankMin := None; rankMax := None; selectedTiers := [Easy; Med; Hard] |}.

(** The finite control ranks of the loaded rubbers. *)
Fixpoint finiteRanks (rubbers : list Rubber) : list Z :=
  match rubbers with
  | [] => []
  | r :: rest =>
      match controlRank r with
      | Some k => k :: finiteRanks rest
      | None => finiteRanks rest
      end
  end.

Definition getControlBoundsFromData (rubberData : list Rubber)
  : option (Z * Z) :=
  match finiteRanks rubberData with
  | [] => None
  | k :: ks => Some (fold_left Z.min ks k, fold_left Z.max ks k)
  end.

(** The state update of [initControlToggleFilter]; without bounds the
    state is left as it is. *)
Definition initControlToggleFilter (rubberData : list Rubber)
                                   (st : ControlFilterState)
  : ControlFilterState :=
  match getControlBoundsFromData rubberData with
  | None => st
  | Some (lo, hi) =>
      {| rankMin := Some lo; rankMax := Some hi;
         selectedTiers := [Easy; Med; Hard] |}
  end.

Definition getControlTierFromRank (st : ControlFilterState) (rank : option Z)
  : option ControlTier :=
  match rank, rankMin st, rankMax st with
  | Some rank, Some rankMin, Some rankMax =>
      let totalRanks := (rankMax - rankMin + 1)%Z in
      if (totalRanks <=? 0)%Z then None
      else
        let zeroBasedRank :=
          Z.max 0 (Z.min (totalRanks - 1) (rank - rankMin)) in
        let pct := inject_Z zeroBasedRank / inject_Z totalRanks in
        if ltq pct 0.4 then Some Easy
        else if ltq pct 0.8 then Some Med
        else Some Hard
  | _, _, _ => None
  end.

(* ================================================================== *)
(** ** Axis ranges and autoscale bounds *)

(** An axis range [[lo, hi]]. *)
Definition Range : Type := (number * number)%type.

(** [{ x: [..], y: [..] }] as returned by [getAutoscaleBounds]. *)
Record Bounds : Type := mkBounds {
  boundsX : Range;
  boundsY : Range
}.

(** [{ xRange, yRange }] as returned by [computeZoomedRanges]. *)
Record ZoomedRanges : Type := mkZoomedRanges {
  xRange : Range;
  yRange : Range
}.

(** What the code reads from [chartEl._fullLayout]: both axis ranges and
    the plot area size. *)
Record FullLayout : Type := mkFullLayout {
  xaRange : Range;
  yaRange : Range;
  sizeW   : number;
  sizeH   : number
}.

Definition getAutoscaleBounds (rubbers : list Rubber) : option Bounds :=
  match rubbers with
  | [] => None
  | r :: rest =>
      let xs := map (fun r => toNumber (x r)) rest in
      let ys := map (fun r => toNumber (y r)) rest in
      let minX := mathMin (toNumber (x r)) xs in
      let maxX := mathMax (toNumber (x r)) xs in
      let minY := mathMin (toNumber (y r)) ys in
      let maxY := mathMax (toNumber (y r)) ys in
      let padX := Qmax 0.5 ((maxX - minX) * 0.05) in
      let padY := Qmax 0.5 ((maxY - minY) * 0.05) in
      Some {| boundsX := (minX - padX, maxX + padX);
              boundsY := (minY - padY, maxY + padY) |}
  end.

Definition viewCoversDataBounds (rubbers : list Rubber)
                                (xRange yRange : Range) : bool :=
  match getAutoscaleBounds rubbers with
  | None => true
  | Some bounds =>
      leq (fst xRange) (fst (boundsX bounds))
      && leq (snd (boundsX bounds)) (snd xRange)
      && leq (fst yRange) (fst (boundsY bounds))
      && leq (snd (boundsY bounds)) (snd yRange)
  end.

Definition clampRangeToBounds (range bounds : Range) : Range :=
  (Qmax (fst range) (fst bounds), Qmin (snd range) (snd bounds)).

Definition shouldAutoscaleForFilteredData (filteredData : list Rubber)
                                          (currentRanges : option (Range * Range))
  : bool :=
  match currentRanges, filteredData with
  | None, _ => false
  | _, [] => false
  | Some (xaxis, yaxis), _ =>
      existsb (fun r =>
                 ltq (toNumber (x r)) (fst xaxis)
                 || ltq (snd xaxis) (toNumber (x r))
                 || ltq (toNumber (y r)) (fst yaxis)
                 || ltq (snd yaxis) (toNumber (y r)))
              filteredData
  end.

(* ================================================================== *)
(** ** Label declutter ([computeVisibleRubbers]) *)

Record Pixel : Type := mkPixel {
  px : number;
  py : number
}.

Record Rect : Type := mkRect {
  rectWidth  : number;
  rectHeight : number
}.

(** The closure [toPixel] of [computeVisibleRubbers]. *)
Definition toPixel (xRange yRange : Range) (plotWidth plotHeight : number)
                   (dataX dataY : number) : Pixel :=
  let xSpan := snd xRange - fst xRange in
  let ySpan := snd yRange - fst yRange in
  {| px := ((dataX - fst xRange) / xSpan) * plotWidth;
     py := ((dataY - fst yRange) / ySpan) * plotHeight |}.

(** [Array.prototype.sort] with the comparator [a.priority - b.priority]:
    a stable sort, ascending by priority.  [insertByPriority r l] puts [r]
    in front of the first element whose priority is not smaller, so that
    [r] stays ahead of the equal elements that followed it. *)
Fixpoint insertByPriority (r : Rubber) (l : list Rubber) : list Rubber :=
  match l with
  | [] => [r]
  | s :: rest =>
      if (priority r <=? priority s)%Z then r :: l
      else s :: insertByPriority r rest
  end.

Fixpoint sortByPriority (l : list Rubber) : list Rubber :=
  match l with
  | [] => []
  | r :: rest => insertByPriority r (sortByPriority rest)
  end.

(** The predicate given to [occupied.some]. *)
Definition overlapsWith (minDistX minDistY : number) (p occ : Pixel) : bool :=
  ltq (Qabs (px p - px occ)) minDistX && ltq (Qabs (py p - py occ)) minDistY.

(** The [for (const rubber of sorted)] loop; [visible] and [occupied] grow
    by [push]. *)
Fixpoint declutterLoop (minDistX minDistY : number)
                       (pixelOf : Rubber -> Pixel)
                       (sorted visible : list Rubber) (occupied : list Pixel)
  : list Rubber :=
  match sorted with
  | [] => visible
  | rubber :: rest =>
      let p := pixelOf rubber in
      let overlaps := existsb (overlapsWith minDistX minDistY p) occupied in
      if negb overlaps
      then declutterLoop minDistX minDistY pixelOf rest
                         (visible ++ [rubber]) (occupied ++ [p])
      else declutterLoop minDistX minDistY pixelOf rest visible occupied
  end.

(** [computeVisibleRubbers] from the point where the ranges and the plot
    size are known, with the two pixel thresholds as parameters. *)
Definition declutter (minDistX minDistY : number) (xRange yRange : Range)
                     (plotWidth plotHeight : number)
                     (filteredData : list Rubber) : list Rubber :=
  let xSpan := snd xRange - fst xRange in
  let ySpan := snd yRange - fst yRange in
  if leq xSpan 0 || leq ySpan 0 then filteredData
  else
    let pixelOf := fun r =>
      toPixel xRange yRange plotWidth plotHeight
              (toNumber (x r)) (toNumber (y r)) in
    declutterLoop minDistX minDistY pixelOf
                  (sortByPriority filteredData) [] [].

Definition MIN_DIST_X : number := 55.
Definition MIN_DIST_Y : number := 24.

(** [fullLayout] is [chartEl._fullLayout] when both axes exist, [rect] the
    bounding rectangle of the chart element used on the first render. *)
Definition computeVisibleRubbers (fullLayout : option FullLayout) (rect : Rect)
                                 (filteredData : list Rubber) : list Rubber :=
  match filteredData with
  | [] => []
  | r :: rest =>
      match fullLayout with
      | Some l =>
          declutter MIN_DIST_X MIN_DIST_Y (xaRange l) (yaRange l)
                    (sizeW l) (sizeH l) filteredData
      | None =>
          let xs := map (fun r => toNumber (x r)) rest in
          let ys := map (fun r => toNumber (y r)) rest in
          let pad := 2 in
          let xRange := (mathMin (toNumber (x r)) xs - pad,
                         mathMax (toNumber (x r)) xs + pad) in
          let yRange := (mathMin (toNumber (y r)) ys - pad,
                         mathMax (toNumber (y r)) ys + pad) in
          declutter MIN_DIST_X MIN_DIST_Y xRange yRange
                    (rectWidth rect * 0.82) (rectHeight rect * 0.82)
                    filteredData
      end
  end.

(* ================================================================== *)
(** ** Zoom ([computeZoomedRanges], [zoomChart]) *)

Definition MIN_SPAN_FRACTION : number := 0.05.

(** The value of [clampedScale] once the zoom-in block has run. *)
Definition clampedScaleOf (autoscaleBounds : option Bounds)
                          (xSpan ySpan scale : number) : number :=
  match autoscaleBounds with
  | Some b =>
      if ltq scale 1 then
        let fullXSpan := snd (boundsX b) - fst (boundsX b) in
        let fullYSpan := snd (boundsY b) - fst (boundsY b) in
        let minXSpan := fullXSpan * MIN_SPAN_FRACTION in
        let minYSpan := fullYSpan * MIN_SPAN_FRACTION in
        let scaleForMinX := if ltq 0 xSpan then minXSpan / xSpan else scale in
        let scaleForMinY := if ltq 0 ySpan then minYSpan / ySpan else scale in
        Qmax (Qmax scale scaleForMinX) scaleForMinY
      else scale
  | None => scale
  end.

(** [[center - anchorF * newSpan, center + (1 - anchorF) * newSpan]], the
    expression written once per axis after the scale is fixed. *)
Definition rangeAbout (center anchorF newSpan : number) : Range :=
  (center - anchorF * newSpan, center + (1 - anchorF) * newSpan).

(** [currentFilteredData] is the module-level array the function reads. *)
Definition computeZoomedRanges (currentFilteredData : list Rubber)
                               (xRange yRange : Range)
                               (scale anchorFx anchorFy : number)
  : option ZoomedRanges :=
  let xSpan := snd xRange - fst xRange in
  let ySpan := snd yRange - fst yRange in
  if leq xSpan 0 || leq ySpan 0 then None
  else
    let autoscaleBounds := getAutoscaleBounds currentFilteredData in
    if ltq 1 scale
       && match autoscaleBounds with Some _ => true | None => false end
       && viewCoversDataBounds currentFilteredData xRange yRange
    then None
    else
      let xCenter := fst xRange + anchorFx * xSpan in
      let yCenter := fst yRange + anchorFy * ySpan in
      let clampedScale := clampedScaleOf autoscaleBounds xSpan ySpan scale in
      let newXSpan := xSpan * clampedScale in
      let newYSpan := ySpan * clampedScale in
      let newXRange := rangeAbout xCenter anchorFx newXSpan in
      let newYRange := rangeAbout yCenter anchorFy newYSpan in
      match autoscaleBounds with
      | Some b =>
          if ltq 1 clampedScale then
            Some {| xRange := clampRangeToBounds newXRange (boundsX b);
                    yRange := clampRangeToBounds newYRange (boundsY b) |}
          else Some {| xRange := newXRange; yRange := newYRange |}
      | None => Some {| xRange := newXRange; yRange := newYRange |}
      end.

(** [applyZoomLayout]: the relayout call installs both ranges. *)
Definition applyZoomLayout (chart : FullLayout) (ranges : ZoomedRanges)
  : FullLayout :=
  {| xaRange := xRange ranges;
     yaRange := yRange ranges;
     sizeW := sizeW chart;
     sizeH := sizeH chart |}.

(** [zoomChart] as a transition on the chart layout; without a layout, or
    when the zoom is blocked, nothing is changed. *)
Definition zoomChart (currentFilteredData : list Rubber) (scale : number)
                     (chart : option FullLayout) : option FullLayout :=
  match chart with
  | None => None
  | Some l =>
      match computeZoomedRanges currentFilteredData (xaRange l) (yaRange l)
                                scale 0.5 0.5 with
      | Some ranges => Some (applyZoomLayout l ranges)
      | None => Some l
      end
  end.

(** The data-space point at fraction [f] of a range. *)
Definition pointAt (r : Range) (f : number) : number :=
  fst r + f * (snd r - fst r).

(** Span of a range. *)
Definition spanOf (r : Range) : number := snd r - fst r.

(** The window computed before the zoom-out clamp: both axes rescaled by the
    effective scale about the anchor. *)
Definition rescaledWindow (currentFilteredData : list Rubber)
                          (xRange yRange : Range)
                          (scale anchorFx anchorFy : number) : ZoomedRanges :=
  let xSpan := snd xRange - fst xRange in
  let ySpan := snd yRange - fst yRange in
  let clampedScale :=
    clampedScaleOf (getAutoscaleBounds currentFilteredData) xSpan ySpan scale in
  {| xRange := rangeAbout (fst xRange + anchorFx * xSpan) anchorFx
                          (xSpan * clampedScale);
     yRange := rangeAbout (fst yRange + anchorFy * ySpan) anchorFy
                          (ySpan * clampedScale) |}.

(** [inner] lies within [outer]. *)
Definition within (inner outer : Range) : Prop :=
  fst outer <= fst inner /\ snd inner <= snd outer.

(** The zoom-out clamp leaves the rescaled window as it is: there are no
    bounds, or the effective scale is at most one, or the rescaled window
    already lies within the bounds. *)
Definition clampKeepsWindow (currentFilteredData : list Rubber)
                            (xRange0 yRange0 : Range)
                            (scale anchorFx anchorFy : number) : Prop :=
  match getAutoscaleBounds currentFilteredData with
  | None => True
  | Some b =>
      clampedScaleOf (Some b) (spanOf xRange0) (spanOf yRange0) scale <= 1
      \/ (within (xRange (rescaledWindow currentFilteredData xRange0 yRange0
                                         scale anchorFx anchorFy))
                 (boundsX b)
          /\ within (yRange (rescaledWindow currentFilteredData xRange0 yRange0
                                            scale anchorFx anchorFy))
                    (boundsY b))
  end.

(* ================================================================== *)
(** ** Reference definitions, written after the specification *)

(** Section 4.1: the segment is the first one with [value <= a_(i+1)], or
    the last one; the result is [b_i + t * (b_(i+1) - b_i)] for
    [t = (value - a_i) / (a_(i+1) - a_i)]. *)
Definition convert (value : number) (a b : number * number * number)
  : number :=
  let '(a0, a1, a2) := a in
  let '(b0, b1, b2) := b in
  if leq value a1
  then b0 + ((value - a0) / (a1 - a0)) * (b1 - b0)
  else b1 + ((value - a1) / (a2 - a1)) * (b2 - b1).

(** Section 4.2: bucketing of a normalized rank with thresholds at 40% and
    80%. *)
Definition tierOfFraction (pct : number) : ControlTier :=
  if ltq pct 0.4 then Easy else if ltq pct 0.8 then Med else Hard.

(** Section 4.2: the rank normalized into [[0,1)] over the table size. *)
Definition tierOverTable (rank tableSize : Z) : ControlTier :=
  tierOfFraction (inject_Z (rank - 1) / inject_Z tableSize).

(** Section 4.3, read literally: an item is accepted when it is farther
    than the x threshold in x or farther than the y threshold in y. *)
Definition fartherThan (minPixelDx minPixelDy : number) (p q : Pixel) : bool :=
  ltq minPixelDx (Qabs (px p - px q)) || ltq minPixelDy (Qabs (py p - py q)).

(** The same test with the boundary included: at least the threshold away
    in x or in y. *)
Definition atLeastApart (minPixelDx minPixelDy : number) (p q : Pixel) : bool :=
  leq minPixelDx (Qabs (px p - px q)) || leq minPixelDy (Qabs (py p - py q)).

(** Section 4.3: greedy selection over the candidates in the given order;
    a candidate is accepted when it is [apart] from every accepted one. *)
Fixpoint greedySelect (apart : Pixel -> Pixel -> bool)
                      (pixelOf : Rubber -> Pixel)
                      (accepted candidates : list Rubber) : list Rubber :=
  match candidates with
  | [] => accepted
  | c :: rest =>
      if forallb (fun a => apart (pixelOf c) (pixelOf a)) accepted
      then greedySelect apart pixelOf (accepted ++ [c]) rest
      else greedySelect apart pixelOf accepted rest
  end.

(** Ascending by priority. *)
Definition ascending (l : list Rubber) : Prop :=
  StronglySorted (fun a b => (priority a <= priority b)%Z) l.

(** Ties keep their original order: the elements of each priority appear
    in [l'] in the order they have in [l]. *)
Definition tiesKeepOrder (l l' : list Rubber) : Prop :=
  forall p : Z,
    filter (fun r => (priority r =? p)%Z) l'
    = filter (fun r => (priority r =? p)%Z) l.

(** No two accepted rubbers overlap: each one is clear of all the ones
    accepted before it. *)
Definition pairwiseClear (minDistX minDistY : number)
                         (pixelOf : Rubber -> Pixel)
                         (l : list Rubber) : Prop :=
  ForallOrdPairs
    (fun a b => overlapsWith minDistX minDistY (pixelOf b) (pixelOf a) = false)
    l.

(* ================================================================== *)
(** ** Sample data used in the examples *)

Definition rubberAt (p : Z) (vx vy : Z) : Rubber :=
  {| name := None; abbr := None; brand := None;
     x := Some vx; y := Some vy;
     weight := None; normalizedHardness := None;
     priority := p; bestseller := false;
     spinRank := None; speedRank := None; controlRank := None;
     controlTotal := 0 |}.

(** A layout in which one data unit is one pixel on both axes. *)
Definition unitLayout : FullLayout :=
  {| xaRange := (0, 128); yaRange := (0, 128); sizeW := 128; sizeH := 128 |}.

Definition unitPixelOf (r : Rubber) : Pixel :=
  toPixel (0, 128) (0, 128) 128 128 (toNumber (x r)) (toNumber (y r)).

Definition noRect : Rect := {| rectWidth := 0; rectHeight := 0 |}.

(** Two rubbers spanning the square from (1,1) to (10,10). *)
Definition twoCorners : list Rubber := [rubberAt 1 1 1; rubberAt 2 10 10].

Definition entry (b n : string) : RankEntry :=
  {| entryBrand := Some b; entryName := Some n |}.

Definition rawNamed (b n : string) : RawItem :=
  {| rawDisabled := false; rawName := Some n; rawAbbr := None;
     rawManufacturer := Some b; rawHardness := None; rawCountry := None;
     rawWeight := None |}.

(** A small catalog: rubbers A, B and D of brand X; D is in no ranking and
    C is ranked but not in the catalog. *)
Definition sampleRaw : list RawItem :=
  [rawNamed "X" "A"; rawNamed "X" "B"; rawNamed "X" "D"].

Definition sampleRankings : Rankings :=
  {| spin := [entry "X" "A"; entry "X" "B"; entry "X" "C"];
     speed := [entry "X" "B"; entry "X" "A"];
     control := [entry "X" "C"; entry "X" "E"; entry "X" "F";
                 entry "X" "B"; entry "X" "A"] |}.

Definition samplePriority : list RankEntry := [entry "X" "A"; entry "X" "B"].
Definition sampleBestseller : list RankEntry := [entry "X" "B"].

Definition sampleData : list Rubber :=
  loadRubberData sampleRaw sampleRankings samplePriority sampleBestseller.

(** Rubber B of the sample catalog as it is after loading. *)
Definition sampleB : Rubber :=
  applyRankings sampleRankings samplePriority sampleBestseller
                (makeRubber (rawNamed "X" "B")).

Definition sampleA : Rubber :=
  applyRankings sampleRankings samplePriority sampleBestseller
                (makeRubber (rawNamed "X" "A")).

(** The three rubbers of the scenario of section 8, at pixels (0,0), (10,0)
    and (60,0) of [unitLayout]. *)
Definition threeInRow : list Rubber :=
  [rubberAt 1 0 0; rubberAt 2 10 0; rubberAt 3 60 0].

(** Two rubbers exactly [MIN_DIST_X] pixels apart on the same row. *)
Definition twoAtThreshold : list Rubber := [rubberAt 1 0 0; rubberAt 2 55 0].

(** Four rubbers where the second hides the last two under small thresholds
    and is itself hidden by the first under larger ones. *)
Definition crowdedFour : list Rubber :=
  [rubberAt 1 0 6; rubberAt 2 10 6; rubberAt 3 16 12; rubberAt 4 16 0].

(* ================================================================== *)
(** ** Control levels and marker sizes
       ([getControlLevelFromRank], [getMarkerSize]) *)

Definition CONTROL_LEVEL_COUNT : Z := 5.

(** Position of a tier in [CONTROL_TIERS]. *)
Definition tierIndex (t : ControlTier) : Z :=
  match t with
  | Easy => 0
  | Med => 1
  | Hard => 2
  end.

(** The 5-level indicator of the hover popup, best level first. *)
Definition getControlLevelFromRank (st : ControlFilterState) (rank : option Z)
  : option Z :=
  match rank, rankMin st, rankMax st with
  | Some rank, Some rankMin, Some rankMax =>
      let totalRanks := (rankMax - rankMin + 1)%Z in
      if (totalRanks <=? 0)%Z then None
      else
        let zeroBasedRank :=
          Z.max 0 (Z.min (totalRanks - 1) (rank - rankMin)) in
        let bucketBestFirst :=
          Z.min (CONTROL_LEVEL_COUNT - 1)
                (Qfloor (inject_Z (zeroBasedRank * CONTROL_LEVEL_COUNT)
                         / inject_Z totalRanks)) in
        Some (bucketBestFirst + 1)%Z
  | _, _, _ => None
  end.

Definition MARKER_SIZES : list Z := [20; 18; 16; 14; 12; 10; 8]%Z.

(** The [for (let i = 0; i < 7; i++)] loop of [getMarkerSize], from index
    [i] with [fuel] iterations left; falling out of it gives
    [MARKER_SIZES[6]]. *)
Fixpoint markerSizeLoop (fuel i : nat) (rank seventh : number) : Z :=
  match fuel with
  | O => nth 6 MARKER_SIZES 0%Z
  | S fuel' =>
      if leq rank (seventh * inject_Z (Z.of_nat i + 1))
      then nth i MARKER_SIZES 0%Z
      else markerSizeLoop fuel' (S i) rank seventh
  end.

(** [getMarkerSize]: a [null] rank is not of type number and gives the
    default 14. *)
Definition getMarkerSize (rubber : Rubber) : Z :=
  match controlRank rubber with
  | None => 14%Z
  | Some rank =>
      let seventh := inject_Z (controlTotal rubber) / 7 in
      markerSizeLoop 7 0 (inject_Z rank) seventh
  end.

(* ================================================================== *)
(** ** Range filters on weight and hardness *)

(** [weightFilterState] and [hardnessFilterState]. *)
Record RangeFilterState : Type := mkRangeFilterState {
  dataMin     : option number;
  dataMax     : option number;
  selectedMin : option number;
  selectedMax : option number
}.

Definition initialRangeFilterState : RangeFilterState :=
  {| dataMin := None; dataMax := None;
     selectedMin := None; selectedMax := None |}.

(** [.filter(Number.isFinite)] on a column of nullable numbers. *)
Fixpoint finiteValues (vals : list (option number)) : list number :=
  match vals with
  | [] => []
  | Some v :: rest => v :: finiteValues rest
  | None :: rest => finiteValues rest
  end.

(** [{ min: Math.min(...vals), max: Math.max(...vals) }], or [null] for an
    empty array. *)
Definition minMaxOf (vals : list number) : option (number * number) :=
  match vals with
  | [] => None
  | v :: vs => Some (mathMin v vs, mathMax v vs)
  end.

Definition getWeightBoundsFromData (rubberData : list Rubber)
  : option (number * number) :=
  minMaxOf (finiteValues (map weight rubberData)).

Definition getHardnessBoundsFromData (rubberData : list Rubber)
  : option (number * number) :=
  minMaxOf (finiteValues (map normalizedHardness rubberData)).

(** The four assignments of [initWeightRangeFilter]; without bounds the
    state stays as it is. *)
Definition initWeightRangeFilter (rubberData : list Rubber)
                                 (st : RangeFilterState) : RangeFilterState :=
  match getWeightBoundsFromData rubberData with
  | None => st
  | Some (lo, hi) =>
      {| dataMin := Some lo; dataMax := Some hi;
         selectedMin := Some lo; selectedMax := Some hi |}
  end.

Definition initHardnessRangeFilter (rubberData : list Rubber)
                                   (st : RangeFilterState) : RangeFilterState :=
  match getHardnessBoundsFromData rubberData with
  | None => st
  | Some (lo, hi) =>
      {| dataMin := Some lo; dataMax := Some hi;
         selectedMin := Some lo; selectedMax := Some hi |}
  end.

(** [setWeightRange]: a non-finite argument falls back to the data bound,
    both ends are clamped to the data bounds and then ordered. *)
Definition setWeightRange (st : RangeFilterState)
                          (minValue maxValue : option number)
  : RangeFilterState :=
  match dataMin st, dataMax st with
  | Some dMin, Some dMax =>
      let safeMin := match minValue with Some v => v | None => dMin end in
      let safeMax := match maxValue with Some v => v | None => dMax end in
      let clampedMin := Qmax dMin (Qmin dMax safeMin) in
      let clampedMax := Qmax dMin (Qmin dMax safeMax) in
      {| dataMin := dataMin st; dataMax := dataMax st;
         selectedMin := Some (Qmin clampedMin clampedMax);
         selectedMax := Some (Qmax clampedMin clampedMax) |}
  | _, _ => st
  end.

(** [setHardnessRange] runs the same statements on [hardnessFilterState]. *)
Definition setHardnessRange (st : RangeFilterState)
                            (minValue maxValue : option number)
  : RangeFilterState :=
  setWeightRange st minValue maxValue.

Definition resetWeightRangeToDataBounds (st : RangeFilterState)
  : RangeFilterState :=
  setWeightRange st (dataMin st) (dataMax st).

Definition resetHardnessRangeToDataBounds (st : RangeFilterState)
  : RangeFilterState :=
  setHardnessRange st (dataMin st) (dataMax st).

(** [Math.min] and [Math.max] of two parsed slider values; [NaN] (here
    [None]) is contagious. *)
Definition mathMin2 (a b : option number) : option number :=
  match a, b with
  | Some u, Some v => Some (Qmin u v)
  | _, _ => None
  end.

Definition mathMax2 (a b : option number) : option number :=
  match a, b with
  | Some u, Some v => Some (Qmax u v)
  | _, _ => None
  end.

(** [syncWeightRangeFromInputs] with both sliders present; [minVal] and
    [maxVal] are the results of [Number.parseFloat]. *)
Definition syncWeightRangeFromInputs (st : RangeFilterState)
                                     (minVal maxVal : option number)
  : RangeFilterState :=
  setWeightRange st (mathMin2 minVal maxVal) (mathMax2 minVal maxVal).

Definition isWeightFilterActive (st : RangeFilterState) : bool :=
  match dataMin st, dataMax st, selectedMin st, selectedMax st with
  | Some dMin, Some dMax, Some sMin, Some sMax =>
      ltq dMin sMin || ltq sMax dMax
  | _, _, _, _ => false
  end.

Definition isHardnessFilterActive (st : RangeFilterState) : bool :=
  isWeightFilterActive st.

Definition tierEqb (a b : ControlTier) : bool :=
  match a, b with
  | Easy, Easy | Med, Med | Hard, Hard => true
  | _, _ => false
  end.

(** [selectedTiers.size] for the set held as a list. *)
Definition tierSetSize (tiers : list ControlTier) : nat :=
  (if existsb (tierEqb Easy) tiers then 1 else 0)
  + (if existsb (tierEqb Med) tiers then 1 else 0)
  + (if existsb (tierEqb Hard) tiers then 1 else 0).

Definition isControlFilterActive (st : ControlFilterState) : bool :=
  Nat.ltb (tierSetSize (selectedTiers st)) 3.

(* ================================================================== *)
(** ** Radar scores ([normalizeRankToScore], [normalizeValueToScore],
       [getRadarData]) *)

Definition normalizeRankToScore (rank total : option Z) : number :=
  match rank, total with
  | Some rank, Some total =>
      if (total <=? 0)%Z then 0
      else (inject_Z (total - rank + 1) / inject_Z total) * 100
  | _, _ => 0
  end.

Definition normalizeValueToScore (value min max : option number) : number :=
  match value, min, max with
  | Some value, Some min, Some max =>
      if leq max min then 50
      else ((value - min) / (max - min)) * 100
  | _, _, _ => 50
  end.

(** The finite entries of a column of ranks. *)
Fixpoint finiteRankValues (ranks : list (option Z)) : list Z :=
  match ranks with
  | [] => []
  | Some k :: rest => k :: finiteRankValues rest
  | None :: rest => finiteRankValues rest
  end.

(** [rubberData.length > 0 ? Math.max(...ranks.filter(Number.isFinite)) : 1];
    [Math.max()] of nothing is [-Infinity], here [None]. *)
Definition radarTotal (rubberData : list Rubber)
                      (rankOf : Rubber -> option Z) : option Z :=
  match rubberData with
  | [] => Some 1%Z
  | _ :: _ =>
      match finiteRankValues (map rankOf rubberData) with
      | [] => None
      | k :: ks => Some (fold_left Z.max ks k)
      end
  end.

Record RadarData : Type := mkRadarData {
  radarSpeed    : number;
  radarSpin     : number;
  radarControl  : number;
  radarWeight   : number;
  radarHardness : number
}.

Definition getRadarData (rubberData : list Rubber)
                        (weightFilterState hardnessFilterState : RangeFilterState)
                        (rubber : Rubber) : RadarData :=
  let spinTotal := radarTotal rubberData spinRank in
  let speedTotal := radarTotal rubberData speedRank in
  let controlTotal :=
    if (controlTotal rubber =? 0)%Z then spinTotal
    else Some (controlTotal rubber) in
  {| radarSpeed := normalizeRankToScore (speedRank rubber) speedTotal;
     radarSpin := normalizeRankToScore (spinRank rubber) spinTotal;
     radarControl := normalizeRankToScore (controlRank rubber) controlTotal;
     radarWeight :=
       normalizeValueToScore (weight rubber)
                             (dataMin weightFilterState)
                             (dataMax weightFilterState);
     radarHardness :=
       normalizeValueToScore (normalizedHardness rubber)
                             (dataMin hardnessFilterState)
                             (dataMax hardnessFilterState) |}.

(* ================================================================== *)
(** ** Filtering ([getFilteredData]) and the in-view count *)

(** The checked values of the brand, name and sheet check boxes. *)
Record Selections : Type := mkSelections {
  selectedBrands : list string;
  selectedNames  : list string;
  selectedSheet  : list string
}.

(** [array.includes(v)] for an array of strings. *)
Definition includes (values : list string) (v : option string) : bool :=
  existsb (fun s => strictEq (Some s) v) values.

(** [null] in a numeric comparison counts as [0]. *)
Definition orZero (v : option number) : number :=
  match v with
  | Some q => q
  | None => 0
  end.

(** [Number.isFinite(v) && v >= min && v <= max]. *)
Definition finiteInRange (v min max : option number) : bool :=
  match v with
  | Some q => leq (orZero min) q && leq q (orZero max)
  | None => false
  end.

Definition hasTier (tiers : list ControlTier) (t : option ControlTier) : bool :=
  match t with
  | Some t => existsb (tierEqb t) tiers
  | None => false
  end.

(** [getFilteredData].  The [Rubber] record here carries neither
    [fullName] nor [sheet]; the two fields are read through [fullNameOf]
    and [sheetOf]. *)
Definition getFilteredData (fullNameOf sheetOf : Rubber -> option string)
                           (sel : Selections)
                           (weightFilterState hardnessFilterState : RangeFilterState)
                           (controlFilterState : ControlFilterState)
                           (rubberData : list Rubber) : list Rubber :=
  match selectedBrands sel, selectedNames sel, selectedSheet sel with
  | [], _, _ | _, [], _ | _, _, [] => []
  | _, _, _ =>
      let filterByWeight := isWeightFilterActive weightFilterState in
      let filterByHardness := isHardnessFilterActive hardnessFilterState in
      let filterByControl := isControlFilterActive controlFilterState in
      filter (fun rubber =>
                includes (selectedBrands sel) (brand rubber)
                && includes (selectedNames sel) (fullNameOf rubber)
                && includes (selectedSheet sel) (sheetOf rubber)
                && (negb filterByHardness
                    || finiteInRange (normalizedHardness rubber)
                                     (selectedMin hardnessFilterState)
                                     (selectedMax hardnessFilterState))
                && (negb filterByWeight
                    || finiteInRange (weight rubber)
                                     (selectedMin weightFilterState)
                                     (selectedMax weightFilterState))
                && (negb filterByControl
                    || hasTier (selectedTiers controlFilterState)
                               (getControlTierFromRank controlFilterState
                                                       (controlRank rubber))))
             rubberData
  end.

(** The count shown in the header: rubbers inside the current ranges, or
    all of them when no ranges are kept. *)
Definition inViewCount (currentRanges : option (Range * Range))
                       (filteredData : list Rubber) : nat :=
  match currentRanges with
  | None => List.length filteredData
  | Some (xaxis, yaxis) =>
      let minX := Qmin (fst xaxis) (snd xaxis) in
      let maxX := Qmax (fst xaxis) (snd xaxis) in
      let minY := Qmin (fst yaxis) (snd yaxis) in
      let maxY := Qmax (fst yaxis) (snd yaxis) in
      List.length
        (filter (fun r =>
                   leq minX (toNumber (x r)) && leq (toNumber (x r)) maxX
                   && leq minY (toNumber (y r)) && leq (toNumber (y r)) maxY)
                filteredData)
  end.

(** The test of one ranking entry in [findRubberRank]: same normalized
    brand, and a name equal to the rubber's name or abbreviation. *)
Definition entryMatches (rubber : Rubber) (e : RankEntry) : bool :=
  String.eqb (toLowerCase (trim (orEmpty (entryBrand e))))
             (toLowerCase (trim (orEmpty (brand rubber))))
  && (strictEq (entryName e) (name rubber)
      || strictEq (entryName e) (abbr rubber)).

(* ================================================================== *)
(** ** The relayout guard ([isInternalUpdate] and its two timers)

    The statements of [updateChart], of the [plotly_relayout] handler and
    of the three touch handlers that read or write [isInternalUpdate],
    [relayoutTimer], [internalUpdateTimer] and the pinch flags, as
    transitions on those variables.  Pending [setTimeout] callbacks are kept
    in a list; durations are not modelled, a pending timer may fire at any
    time. *)

Inductive TimerCallback : Type :=
  | Disarm   (* () => { isInternalUpdate = false; } *)
  | Redraw.  (* () => { updateChart({ preserveRanges: true }); } *)

Record GuardState : Type := mkGuardState {
  isInternalUpdate    : bool;
  relayoutTimer       : option nat;
  internalUpdateTimer : option nat;
  pinchActive         : bool;
  pinchStartDist      : bool;   (* pinchStartDist !== null *)
  pinchStartRanges    : bool;   (* pinchStartXRange && pinchStartYRange *)
  timers              : list (nat * TimerCallback);
  nextTimerId         : nat
}.

(** The module-level initial values. *)
Definition initialGuardState : GuardState :=
  {| isInternalUpdate := false; relayoutTimer := None;
     internalUpdateTimer := None; pinchActive := false;
     pinchStartDist := false; pinchStartRanges := false;
     timers := []; nextTimerId := 0 |}.

(** [clearTimeout(v)] on the list of pending timers. *)
Definition clearTimeout (v : option nat) (pending : list (nat * TimerCallback))
  : list (nat * TimerCallback) :=
  match v with
  | Some id => filter (fun t => negb (Nat.eqb (fst t) id)) pending
  | None => pending
  end.

(** [updateChart] past its early return: arm the guard, clear both timers,
    draw, schedule the disarm. *)
Definition updateChartGuard (st : GuardState) : GuardState :=
  let pending :=
    clearTimeout (internalUpdateTimer st)
                 (clearTimeout (relayoutTimer st) (timers st)) in
  {| isInternalUpdate := true;
     relayoutTimer := relayoutTimer st;
     internalUpdateTimer := Some (nextTimerId st);
     pinchActive := pinchActive st;
     pinchStartDist := pinchStartDist st;
     pinchStartRanges := pinchStartRanges st;
     timers := pending ++ [(nextTimerId st, Disarm)];
     nextTimerId := S (nextTimerId st) |}.

(** The [plotly_relayout] handler; [hasRangeKey] tells whether the event
    carries one of the range keys. *)
Definition onRelayout (hasRangeKey : bool) (st : GuardState) : GuardState :=
  if isInternalUpdate st then st
  else if negb hasRangeKey then st
  else
    {| isInternalUpdate := isInternalUpdate st;
       relayoutTimer := Some (nextTimerId st);
       internalUpdateTimer := internalUpdateTimer st;
       pinchActive := pinchActive st;
       pinchStartDist := pinchStartDist st;
       pinchStartRanges := pinchStartRanges st;
       timers := clearTimeout (relayoutTimer st) (timers st)
                 ++ [(nextTimerId st, Redraw)];
       nextTimerId := S (nextTimerId st) |}.

(** The [touchstart] handler; [hasLayout] tells whether the chart layout
    with both axes exists. *)
Definition onTouchStart (touches : nat) (hasLayout : bool) (st : GuardState)
  : GuardState :=
  if Nat.eqb touches 2 then
    {| isInternalUpdate := true;
       relayoutTimer := relayoutTimer st;
       internalUpdateTimer := internalUpdateTimer st;
       pinchActive := true;
       pinchStartDist := true;
       pinchStartRanges := if hasLayout then true else pinchStartRanges st;
       timers := clearTimeout (internalUpdateTimer st)
                   (clearTimeout (relayoutTimer st) (timers st));
       nextTimerId := nextTimerId st |}
  else st.

(** The [touchmove] handler; [farEnough] is [currentDist >= 1] and [zoomed]
    tells whether [computeZoomedRanges] returned ranges. *)
Definition onTouchMove (touches : nat) (farEnough zoomed : bool)
                       (st : GuardState) : GuardState :=
  if negb (Nat.eqb touches 2) || negb (pinchStartDist st) then st
  else if negb (pinchStartRanges st) then st
  else if negb farEnough then st
  else if zoomed then
    {| isInternalUpdate := true;
       relayoutTimer := relayoutTimer st;
       internalUpdateTimer := internalUpdateTimer st;
       pinchActive := pinchActive st;
       pinchStartDist := pinchStartDist st;
       pinchStartRanges := pinchStartRanges st;
       timers := clearTimeout (internalUpdateTimer st)
                   (clearTimeout (relayoutTimer st) (timers st));
       nextTimerId := nextTimerId st |}
  else st.

(** [onPinchEnd], installed for [touchend] and [touchcancel]. *)
Definition onPinchEnd (touches : nat) (st : GuardState) : GuardState :=
  if Nat.ltb touches 2 && pinchActive st then
    {| isInternalUpdate := isInternalUpdate st;
       relayoutTimer := relayoutTimer st;
       internalUpdateTimer := Some (nextTimerId st);
       pinchActive := false;
       pinchStartDist := false;
       pinchStartRanges := false;
       timers := clearTimeout (internalUpdateTimer st)
                   (clearTimeout (relayoutTimer st) (timers st))
                 ++ [(nextTimerId st, Disarm)];
       nextTimerId := S (nextTimerId st) |}
  else st.

Fixpoint lookupTimer (id : nat) (pending : list (nat * TimerCallback))
  : option TimerCallback :=
  match pending with
  | [] => None
  | (i, cb) :: rest => if Nat.eqb i id then Some cb else lookupTimer id rest
  end.

(** A pending timer fires: it leaves the list and its callback runs. *)
Definition fireTimer (id : nat) (st : GuardState) : GuardState :=
  match lookupTimer id (timers st) with
  | None => st
  | Some cb =>
      let st1 :=
        {| isInternalUpdate := isInternalUpdate st;
           relayoutTimer := relayoutTimer st;
           internalUpdateTimer := internalUpdateTimer st;
           pinchActive := pinchActive st;
           pinchStartDist := pinchStartDist st;
           pinchStartRanges := pinchStartRanges st;
           timers := clearTimeout (Some id) (timers st);
           nextTimerId := nextTimerId st |} in
      match cb with
      | Disarm =>
          {| isInternalUpdate := false;
             relayoutTimer := relayoutTimer st1;
             internalUpdateTimer := internalUpdateTimer st1;
             pinchActive := pinchActive st1;
             pinchStartDist := pinchStartDist st1;
             pinchStartRanges := pinchStartRanges st1;
             timers := timers st1;
             nextTimerId := nextTimerId st1 |}
      | Redraw => updateChartGuard st1
      end
  end.

Inductive GuardEvent : Type :=
  | UpdateChart (proceeds : bool)
  | PlotlyRelayout (hasRangeKey : bool)
  | TouchStart (touches : nat) (hasLayout : bool)
  | TouchMove (touches : nat) (farEnough zoomed : bool)
  | TouchEnd (touches : nat)
  | TimerFires (id : nat).

Definition guardStep (st : GuardState) (ev : GuardEvent) : GuardState :=
  match ev with
  | UpdateChart proceeds => if proceeds then updateChartGuard st else st
  | PlotlyRelayout hasRangeKey => onRelayout hasRangeKey st
  | TouchStart touches hasLayout => onTouchStart touches hasLayout st
  | TouchMove touches farEnough zoomed =>
      onTouchMove touches farEnough zoomed st
  | TouchEnd touches => onPinchEnd touches st
  | TimerFires id => fireTimer id st
  end.

(** The state after a sequence of events, from the initial one. *)
Definition guardRun (events : list GuardEvent) : GuardState :=
  fold_left guardStep events initialGuardState.

(** Number of pending timers with a given callback. *)
Definition pendingCount (cb : TimerCallback)
                        (pending : list (nat * TimerCallback)) : nat :=
  List.length
    (filter (fun t => match snd t, cb with
                      | Disarm, Disarm | Redraw, Redraw => true
                      | _, _ => false
                      end) pending).

(** What holds of the timers in every state: identifiers are fresh and
    distinct, every pending disarm timer is the one held in
    [internalUpdateTimer], every pending redraw timer the one held in
    [relayoutTimer], and a recorded pinch start belongs to an active
    pinch. *)
Definition timersConsistent (st : GuardState) : Prop :=
  (forall id cb, In (id, cb) (timers st) -> (id < nextTimerId st)%nat)
  /\ NoDup (map fst (timers st))
  /\ (forall id, In (id, Disarm) (timers st) ->
                 internalUpdateTimer st = Some id)
  /\ (forall id, In (id, Redraw) (timers st) -> relayoutTimer st = Some id)
  /\ (pinchStartDist st = true -> pinchActive st = true).

(** While the guard is armed a release is scheduled or a pinch is in
    progress, and no redraw is pending. *)
Definition guardInvariant (st : GuardState) : Prop :=
  timersConsistent st
  /\ (isInternalUpdate st = true ->
      pinchActive st = true \/ exists id, In (id, Disarm) (timers st))
  /\ (isInternalUpdate st = true ->
      forall id, ~ In (id, Redraw) (timers st)).

(* ================================================================== *)
(** * Properties *)

(** ** Comparisons *)

Lemma leq_spec (a b : number) : leq a b = true <-> a <= b.
Proof. unfold leq. apply Qle_bool_iff. Qed.

Lemma ltq_spec (a b : number) : ltq a b = true <-> a < b.
Proof.
  unfold ltq. rewrite negb_true_iff. split.
  - intros H. apply Qnot_le_lt. intros Hle.
    apply Qle_bool_iff in Hle. congruence.
  - intros H. destruct (Qle_bool b a) eqn:E; [|reflexivity].
    apply Qle_bool_iff in E. exfalso. exact (Qlt_not_le _ _ H E).
Qed.

Lemma leq_false (a b : number) : leq a b = false <-> b < a.
Proof.
  rewrite <- ltq_spec. unfold ltq, leq.
  destruct (Qle_bool a b); simpl; intuition congruence.
Qed.

Lemma ltq_false (a b : number) : ltq a b = false <-> b <= a.
Proof.
  rewrite <- leq_spec. unfold ltq, leq.
  destruct (Qle_bool b a); simpl; intuition congruence.
Qed.

(** Turns every boolean comparison of the context and of the goal into the
    order relation it decides. *)
Ltac order_props :=
  repeat match goal with
  | H : leq _ _ = true |- _ => apply leq_spec in H
  | H : leq _ _ = false |- _ => apply leq_false in H
  | H : ltq _ _ = true |- _ => apply ltq_spec in H
  | H : ltq _ _ = false |- _ => apply ltq_false in H
  | |- leq _ _ = true => apply leq_spec
  | |- leq _ _ = false => apply leq_false
  | |- ltq _ _ = true => apply ltq_spec
  | |- ltq _ _ = false => apply ltq_false
  end.

(* ------------------------------------------------------------------ *)
(** ** Hardness scale conversion *)

Lemma segmentValue_defined (value a0 a1 b0 b1 : number) :
  a0 < a1 ->
  segmentValue value a0 a1 b0 b1
  = Some (b0 + ((value - a0) / (a1 - a0)) * (b1 - b0)).
Proof.
  intros Hlt. unfold segmentValue.
  destruct (Qeq_bool (a1 - a0) 0) eqn:E; [|reflexivity].
  apply Qeq_bool_iff in E. lra.
Qed.

Lemma interpolateScale_three (v a0 a1 a2 b0 b1 b2 : number) :
  a0 < a1 -> a1 < a2 ->
  interpolateScale v [a0; a1; a2] [b0; b1; b2]
  = Some (convert v (a0, a1, a2) (b0, b1, b2)).
Proof.
  intros H01 H12. unfold interpolateScale, convert. simpl.
  destruct (leq v a1) eqn:E; simpl.
  - now apply segmentValue_defined.
  - rewrite orb_true_r. now apply segmentValue_defined.
Qed.

(** Below the first anchor the fraction [t] is negative, above the last one
    it exceeds one. *)
Lemma fraction_outside (v lo hi : number) :
  lo < hi ->
  (v < lo -> (v - lo) / (hi - lo) < 0) /\ (hi < v -> 1 < (v - lo) / (hi - lo)).
Proof.
  intros Hlt. split; intros Hv.
  - apply Qlt_shift_div_r; lra.
  - apply Qlt_shift_div_l; lra.
Qed.

(** C8. For increasing 3-point anchor lists, [interpolateScale] returns
    the value of the first segment whose upper anchor is not below the
    input (the last segment otherwise), [b_i + t * (b_(i+1) - b_i)] with
    [t = (value - a_i) / (a_(i+1) - a_i)]; [t] is not clamped, so an input
    below the first anchor lands below the first target anchor and an input
    above the last anchor lands above the last target anchor; Japan 36
    converts to German 47.5. *)
Theorem interpolateScale_piecewise_linear
        (v a0 a1 a2 b0 b1 b2 : number)
        (Ha01 : a0 < a1) (Ha12 : a1 < a2)
        (Hb01 : b0 < b1) (Hb12 : b1 < b2) :
  interpolateScale v [a0; a1; a2] [b0; b1; b2]
  = Some (convert v (a0, a1, a2) (b0, b1, b2))
  /\ (v <= a1 ->
      interpolateScale v [a0; a1; a2] [b0; b1; b2]
      = Some (b0 + ((v - a0) / (a1 - a0)) * (b1 - b0)))
  /\ (a1 < v ->
      interpolateScale v [a0; a1; a2] [b0; b1; b2]
      = Some (b1 + ((v - a1) / (a2 - a1)) * (b2 - b1)))
  /\ (v < a0 ->
      (v - a0) / (a1 - a0) < 0
      /\ convert v (a0, a1, a2) (b0, b1, b2) < b0)
  /\ (a2 < v ->
      1 < (v - a1) / (a2 - a1)
      /\ b2 < convert v (a0, a1, a2) (b0, b1, b2))
  /\ (exists q,
        toGermanScale (Some 36) "Japan" = Some q /\ q == 47.5).
Proof.
  pose proof (interpolateScale_three v a0 a1 a2 b0 b1 b2 Ha01 Ha12) as Heq.
  split; [exact Heq|].
  split.
  { intros Hv. rewrite Heq. unfold convert.
    apply leq_spec in Hv. now rewrite Hv. }
  split.
  { intros Hv. rewrite Heq. unfold convert.
    apply leq_false in Hv. now rewrite Hv. }
  split.
  { intros Hv.
    destruct (fraction_outside v a0 a1 Ha01) as [Hneg _].
    specialize (Hneg Hv). split; [exact Hneg|].
    unfold convert.
    assert (Hle : leq v a1 = true) by (order_props; lra).
    rewrite Hle.
    assert (Hprod : ((v - a0) / (a1 - a0)) * (b1 - b0) < 0).
    { setoid_replace (((v - a0) / (a1 - a0)) * (b1 - b0))
        with (- ((- ((v - a0) / (a1 - a0))) * (b1 - b0))) by ring.
      assert (0 < (- ((v - a0) / (a1 - a0))) * (b1 - b0)).
      { apply Qmult_lt_0_compat; lra. }
      lra. }
    lra. }
  split.
  { intros Hv.
    destruct (fraction_outside v a1 a2 Ha12) as [_ Hbig].
    specialize (Hbig Hv). split; [exact Hbig|].
    unfold convert.
    assert (Hle : leq v a1 = false) by (order_props; lra).
    rewrite Hle.
    assert (Hprod : 0 < ((v - a1) / (a2 - a1) - 1) * (b2 - b1)).
    { apply Qmult_lt_0_compat; lra. }
    lra. }
  exists (1425 # 30). split; [reflexivity|reflexivity].
Qed.

Lemma interpolateScale_piecewise_linear_witness :
  interpolateScale 36 [33; 36; 44] [40; 47.5; 55]
  = Some (convert 36 (33, 36, 44) (40, 47.5, 55)).
Proof.
  refine (proj1 (interpolateScale_piecewise_linear
                   36 33 36 44 40 47.5 55 _ _ _ _)); lra.
Defined.

(* ------------------------------------------------------------------ *)
(** ** Rank tables and loading *)

Lemma findRankFrom_range (rankingArray : list RankEntry) :
  forall (i : Z) (b : string) (n a : option string),
    (0 <= i)%Z ->
    let k := findRankFrom i b n a rankingArray in
    k = (-1)%Z \/ (i <= k < i + Z.of_nat (List.length rankingArray))%Z.
Proof.
  induction rankingArray as [|e rest IH]; intros i b n a Hi; simpl.
  - now left.
  - destruct (negb (String.eqb _ b)).
    + destruct (IH (i + 1)%Z b n a ltac:(lia)) as [H|H]; [now left|right; lia].
    + destruct (strictEq (entryName e) n || strictEq (entryName e) a)%bool.
      * right. lia.
      * destruct (IH (i + 1)%Z b n a ltac:(lia)) as [H|H];
          [now left|right; lia].
Qed.

Lemma findRubberRank_range (rubber : Rubber) (rankingArray : list RankEntry) :
  findRubberRank rubber rankingArray = (-1)%Z
  \/ (0 <= findRubberRank rubber rankingArray
      < Z.of_nat (List.length rankingArray))%Z.
Proof.
  unfold findRubberRank.
  destruct (findRankFrom_range rankingArray 0 (toLowerCase (trim (orEmpty (brand rubber))))
              (name rubber) (abbr rubber) ltac:(lia)) as [H|H];
    [now left|right; lia].
Qed.

(** The second loop does not touch the identity fields, so a lookup gives
    the same index before and after it. *)
Lemma findRubberRank_applyRankings
      (rankings : Rankings) (priorityRanking bestsellerRanking : list RankEntry)
      (rubber : Rubber) (rankingArray : list RankEntry) :
  findRubberRank
    (applyRankings rankings priorityRanking bestsellerRanking rubber)
    rankingArray
  = findRubberRank rubber rankingArray.
Proof. reflexivity. Qed.

Lemma whenFound_some (idx v w : Z) :
  whenFound idx v = Some w <-> (0 <= idx)%Z /\ v = w.
Proof.
  unfold whenFound. destruct (0 <=? idx)%Z eqn:E.
  - apply Z.leb_le in E. split; [intros [= ->]; now split|intros [_ ->]; easy].
  - apply Z.leb_gt in E. split; [discriminate|lia].
Qed.

Lemma whenFound_none (idx v : Z) :
  whenFound idx v = None <-> (idx < 0)%Z.
Proof.
  unfold whenFound. destruct (0 <=? idx)%Z eqn:E.
  - apply Z.leb_le in E. split; [discriminate|lia].
  - apply Z.leb_gt in E. split; [easy|reflexivity].
Qed.

Lemma isNull_false (v : option Z) : isNull v = false <-> exists w, v = Some w.
Proof.
  destruct v; simpl; split; try easy; eauto. intros [w [=]].
Qed.

(** Membership in [rubberData], unfolded: the rubber comes out of the second
    loop and both of its lookups succeeded. *)
Lemma loadRubberData_In
      (rawItems : list RawItem) (rankings : Rankings)
      (priorityRanking bestsellerRanking : list RankEntry) (r : Rubber) :
  In r (loadRubberData rawItems rankings priorityRanking bestsellerRanking)
  <-> In r (rankedData rawItems rankings priorityRanking bestsellerRanking)
      /\ (0 <= findRubberRank r (spin rankings))%Z
      /\ (0 <= findRubberRank r (speed rankings))%Z.
Proof.
  unfold loadRubberData. rewrite filter_In. split.
  - intros [Hin Hxy]. split; [exact Hin|].
    unfold rankedData in Hin. apply in_map_iff in Hin.
    destruct Hin as [r0 [<- _]].
    rewrite !findRubberRank_applyRankings.
    apply andb_true_iff in Hxy. destruct Hxy as [Hx Hy].
    apply negb_true_iff, isNull_false in Hx, Hy.
    destruct Hx as [vx Hx], Hy as [vy Hy]. simpl in Hx, Hy.
    apply whenFound_some in Hx, Hy. tauto.
  - intros [Hin [Hs Hv]]. split; [exact Hin|].
    unfold rankedData in Hin. apply in_map_iff in Hin.
    destruct Hin as [r0 [<- _]].
    rewrite !findRubberRank_applyRankings in *.
    simpl. unfold whenFound.
    apply Z.leb_le in Hs, Hv. now rewrite Hs, Hv.
Qed.

(** Ranks and coordinates of a loaded rubber, in terms of its two table
    positions. *)
Lemma loadRubberData_fields
      (rawItems : list RawItem) (rankings : Rankings)
      (priorityRanking bestsellerRanking : list RankEntry) (r : Rubber) :
  In r (loadRubberData rawItems rankings priorityRanking bestsellerRanking) ->
  let i := findRubberRank r (spin rankings) in
  let j := findRubberRank r (speed rankings) in
  (0 <= i < Z.of_nat (List.length (spin rankings)))%Z
  /\ (0 <= j < Z.of_nat (List.length (speed rankings)))%Z
  /\ spinRank r = Some (i + 1)%Z
  /\ speedRank r = Some (j + 1)%Z
  /\ x r = Some (Z.of_nat (List.length (spin rankings)) - i)%Z
  /\ y r = Some (Z.of_nat (List.length (speed rankings)) - j)%Z.
Proof.
  intros Hin i j. apply loadRubberData_In in Hin.
  destruct Hin as [Hin [Hi Hj]]. fold i in Hi. fold j in Hj.
  pose proof (findRubberRank_range r (spin rankings)) as Ri.
  pose proof (findRubberRank_range r (speed rankings)) as Rj.
  fold i in Ri. fold j in Rj.
  unfold rankedData in Hin. apply in_map_iff in Hin.
  destruct Hin as [r0 [Heq _]].
  assert (Ei : findRubberRank r0 (spin rankings) = i)
    by (subst r; reflexivity).
  assert (Ej : findRubberRank r0 (speed rankings) = j)
    by (subst r; reflexivity).
  repeat split; try lia.
  - rewrite <- Heq. simpl. rewrite Ei. apply whenFound_some. now split.
  - rewrite <- Heq. simpl. rewrite Ej. apply whenFound_some. now split.
  - rewrite <- Heq. simpl. rewrite Ei. apply whenFound_some. now split.
  - rewrite <- Heq. simpl. rewrite Ej. apply whenFound_some. now split.
Qed.

(* ------------------------------------------------------------------ *)
(** ** The priority sort *)

Lemma insertByPriority_perm (r : Rubber) (l : list Rubber) :
  Permutation (insertByPriority r l) (r :: l).
Proof.
  induction l as [|s rest IH]; simpl.
  - apply Permutation_refl.
  - destruct (priority r <=? priority s)%Z.
    + apply Permutation_refl.
    + eapply perm_trans; [apply perm_skip, IH|apply perm_swap].
Qed.

Lemma sortByPriority_perm (l : list Rubber) :
  Permutation (sortByPriority l) l.
Proof.
  induction l as [|r rest IH]; simpl.
  - apply perm_nil.
  - eapply perm_trans; [apply insertByPriority_perm|now apply perm_skip].
Qed.

Lemma insertByPriority_ascending (r : Rubber) (l : list Rubber) :
  ascending l -> ascending (insertByPriority r l).
Proof.
  unfold ascending. induction l as [|s rest IH]; intros Hs; simpl.
  - constructor; constructor.
  - apply StronglySorted_inv in Hs. destruct Hs as [Hrest Hall].
    destruct (priority r <=? priority s)%Z eqn:E.
    + apply Z.leb_le in E. constructor.
      * constructor; assumption.
      * constructor; [exact E|].
        eapply Forall_impl; [|exact Hall]. simpl. intros; lia.
    + apply Z.leb_gt in E. constructor.
      * now apply IH.
      * eapply Permutation_Forall;
          [apply Permutation_sym, insertByPriority_perm|].
        constructor; [lia|exact Hall].
Qed.

Lemma sortByPriority_ascending (l : list Rubber) :
  ascending (sortByPriority l).
Proof.
  induction l as [|r rest IH]; simpl.
  - constructor.
  - now apply insertByPriority_ascending.
Qed.

Lemma insertByPriority_ties (r : Rubber) (l : list Rubber) (p : Z) :
  filter (fun s => (priority s =? p)%Z) (insertByPriority r l)
  = filter (fun s => (priority s =? p)%Z) (r :: l).
Proof.
  induction l as [|s rest IH]; [reflexivity|].
  simpl. destruct (priority r <=? priority s)%Z eqn:E; [reflexivity|].
  apply Z.leb_gt in E. simpl. rewrite IH. simpl.
  destruct (priority r =? p)%Z eqn:Er, (priority s =? p)%Z eqn:Es;
    try reflexivity.
  apply Z.eqb_eq in Er, Es. lia.
Qed.

Lemma sortByPriority_ties (l : list Rubber) :
  tiesKeepOrder l (sortByPriority l).
Proof.
  intros p. induction l as [|r rest IH]; [reflexivity|].
  simpl sortByPriority. rewrite insertByPriority_ties. simpl.
  now rewrite IH.
Qed.

(** In an ascending list where every flagged element has a smaller priority
    than every unflagged one, the flagged elements form a prefix. *)
Lemma ascending_flagged_first (flag : Rubber -> bool) (l : list Rubber) :
  ascending l ->
  (forall a b, In a l -> In b l -> flag a = true -> flag b = false ->
               (priority a < priority b)%Z) ->
  l = filter flag l ++ filter (fun r => negb (flag r)) l.
Proof.
  unfold ascending. induction l as [|a rest IH]; intros Hs Hsep.
  - reflexivity.
  - apply StronglySorted_inv in Hs. destruct Hs as [Hrest Hall].
    assert (IH' : rest = filter flag rest ++ filter (fun r => negb (flag r)) rest).
    { apply IH; [exact Hrest|].
      intros u v Hu Hv. apply Hsep; now right. }
    simpl. destruct (flag a) eqn:Fa; simpl.
    + now rewrite <- IH'.
    + assert (Hnone : forall b, In b rest -> flag b = false).
      { intros b Hb. destruct (flag b) eqn:Fb; [|reflexivity].
        assert (priority b < priority a)%Z
          by (apply Hsep; [now right|now left|assumption|assumption]).
        rewrite Forall_forall in Hall. specialize (Hall b Hb). lia. }
      assert (E1 : filter flag rest = []).
      { clear -Hnone. induction rest as [|b rest IHr]; [reflexivity|].
        simpl. rewrite (Hnone b (or_introl eq_refl)).
        apply IHr. intros; apply Hnone; now right. }
      assert (E2 : filter (fun r => negb (flag r)) rest = rest).
      { clear -Hnone. induction rest as [|b rest IHr]; [reflexivity|].
        simpl. rewrite (Hnone b (or_introl eq_refl)). simpl.
        f_equal. apply IHr. intros; apply Hnone; now right. }
      now rewrite E1, E2.
Qed.

(* ------------------------------------------------------------------ *)
(** ** Rank projection *)

(** C6. Every loaded rubber has 1-based ranks within its tables and sits at
    [x = spinTableSize - spinRank + 1], [y = speedTableSize - speedRank + 1];
    hence the coordinates strictly decrease as the rank grows, rank 1 sits
    at the table size, which no coordinate exceeds; and the rubber ranked
    second of three in spin gets [x = 2]. *)
Theorem rank_to_coordinate_projection
        (rawItems : list RawItem) (rankings : Rankings)
        (priorityRanking bestsellerRanking : list RankEntry) :
  let rubberData :=
    loadRubberData rawItems rankings priorityRanking bestsellerRanking in
  let spinTableSize := Z.of_nat (List.length (spin rankings)) in
  let speedTableSize := Z.of_nat (List.length (speed rankings)) in
  (forall r, In r rubberData ->
     exists sr vr,
       spinRank r = Some sr /\ speedRank r = Some vr
       /\ (1 <= sr <= spinTableSize)%Z /\ (1 <= vr <= speedTableSize)%Z
       /\ x r = Some (spinTableSize - sr + 1)%Z
       /\ y r = Some (speedTableSize - vr + 1)%Z)
  /\ (forall r1 r2 s1 s2 x1 x2,
        In r1 rubberData -> In r2 rubberData ->
        spinRank r1 = Some s1 -> spinRank r2 = Some s2 ->
        x r1 = Some x1 -> x r2 = Some x2 ->
        (s1 < s2)%Z -> (x2 < x1)%Z)
  /\ (forall r1 r2 v1 v2 y1 y2,
        In r1 rubberData -> In r2 rubberData ->
        speedRank r1 = Some v1 -> speedRank r2 = Some v2 ->
        y r1 = Some y1 -> y r2 = Some y2 ->
        (v1 < v2)%Z -> (y2 < y1)%Z)
  /\ (forall r, In r rubberData ->
        (spinRank r = Some 1%Z -> x r = Some spinTableSize)
        /\ (speedRank r = Some 1%Z -> y r = Some speedTableSize)
        /\ (forall v, x r = Some v -> (v <= spinTableSize)%Z)
        /\ (forall v, y r = Some v -> (v <= speedTableSize)%Z))
  /\ (In sampleB sampleData
      /\ spinRank sampleB = Some 2%Z
      /\ List.length (spin sampleRankings) = 3%nat
      /\ x sampleB = Some 2%Z).
Proof.
  intros rubberData spinTableSize speedTableSize.
  assert (Hfields : forall r, In r rubberData ->
     exists sr vr,
       spinRank r = Some sr /\ speedRank r = Some vr
       /\ (1 <= sr <= spinTableSize)%Z /\ (1 <= vr <= speedTableSize)%Z
       /\ x r = Some (spinTableSize - sr + 1)%Z
       /\ y r = Some (speedTableSize - vr + 1)%Z).
  { intros r Hin. apply loadRubberData_fields in Hin.
    destruct Hin as (Hi & Hj & Hsr & Hvr & Hx & Hy).
    exists (findRubberRank r (spin rankings) + 1)%Z,
           (findRubberRank r (speed rankings) + 1)%Z.
    repeat split; try assumption; try (unfold spinTableSize, speedTableSize; lia).
    - rewrite Hx. f_equal. unfold spinTableSize. lia.
    - rewrite Hy. f_equal. unfold speedTableSize. lia. }
  split; [exact Hfields|].
  split.
  { intros r1 r2 s1 s2 x1 x2 H1 H2 Hs1 Hs2 Hx1 Hx2 Hlt.
    destruct (Hfields r1 H1) as (a1 & b1 & Ea1 & _ & _ & _ & Ex1 & _).
    destruct (Hfields r2 H2) as (a2 & b2 & Ea2 & _ & _ & _ & Ex2 & _).
    rewrite Hs1 in Ea1. rewrite Hs2 in Ea2.
    rewrite Hx1 in Ex1. rewrite Hx2 in Ex2.
    injection Ea1 as <-. injection Ea2 as <-.
    injection Ex1 as ->. injection Ex2 as ->. lia. }
  split.
  { intros r1 r2 v1 v2 y1 y2 H1 H2 Hv1 Hv2 Hy1 Hy2 Hlt.
    destruct (Hfields r1 H1) as (a1 & b1 & _ & Eb1 & _ & _ & _ & Ey1).
    destruct (Hfields r2 H2) as (a2 & b2 & _ & Eb2 & _ & _ & _ & Ey2).
    rewrite Hv1 in Eb1. rewrite Hv2 in Eb2.
    rewrite Hy1 in Ey1. rewrite Hy2 in Ey2.
    injection Eb1 as <-. injection Eb2 as <-.
    injection Ey1 as ->. injection Ey2 as ->. lia. }
  split.
  { intros r Hin.
    destruct (Hfields r Hin) as (a & b & Ea & Eb & Ra & Rb & Ex & Ey).
    repeat split.
    - intros H1. rewrite H1 in Ea. injection Ea as <-.
      rewrite Ex. f_equal. lia.
    - intros H1. rewrite H1 in Eb. injection Eb as <-.
      rewrite Ey. f_equal. lia.
    - intros v Hv. rewrite Hv in Ex. injection Ex as ->. lia.
    - intros v Hv. rewrite Hv in Ey. injection Ey as ->. lia. }
  repeat split; try reflexivity.
  right; left; reflexivity.
Qed.

Lemma rank_to_coordinate_projection_witness :
  exists sr vr,
    spinRank sampleB = Some sr /\ speedRank sampleB = Some vr
    /\ (1 <= sr <= 3)%Z /\ (1 <= vr <= 2)%Z
    /\ x sampleB = Some (3 - sr + 1)%Z
    /\ y sampleB = Some (2 - vr + 1)%Z.
Proof.
  apply (proj1 (rank_to_coordinate_projection
                  sampleRaw sampleRankings samplePriority sampleBestseller)
               sampleB).
  right; left; reflexivity.
Defined.

(* ------------------------------------------------------------------ *)
(** ** Missing ranks *)

(** C7. A rubber stays in [rubberData] exactly when its lookups in the spin
    table and in the speed table both succeed: one that is missing from
    either table is dropped, every one kept has both ranks and both
    coordinates, and the ranks are [null] exactly when the lookup returned
    [-1].  [loadRubberData] is a total function: dropping raises nothing. *)
Theorem missing_rank_excluded
        (rawItems : list RawItem) (rankings : Rankings)
        (priorityRanking bestsellerRanking : list RankEntry) :
  let data :=
    rankedData rawItems rankings priorityRanking bestsellerRanking in
  let rubberData :=
    loadRubberData rawItems rankings priorityRanking bestsellerRanking in
  (forall r, In r data ->
     (spinRank r = None <-> findRubberRank r (spin rankings) = (-1)%Z)
     /\ (speedRank r = None <-> findRubberRank r (speed rankings) = (-1)%Z))
  /\ (forall r, In r data ->
        spinRank r = None \/ speedRank r = None -> ~ In r rubberData)
  /\ (forall r, In r data ->
        spinRank r <> None -> speedRank r <> None -> In r rubberData)
  /\ (forall r, In r rubberData ->
        In r data
        /\ (exists sr, spinRank r = Some sr)
        /\ (exists vr, speedRank r = Some vr)
        /\ (exists vx, x r = Some vx)
        /\ (exists vy, y r = Some vy)).
Proof.
  intros data rubberData.
  assert (Hranks : forall r, In r data ->
     (spinRank r = None <-> findRubberRank r (spin rankings) = (-1)%Z)
     /\ (speedRank r = None <-> findRubberRank r (speed rankings) = (-1)%Z)).
  { intros r Hin. unfold data, rankedData in Hin.
    apply in_map_iff in Hin. destruct Hin as [r0 [<- _]].
    rewrite !findRubberRank_applyRankings. simpl.
    rewrite !whenFound_none.
    pose proof (findRubberRank_range r0 (spin rankings)).
    pose proof (findRubberRank_range r0 (speed rankings)).
    split; split; lia. }
  split; [exact Hranks|].
  split.
  { intros r Hin Hnone Hkept.
    apply loadRubberData_In in Hkept. destruct Hkept as [_ [Hs Hv]].
    destruct (Hranks r Hin) as [Hspin Hspeed].
    destruct Hnone as [Hn|Hn]; [apply Hspin in Hn|apply Hspeed in Hn]; lia. }
  split.
  { intros r Hin Hs Hv. apply loadRubberData_In.
    destruct (Hranks r Hin) as [Hspin Hspeed].
    pose proof (findRubberRank_range r (spin rankings)).
    pose proof (findRubberRank_range r (speed rankings)).
    split; [exact Hin|]. split.
    - destruct (Z_lt_le_dec (findRubberRank r (spin rankings)) 0) as [Hlt|Hge];
        [|exact Hge].
      exfalso. apply Hs, Hspin. lia.
    - destruct (Z_lt_le_dec (findRubberRank r (speed rankings)) 0) as [Hlt|Hge];
        [|exact Hge].
      exfalso. apply Hv, Hspeed. lia. }
  intros r Hin.
  pose proof (proj1 (loadRubberData_In _ _ _ _ _) Hin) as [Hdata _].
  apply loadRubberData_fields in Hin.
  destruct Hin as (_ & _ & Hsr & Hvr & Hx & Hy).
  split; [exact Hdata|]. repeat split; eauto.
Qed.

Lemma missing_rank_excluded_witness :
  ~ In (applyRankings sampleRankings samplePriority sampleBestseller
                      (makeRubber (rawNamed "X" "D")))
       sampleData.
Proof.
  apply (proj1 (proj2 (missing_rank_excluded
                         sampleRaw sampleRankings samplePriority
                         sampleBestseller))).
  - right; right; left; reflexivity.
  - left; reflexivity.
Defined.

(* ------------------------------------------------------------------ *)
(** ** Display priority *)

Lemma rankedData_priority
      (rawItems : list RawItem) (rankings : Rankings)
      (priorityRanking bestsellerRanking : list RankEntry) (r : Rubber) :
  In r (rankedData rawItems rankings priorityRanking bestsellerRanking) ->
  let bestsellerIdx := findRubberRank r bestsellerRanking in
  let popIdx := findRubberRank r priorityRanking in
  bestseller r = (0 <=? bestsellerIdx)%Z
  /\ priority r =
       if (0 <=? bestsellerIdx)%Z then (bestsellerIdx + 1)%Z
       else if (0 <=? popIdx)%Z
            then (Z.of_nat (List.length bestsellerRanking) + popIdx + 1)%Z
            else 999%Z.
Proof.
  intros Hin. unfold rankedData in Hin.
  apply in_map_iff in Hin. destruct Hin as [r0 [<- Hin0]].
  apply in_map_iff in Hin0. destruct Hin0 as [raw [<- _]].
  split; reflexivity.
Qed.

(** C10. With fewer than 999 bestseller entries, a loaded rubber found in
    the bestseller table has priority [bestsellerIdx + 1]; one that is not
    has [bestsellerRanking.length + popIdx + 1] or the default 999; the
    former is always strictly smaller than the latter, so in the priority
    sort of any selection of loaded rubbers all bestsellers come first. *)
Theorem bestseller_priority_precedence
        (rawItems : list RawItem) (rankings : Rankings)
        (priorityRanking bestsellerRanking : list RankEntry)
        (Hsize : (Z.of_nat (List.length bestsellerRanking) < 999)%Z) :
  let rubberData :=
    loadRubberData rawItems rankings priorityRanking bestsellerRanking in
  (forall r, In r rubberData ->
     let bestsellerIdx := findRubberRank r bestsellerRanking in
     let popIdx := findRubberRank r priorityRanking in
     ((0 <= bestsellerIdx)%Z ->
        bestseller r = true /\ priority r = (bestsellerIdx + 1)%Z)
     /\ (bestsellerIdx = (-1)%Z ->
           bestseller r = false
           /\ ((0 <= popIdx)%Z ->
                 priority r
                 = (Z.of_nat (List.length bestsellerRanking) + popIdx + 1)%Z)
           /\ (popIdx = (-1)%Z -> priority r = 999%Z)))
  /\ (forall r1 r2, In r1 rubberData -> In r2 rubberData ->
        bestseller r1 = true -> bestseller r2 = false ->
        (priority r1 < priority r2)%Z)
  /\ (forall filteredData, incl filteredData rubberData ->
        sortByPriority filteredData
        = filter bestseller (sortByPriority filteredData)
          ++ filter (fun r => negb (bestseller r))
                    (sortByPriority filteredData)).
Proof.
  intros rubberData.
  assert (Hcases : forall r, In r rubberData ->
            bestseller r = (0 <=? findRubberRank r bestsellerRanking)%Z
            /\ priority r =
                 if (0 <=? findRubberRank r bestsellerRanking)%Z
                 then (findRubberRank r bestsellerRanking + 1)%Z
                 else if (0 <=? findRubberRank r priorityRanking)%Z
                      then (Z.of_nat (List.length bestsellerRanking)
                            + findRubberRank r priorityRanking + 1)%Z
                      else 999%Z).
  { intros r Hin. apply loadRubberData_In in Hin.
    destruct Hin as [Hin _]. now apply rankedData_priority in Hin. }
  assert (Hsep : forall r1 r2, In r1 rubberData -> In r2 rubberData ->
            bestseller r1 = true -> bestseller r2 = false ->
            (priority r1 < priority r2)%Z).
  { intros r1 r2 H1 H2 B1 B2.
    destruct (Hcases r1 H1) as [E1 P1]. destruct (Hcases r2 H2) as [E2 P2].
    rewrite B1 in E1. rewrite B2 in E2.
    rewrite <- E1 in P1. rewrite <- E2 in P2.
    symmetry in E1. apply Z.leb_le in E1.
    pose proof (findRubberRank_range r1 bestsellerRanking) as R1.
    rewrite P1, P2.
    destruct (0 <=? findRubberRank r2 priorityRanking)%Z eqn:Ep.
    - apply Z.leb_le in Ep. lia.
    - lia. }
  split.
  { intros r Hin bestsellerIdx popIdx.
    destruct (Hcases r Hin) as [E P]. fold bestsellerIdx in E, P.
    fold popIdx in P. split.
    - intros Hb. apply Z.leb_le in Hb. rewrite Hb in E, P. now split.
    - intros Hb. rewrite Hb in E, P. simpl in E, P.
      split; [exact E|]. split.
      + intros Hp. apply Z.leb_le in Hp. now rewrite Hp in P.
      + intros Hp. now rewrite Hp in P. }
  split; [exact Hsep|].
  intros filteredData Hincl.
  apply ascending_flagged_first.
  - apply sortByPriority_ascending.
  - intros a b Ha Hb. apply Hsep; apply Hincl.
    + eapply Permutation_in; [apply sortByPriority_perm|exact Ha].
    + eapply Permutation_in; [apply sortByPriority_perm|exact Hb].
Qed.

Lemma bestseller_priority_precedence_witness :
  (priority sampleB < priority sampleA)%Z.
Proof.
  refine (proj1 (proj2 (bestseller_priority_precedence
                          sampleRaw sampleRankings samplePriority
                          sampleBestseller _))
                sampleB sampleA _ _ _ _).
  - simpl. lia.
  - right; left; reflexivity.
  - left; reflexivity.
  - reflexivity.
  - reflexivity.
Defined.

(* ------------------------------------------------------------------ *)
(** ** Control tiers *)

Lemma fold_min_bounds (ks : list Z) :
  forall k : Z,
    let m := fold_left Z.min ks k in
    (m <= k)%Z /\ (forall j, In j ks -> (m <= j)%Z) /\ In m (k :: ks).
Proof.
  induction ks as [|a rest IH]; intros k; simpl.
  - repeat split; [lia|tauto|now left].
  - destruct (IH (Z.min k a)) as (H1 & H2 & H3). repeat split.
    + lia.
    + intros j [<-|Hj]; [lia|now apply H2].
    + destruct H3 as [H3|H3]; [|now right; right].
      rewrite <- H3. destruct (Z.min_spec k a) as [[_ ->]|[_ ->]]; tauto.
Qed.

Lemma fold_max_bounds (ks : list Z) :
  forall k : Z,
    let m := fold_left Z.max ks k in
    (k <= m)%Z /\ (forall j, In j ks -> (j <= m)%Z) /\ In m (k :: ks).
Proof.
  induction ks as [|a rest IH]; intros k; simpl.
  - repeat split; [lia|tauto|now left].
  - destruct (IH (Z.max k a)) as (H1 & H2 & H3). repeat split.
    + lia.
    + intros j [<-|Hj]; [lia|now apply H2].
    + destruct H3 as [H3|H3]; [|now right; right].
      rewrite <- H3. destruct (Z.max_spec k a) as [[_ ->]|[_ ->]]; tauto.
Qed.

Lemma finiteRanks_In (rubbers : list Rubber) (k : Z) :
  In k (finiteRanks rubbers)
  <-> exists r, In r rubbers /\ controlRank r = Some k.
Proof.
  induction rubbers as [|q rest IH]; simpl.
  - split; [tauto|intros [r [[] _]]].
  - destruct (controlRank q) eqn:E; simpl; rewrite IH; split.
    + intros [<-|[r [Hr Hk]]]; [exists q; tauto|exists r; tauto].
    + intros [r [[<-|Hr] Hk]]; [left; congruence|right; eauto].
    + intros [r [Hr Hk]]. exists r; tauto.
    + intros [r [[<-|Hr] Hk]]; [congruence|eauto].
Qed.

(** The bounds installed by [initControlToggleFilter] are the least and the
    greatest control rank among the rubbers. *)
Lemma initControlToggleFilter_bounds
      (rubberData : list Rubber) (st0 : ControlFilterState) (k : Z) :
  In k (finiteRanks rubberData) ->
  exists lo hi,
    rankMin (initControlToggleFilter rubberData st0) = Some lo
    /\ rankMax (initControlToggleFilter rubberData st0) = Some hi
    /\ In lo (finiteRanks rubberData) /\ In hi (finiteRanks rubberData)
    /\ (forall j, In j (finiteRanks rubberData) -> (lo <= j <= hi)%Z).
Proof.
  intros Hk. unfold initControlToggleFilter, getControlBoundsFromData.
  destruct (finiteRanks rubberData) as [|k0 ks] eqn:E; [destruct Hk|].
  destruct (fold_min_bounds ks k0) as (L1 & L2 & L3).
  destruct (fold_max_bounds ks k0) as (U1 & U2 & U3).
  exists (fold_left Z.min ks k0), (fold_left Z.max ks k0). simpl.
  split; [reflexivity|]. split; [reflexivity|].
  split; [exact L3|]. split; [exact U3|].
  intros j [<-|Hj]; split;
    [exact L1|exact U1|now apply L2|now apply U2].
Qed.

Lemma getControlTierFromRank_in_range (st : ControlFilterState) (k lo hi : Z) :
  rankMin st = Some lo -> rankMax st = Some hi -> (lo <= k <= hi)%Z ->
  getControlTierFromRank st (Some k)
  = Some (tierOfFraction (inject_Z (k - lo) / inject_Z (hi - lo + 1))).
Proof.
  intros Hlo Hhi Hk. unfold getControlTierFromRank. rewrite Hlo, Hhi.
  destruct (hi - lo + 1 <=? 0)%Z eqn:E; [apply Z.leb_le in E; lia|].
  replace (Z.max 0 (Z.min (hi - lo + 1 - 1) (k - lo))) with (k - lo)%Z by lia.
  unfold tierOfFraction.
  destruct (ltq _ 0.4); [reflexivity|]. destruct (ltq _ 0.8); reflexivity.
Qed.

Lemma fraction_in_unit (n d : Z) :
  (0 <= n < d)%Z -> 0 <= inject_Z n / inject_Z d /\ inject_Z n / inject_Z d < 1.
Proof.
  intros H.
  assert (Hd : 0 < inject_Z d).
  { replace 0 with (inject_Z 0) by reflexivity. rewrite <- Zlt_Qlt. lia. }
  assert (Hn : 0 <= inject_Z n).
  { replace 0 with (inject_Z 0) by reflexivity. rewrite <- Zle_Qle. lia. }
  assert (Hnd : inject_Z n < inject_Z d) by (rewrite <- Zlt_Qlt; lia).
  split.
  - apply Qle_shift_div_l; [exact Hd|]. lra.
  - apply Qlt_shift_div_r; [exact Hd|]. lra.
Qed.

(** The claim of C9 as the specification words it fails: rubber B of the
    sample catalog has control rank 4 in a table of 5, which is in the
    second tier when normalized over the table size, and the code puts it in
    the first. *)
Lemma control_tier_not_over_table_size :
  In sampleB sampleData
  /\ controlRank sampleB = Some 4%Z
  /\ controlTotal sampleB = 5%Z
  /\ getControlTierFromRank
       (initControlToggleFilter sampleData initialControlFilterState)
       (controlRank sampleB) = Some Easy
  /\ tierOverTable 4 (controlTotal sampleB) = Med.
Proof.
  repeat split. right; left; reflexivity.
Qed.

(** C9 (amended). The tier of a loaded rubber with a control rank is the
    40% / 80% bucketing of [(rank - rankMin) / (rankMax - rankMin + 1)],
    where [rankMin] and [rankMax] are the least and greatest control rank
    present among the loaded rubbers; that fraction lies in [[0,1)]; when
    the loaded ranks run from 1 to the table size it is the normalization
    over the table size. *)
Theorem control_tier_bucketing
        (rubberData : list Rubber) (r : Rubber) (k : Z)
        (Hin : In r rubberData) (Hrank : controlRank r = Some k) :
  let st := initControlToggleFilter rubberData initialControlFilterState in
  exists lo hi,
    rankMin st = Some lo /\ rankMax st = Some hi
    /\ In lo (finiteRanks rubberData) /\ In hi (finiteRanks rubberData)
    /\ (forall j, In j (finiteRanks rubberData) -> (lo <= j <= hi)%Z)
    /\ (let pct := inject_Z (k - lo) / inject_Z (hi - lo + 1) in
        0 <= pct /\ pct < 1
        /\ getControlTierFromRank st (controlRank r)
           = Some (tierOfFraction pct)
        /\ (pct < 0.4 ->
            getControlTierFromRank st (controlRank r) = Some Easy)
        /\ (0.4 <= pct -> pct < 0.8 ->
            getControlTierFromRank st (controlRank r) = Some Med)
        /\ (0.8 <= pct ->
            getControlTierFromRank st (controlRank r) = Some Hard))
    /\ (lo = 1%Z -> hi = controlTotal r ->
        getControlTierFromRank st (controlRank r)
        = Some (tierOverTable k (controlTotal r))).
Proof.
  intros st.
  assert (Hk : In k (finiteRanks rubberData))
    by (apply finiteRanks_In; eauto).
  destruct (initControlToggleFilter_bounds rubberData
              initialControlFilterState k Hk)
    as (lo & hi & Hlo & Hhi & Ilo & Ihi & Hall).
  fold st in Hlo, Hhi.
  pose proof (Hall k Hk) as Hrange.
  pose proof (getControlTierFromRank_in_range st k lo hi Hlo Hhi Hrange)
    as Htier.
  exists lo, hi. rewrite Hrank.
  repeat (split; [assumption|]).
  split.
  { intros pct.
    destruct (fraction_in_unit (k - lo) (hi - lo + 1) ltac:(lia)) as [P0 P1].
    fold pct in P0, P1, Htier.
    repeat split; try assumption.
    - intros Hp. rewrite Htier. unfold tierOfFraction.
      apply ltq_spec in Hp. now rewrite Hp.
    - intros Hp1 Hp2. rewrite Htier. unfold tierOfFraction.
      apply ltq_false in Hp1. apply ltq_spec in Hp2. now rewrite Hp1, Hp2.
    - intros Hp. rewrite Htier. unfold tierOfFraction.
      assert (H4 : ltq pct 0.4 = false) by (order_props; lra).
      assert (H8 : ltq pct 0.8 = false) by (order_props; lra).
      now rewrite H4, H8. }
  intros -> ->. rewrite Htier. unfold tierOverTable.
  replace (controlTotal r - 1 + 1)%Z with (controlTotal r) by lia.
  reflexivity.
Qed.

Lemma control_tier_bucketing_witness :
  exists lo hi,
    rankMin (initControlToggleFilter sampleData initialControlFilterState)
    = Some lo
    /\ rankMax (initControlToggleFilter sampleData initialControlFilterState)
       = Some hi
    /\ getControlTierFromRank
         (initControlToggleFilter sampleData initialControlFilterState)
         (controlRank sampleB)
       = Some (tierOfFraction (inject_Z (4 - lo) / inject_Z (hi - lo + 1))).
Proof.
  destruct (control_tier_bucketing sampleData sampleB 4%Z)
    as (lo & hi & Hlo & Hhi & _ & _ & _ & Hp & _).
  - right; left; reflexivity.
  - reflexivity.
  - exists lo, hi. repeat split; [exact Hlo|exact Hhi|].
    exact (proj1 (proj2 (proj2 Hp))).
Defined.

(* ------------------------------------------------------------------ *)
(** ** Zoom *)

Lemma getAutoscaleBounds_nonempty (rubbers : list Rubber) :
  rubbers <> [] <-> exists b, getAutoscaleBounds rubbers = Some b.
Proof.
  destruct rubbers as [|r rest]; simpl; split.
  - intros H. now contradiction H.
  - intros [b Hb]. discriminate.
  - intros _. eauto.
  - intros _. discriminate.
Qed.

Lemma viewCoversDataBounds_within
      (rubbers : list Rubber) (b : Bounds) (xRange0 yRange0 : Range) :
  getAutoscaleBounds rubbers = Some b ->
  (viewCoversDataBounds rubbers xRange0 yRange0 = true
   <-> within (boundsX b) xRange0 /\ within (boundsY b) yRange0).
Proof.
  intros Hb. unfold viewCoversDataBounds, within. rewrite Hb.
  rewrite !andb_true_iff, !leq_spec. tauto.
Qed.

(** C2. When both axis ranges of the window contain the autoscale bounds of
    the non-empty filtered set, a request with [scale > 1] is refused:
    [computeZoomedRanges] returns [null], and [zoomChart] leaves the layout
    as it was. *)
Theorem zoom_out_refused
        (currentFilteredData : list Rubber) (b : Bounds)
        (xRange0 yRange0 : Range) (scale anchorFx anchorFy : number)
        (Hbounds : getAutoscaleBounds currentFilteredData = Some b)
        (Hx : within (boundsX b) xRange0)
        (Hy : within (boundsY b) yRange0)
        (Hscale : 1 < scale) :
  computeZoomedRanges currentFilteredData xRange0 yRange0
                      scale anchorFx anchorFy = None
  /\ (forall chart : FullLayout,
        xaRange chart = xRange0 -> yaRange chart = yRange0 ->
        zoomChart currentFilteredData scale (Some chart) = Some chart).
Proof.
  assert (Hnone : forall fx fy,
            computeZoomedRanges currentFilteredData xRange0 yRange0
                                scale fx fy = None).
  { intros fx fy. unfold computeZoomedRanges.
    destruct (leq (snd xRange0 - fst xRange0) 0
              || leq (snd yRange0 - fst yRange0) 0); [reflexivity|].
    rewrite Hbounds.
    assert (Hs : ltq 1 scale = true) by now apply ltq_spec.
    assert (Hc : viewCoversDataBounds currentFilteredData xRange0 yRange0
                 = true)
      by (apply (viewCoversDataBounds_within _ b); tauto).
    now rewrite Hs, Hc. }
  split; [apply Hnone|].
  intros chart Ex Ey. unfold zoomChart. rewrite Ex, Ey.
  now rewrite Hnone.
Qed.

Lemma zoom_out_refused_witness :
  computeZoomedRanges twoCorners (0, 11) (0, 11) 2 0.5 0.5 = None.
Proof.
  refine (proj1 (zoom_out_refused
                   twoCorners
                   {| boundsX := (1 - 0.5, 10 + 0.5);
                      boundsY := (1 - 0.5, 10 + 0.5) |}
                   (0, 11) (0, 11) 2 0.5 0.5 _ _ _ _)).
  - reflexivity.
  - unfold within; simpl; lra.
  - unfold within; simpl; lra.
  - lra.
Defined.

Lemma pointAt_rangeAbout (center anchorF newSpan : number) :
  pointAt (rangeAbout center anchorF newSpan) anchorF == center.
Proof. unfold pointAt, rangeAbout. simpl. ring. Qed.

Lemma spanOf_rangeAbout (center anchorF newSpan : number) :
  spanOf (rangeAbout center anchorF newSpan) == newSpan.
Proof. unfold spanOf, rangeAbout. simpl. ring. Qed.

(** A range within the bounds is not changed by the clamp. *)
Lemma clampRangeToBounds_within (range bounds : Range) :
  within range bounds ->
  fst (clampRangeToBounds range bounds) == fst range
  /\ snd (clampRangeToBounds range bounds) == snd range.
Proof.
  intros [Hlo Hhi]. unfold clampRangeToBounds. simpl. split.
  - now apply Q.max_l.
  - now apply Q.min_l.
Qed.

(** The result of [computeZoomedRanges], when there is one, is the rescaled
    window, cut to the bounds when bounds exist and the effective scale
    exceeds one. *)
Lemma computeZoomedRanges_some
      (currentFilteredData : list Rubber) (xRange0 yRange0 : Range)
      (scale anchorFx anchorFy : number) (w : ZoomedRanges) :
  computeZoomedRanges currentFilteredData xRange0 yRange0
                      scale anchorFx anchorFy = Some w ->
  let rw := rescaledWindow currentFilteredData xRange0 yRange0
                           scale anchorFx anchorFy in
  0 < spanOf xRange0 /\ 0 < spanOf yRange0
  /\ match getAutoscaleBounds currentFilteredData with
     | Some b =>
         if ltq 1 (clampedScaleOf (Some b) (spanOf xRange0) (spanOf yRange0)
                                  scale)
         then w = {| xRange := clampRangeToBounds (xRange rw) (boundsX b);
                     yRange := clampRangeToBounds (yRange rw) (boundsY b) |}
         else w = rw
     | None => w = rw
     end.
Proof.
  unfold computeZoomedRanges, rescaledWindow, spanOf.
  destruct (leq (snd xRange0 - fst xRange0) 0) eqn:Ex; [discriminate|].
  destruct (leq (snd yRange0 - fst yRange0) 0) eqn:Ey; [discriminate|].
  simpl orb. cbv iota.
  destruct (ltq 1 scale && _ && _); [discriminate|].
  order_props. intros H. split; [exact Ex|]. split; [exact Ey|].
  destruct (getAutoscaleBounds currentFilteredData) as [b|].
  - destruct (ltq 1 _); now injection H as <-.
  - now injection H as <-.
Qed.

(** The claim of C1 as the specification words it fails when a zoom-out is
    cut to the autoscale bounds: the point under the centre of the x-range
    [[2,4]] is 3 before and 5.5 after. *)
Lemma zoom_out_clamp_moves_anchor :
  match computeZoomedRanges twoCorners (2, 4) (0, 11) 10 0.5 0.5 with
  | Some w =>
      pointAt (2, 4) 0.5 == 3
      /\ pointAt (xRange w) 0.5 == 5.5
      /\ ~ pointAt (xRange w) 0.5 == pointAt (2, 4) 0.5
  | None => False
  end.
Proof.
  vm_compute. repeat split; discriminate.
Qed.

(** C1 (amended). When [computeZoomedRanges] returns a window that the
    zoom-out clamp does not cut (no autoscale bounds, or an effective scale
    of at most one, or a rescaled window within the bounds), the data point
    at the anchor fractions is the same in the old and in the new window,
    on both axes. *)
Theorem zoom_anchor_invariance
        (currentFilteredData : list Rubber) (xRange0 yRange0 : Range)
        (scale anchorFx anchorFy : number) (w : ZoomedRanges)
        (Hres : computeZoomedRanges currentFilteredData xRange0 yRange0
                                    scale anchorFx anchorFy = Some w)
        (Hkeep : clampKeepsWindow currentFilteredData xRange0 yRange0
                                  scale anchorFx anchorFy) :
  pointAt (xRange w) anchorFx == pointAt xRange0 anchorFx
  /\ pointAt (yRange w) anchorFy == pointAt yRange0 anchorFy.
Proof.
  apply computeZoomedRanges_some in Hres.
  destruct Hres as (_ & _ & Hw).
  unfold clampKeepsWindow in Hkeep.
  set (rw := rescaledWindow currentFilteredData xRange0 yRange0
                            scale anchorFx anchorFy) in *.
  assert (Hrw : pointAt (xRange rw) anchorFx == pointAt xRange0 anchorFx
                /\ pointAt (yRange rw) anchorFy == pointAt yRange0 anchorFy).
  { unfold rw, rescaledWindow. simpl xRange. simpl yRange.
    rewrite !pointAt_rangeAbout. unfold pointAt. split; reflexivity. }
  destruct (getAutoscaleBounds currentFilteredData) as [b|];
    [|subst w; exact Hrw].
  destruct (ltq 1 _) eqn:Ecl; [|subst w; exact Hrw].
  apply ltq_spec in Ecl.
  destruct Hkeep as [Hle|[Hwx Hwy]]; [lra|].
  apply clampRangeToBounds_within in Hwx, Hwy.
  destruct Hwx as [Hx0 Hx1], Hwy as [Hy0 Hy1].
  destruct Hrw as [Hrx Hry].
  subst w. cbn [xRange yRange]. unfold pointAt in *. split.
  - rewrite Hx0, Hx1. exact Hrx.
  - rewrite Hy0, Hy1. exact Hry.
Qed.

Lemma zoom_anchor_invariance_witness :
  exists w,
    computeZoomedRanges twoCorners (2, 4) (0, 12) 0.5 0.5 0.25 = Some w
    /\ pointAt (xRange w) 0.5 == pointAt (2, 4) 0.5
    /\ pointAt (yRange w) 0.25 == pointAt (0, 12) 0.25.
Proof.
  eexists. split.
  - vm_compute. reflexivity.
  - apply (zoom_anchor_invariance twoCorners (2, 4) (0, 12) 0.5 0.5 0.25).
    + vm_compute. reflexivity.
    + left. vm_compute. discriminate.
Defined.

(** The effective scale of a zoom-in is at least the scale that brings
    either axis to its minimum span. *)
Lemma clampedScaleOf_lower (b : Bounds) (xSpan ySpan scale : number) :
  0 < xSpan -> 0 < ySpan -> scale < 1 ->
  let cs := clampedScaleOf (Some b) xSpan ySpan scale in
  spanOf (boundsX b) * MIN_SPAN_FRACTION <= xSpan * cs
  /\ spanOf (boundsY b) * MIN_SPAN_FRACTION <= ySpan * cs.
Proof.
  intros Hx Hy Hs cs. unfold cs, clampedScaleOf, spanOf.
  assert (E1 : ltq scale 1 = true) by now apply ltq_spec.
  assert (E2 : ltq 0 xSpan = true) by now apply ltq_spec.
  assert (E3 : ltq 0 ySpan = true) by now apply ltq_spec.
  rewrite E1, E2, E3.
  set (mx := (snd (boundsX b) - fst (boundsX b)) * MIN_SPAN_FRACTION).
  set (my := (snd (boundsY b) - fst (boundsY b)) * MIN_SPAN_FRACTION).
  set (m := Qmax (Qmax scale (mx / xSpan)) (my / ySpan)).
  assert (Hmx : mx / xSpan <= m).
  { unfold m. eapply Qle_trans; [apply Q.le_max_r|apply Q.le_max_l]. }
  assert (Hmy : my / ySpan <= m) by (unfold m; apply Q.le_max_r).
  assert (Fx : xSpan * (mx / xSpan) == mx) by (field; lra).
  assert (Fy : ySpan * (my / ySpan) == my) by (field; lra).
  split.
  - rewrite <- Fx. apply Qmult_le_l; assumption.
  - rewrite <- Fy. apply Qmult_le_l; assumption.
Qed.

(** Where the zoom-out clamp does not cut the window, a zoom-in keeps both
    spans at or above 5% of the spans of the autoscale bounds. *)
Lemma zoom_in_min_span_when_not_cut
      (currentFilteredData : list Rubber) (b : Bounds)
      (xRange0 yRange0 : Range) (scale anchorFx anchorFy : number)
      (w : ZoomedRanges) :
  computeZoomedRanges currentFilteredData xRange0 yRange0
                      scale anchorFx anchorFy = Some w ->
  getAutoscaleBounds currentFilteredData = Some b ->
  scale < 1 ->
  clampKeepsWindow currentFilteredData xRange0 yRange0
                   scale anchorFx anchorFy ->
  MIN_SPAN_FRACTION * spanOf (boundsX b) <= spanOf (xRange w)
  /\ MIN_SPAN_FRACTION * spanOf (boundsY b) <= spanOf (yRange w).
Proof.
  intros Hres Hb Hs Hkeep.
  apply computeZoomedRanges_some in Hres.
  destruct Hres as (Hx & Hy & Hw).
  unfold clampKeepsWindow in Hkeep. rewrite Hb in Hw, Hkeep.
  destruct (clampedScaleOf_lower b _ _ _ Hx Hy Hs) as [Lx Ly].
  set (rw := rescaledWindow currentFilteredData xRange0 yRange0
                            scale anchorFx anchorFy) in *.
  assert (Hrw : MIN_SPAN_FRACTION * spanOf (boundsX b) <= spanOf (xRange rw)
                /\ MIN_SPAN_FRACTION * spanOf (boundsY b)
                   <= spanOf (yRange rw)).
  { unfold rw, rescaledWindow. cbn [xRange yRange].
    rewrite !spanOf_rangeAbout, Hb. fold (spanOf xRange0) (spanOf yRange0).
    split; lra. }
  destruct (ltq 1 _) eqn:Ecl; [|subst w; exact Hrw].
  apply ltq_spec in Ecl.
  destruct Hkeep as [Hle|[Hwx Hwy]]; [lra|].
  apply clampRangeToBounds_within in Hwx, Hwy.
  destruct Hwx as [Hx0 Hx1], Hwy as [Hy0 Hy1].
  destruct Hrw as [Hrx Hry].
  subst w. cbn [xRange yRange]. unfold spanOf in *. split.
  - rewrite Hx0, Hx1. exact Hrx.
  - rewrite Hy0, Hy1. exact Hry.
Qed.

(** C3. A zoom-in is meant to leave each span at 5% of the autoscale span
    or more.  On the window [[0.5,0.6] x [0.5,10.5]] over data spanning
    1..10 the effective scale becomes 5, the window is then cut to the
    bounds as for a zoom-out, and the x-span returned is 0.3, below the
    minimum of 0.5. *)
Theorem zoom_in_span_below_minimum :
  match computeZoomedRanges twoCorners (0.5, 0.6) (0.5, 10.5) 0.5 0.5 0.5,
        getAutoscaleBounds twoCorners with
  | Some w, Some b =>
      clampedScaleOf (Some b) (spanOf (0.5, 0.6)) (spanOf (0.5, 10.5)) 0.5
      == 5
      /\ MIN_SPAN_FRACTION * spanOf (boundsX b) == 0.5
      /\ spanOf (xRange w) == 0.3
      /\ spanOf (xRange w) < MIN_SPAN_FRACTION * spanOf (boundsX b)
  | _, _ => False
  end.
Proof.
  vm_compute. repeat split.
Qed.

(* ------------------------------------------------------------------ *)
(** ** Label declutter *)

Lemma atLeastApart_not_overlaps (dx dy : number) (p q : Pixel) :
  atLeastApart dx dy p q = negb (overlapsWith dx dy p q).
Proof.
  unfold atLeastApart, overlapsWith, leq, ltq.
  destruct (Qle_bool dx _), (Qle_bool dy _); reflexivity.
Qed.

Lemma clear_of_occupied (dx dy : number) (pixelOf : Rubber -> Pixel)
      (p : Pixel) (visible : list Rubber) :
  negb (existsb (overlapsWith dx dy p) (map pixelOf visible))
  = forallb (fun a => atLeastApart dx dy p (pixelOf a)) visible.
Proof.
  induction visible as [|a rest IH]; [reflexivity|].
  simpl. rewrite negb_orb, IH, atLeastApart_not_overlaps. reflexivity.
Qed.

(** The loop of the code, with [occupied] holding the pixels of [visible],
    is the greedy selection with the boundary-inclusive test. *)
Lemma declutterLoop_greedy (dx dy : number) (pixelOf : Rubber -> Pixel)
      (sorted : list Rubber) :
  forall visible : list Rubber,
    declutterLoop dx dy pixelOf sorted visible (map pixelOf visible)
    = greedySelect (atLeastApart dx dy) pixelOf visible sorted.
Proof.
  induction sorted as [|c rest IH]; intros visible; [reflexivity|].
  simpl. rewrite clear_of_occupied.
  destruct (forallb _ visible).
  - rewrite <- IH, map_app. reflexivity.
  - apply IH.
Qed.

Lemma declutter_positive (dx dy : number) (xRange0 yRange0 : Range)
      (plotWidth plotHeight : number) (filteredData : list Rubber) :
  0 < spanOf xRange0 -> 0 < spanOf yRange0 ->
  declutter dx dy xRange0 yRange0 plotWidth plotHeight filteredData
  = greedySelect (atLeastApart dx dy)
      (fun r => toPixel xRange0 yRange0 plotWidth plotHeight
                        (toNumber (x r)) (toNumber (y r)))
      [] (sortByPriority filteredData).
Proof.
  unfold spanOf. intros Hx Hy. unfold declutter.
  assert (Ex : leq (snd xRange0 - fst xRange0) 0 = false) by now order_props.
  assert (Ey : leq (snd yRange0 - fst yRange0) 0 = false) by now order_props.
  rewrite Ex, Ey. simpl orb. cbv iota.
  apply (declutterLoop_greedy dx dy _ (sortByPriority filteredData) []).
Qed.

Lemma greedySelect_In (apart : Pixel -> Pixel -> bool)
      (pixelOf : Rubber -> Pixel) (candidates : list Rubber) :
  forall (accepted : list Rubber) (r : Rubber),
    In r (greedySelect apart pixelOf accepted candidates) ->
    In r accepted \/ In r candidates.
Proof.
  induction candidates as [|c rest IH]; intros accepted r Hin; simpl in *.
  - now left.
  - destruct (forallb _ accepted).
    + apply IH in Hin. rewrite in_app_iff in Hin. simpl in Hin. tauto.
    + apply IH in Hin. tauto.
Qed.

Lemma ForallOrdPairs_snoc {A : Type} (R : A -> A -> Prop)
      (l : list A) (c : A) :
  ForallOrdPairs R l -> Forall (fun a => R a c) l ->
  ForallOrdPairs R (l ++ [c]).
Proof.
  induction 1 as [|a l Ha Hl IH]; intros Hc; simpl.
  - constructor; constructor.
  - apply Forall_cons_iff in Hc. destruct Hc as [Hac Hc].
    constructor.
    + apply Forall_app. split; [exact Ha|]. constructor; [exact Hac|constructor].
    + now apply IH.
Qed.

Lemma ForallOrdPairs_impl {A : Type} (R S : A -> A -> Prop) (l : list A) :
  (forall a b, R a b -> S a b) -> ForallOrdPairs R l -> ForallOrdPairs S l.
Proof.
  intros Himp. induction 1 as [|a l Ha Hl IH]; constructor.
  - eapply Forall_impl; [|exact Ha]. apply Himp.
  - exact IH.
Qed.

(** Greedy selection keeps the accepted rubbers pairwise clear. *)
Lemma greedySelect_pairwiseClear (dx dy : number) (pixelOf : Rubber -> Pixel)
      (candidates : list Rubber) :
  forall accepted : list Rubber,
    pairwiseClear dx dy pixelOf accepted ->
    pairwiseClear dx dy pixelOf
      (greedySelect (atLeastApart dx dy) pixelOf accepted candidates).
Proof.
  unfold pairwiseClear.
  induction candidates as [|c rest IH]; intros accepted Hacc; simpl.
  - exact Hacc.
  - destruct (forallb _ accepted) eqn:E; [|now apply IH].
    apply IH. apply ForallOrdPairs_snoc; [exact Hacc|].
    rewrite forallb_forall in E. apply Forall_forall. intros a Ha.
    specialize (E a Ha). rewrite atLeastApart_not_overlaps in E.
    now apply negb_true_iff in E.
Qed.

(** Larger thresholds only add overlaps. *)
Lemma overlapsWith_monotone (dx1 dy1 dx2 dy2 : number) (p q : Pixel) :
  dx1 <= dx2 -> dy1 <= dy2 ->
  overlapsWith dx1 dy1 p q = true -> overlapsWith dx2 dy2 p q = true.
Proof.
  intros Hdx Hdy. unfold overlapsWith. rewrite !andb_true_iff.
  intros [Hx Hy]. order_props. split; order_props; lra.
Qed.

(** The claim of C4 as the specification words it fails on the boundary:
    two rubbers exactly [MIN_DIST_X] pixels apart are both shown by the
    code, while "farther than the threshold" accepts only the first. *)
Lemma declutter_accepts_at_threshold :
  px (unitPixelOf (rubberAt 2 55 0)) - px (unitPixelOf (rubberAt 1 0 0))
  == MIN_DIST_X
  /\ py (unitPixelOf (rubberAt 2 55 0)) == py (unitPixelOf (rubberAt 1 0 0))
  /\ computeVisibleRubbers (Some unitLayout) noRect twoAtThreshold
     = twoAtThreshold
  /\ greedySelect (fartherThan MIN_DIST_X MIN_DIST_Y) unitPixelOf []
                  (sortByPriority twoAtThreshold)
     = [rubberAt 1 0 0]
  /\ computeVisibleRubbers (Some unitLayout) noRect twoAtThreshold
     <> greedySelect (fartherThan MIN_DIST_X MIN_DIST_Y) unitPixelOf []
                     (sortByPriority twoAtThreshold).
Proof.
  repeat split; try reflexivity. vm_compute. discriminate.
Qed.

(** C4 (amended). For a window with positive spans the rubbers shown are
    those picked by the greedy selection over the candidates sorted
    ascending by priority, ties in their original order, where a candidate
    is accepted iff it is at least [MIN_DIST_X] pixels away in x or at least
    [MIN_DIST_Y] pixels away in y from every rubber accepted so far; every
    rubber shown is one of the candidates; and of three rubbers of
    priorities 1, 2, 3 at pixels (0,0), (10,0), (60,0) exactly the first and
    the third are shown. *)
Theorem declutter_greedy_selection
        (chart : FullLayout) (rect : Rect) (filteredData : list Rubber)
        (Hx : 0 < spanOf (xaRange chart))
        (Hy : 0 < spanOf (yaRange chart)) :
  let pixelOf := fun r =>
    toPixel (xaRange chart) (yaRange chart) (sizeW chart) (sizeH chart)
            (toNumber (x r)) (toNumber (y r)) in
  let sorted := sortByPriority filteredData in
  Permutation sorted filteredData
  /\ ascending sorted
  /\ tiesKeepOrder filteredData sorted
  /\ computeVisibleRubbers (Some chart) rect filteredData
     = greedySelect (atLeastApart MIN_DIST_X MIN_DIST_Y) pixelOf [] sorted
  /\ (forall r, In r (computeVisibleRubbers (Some chart) rect filteredData) ->
                In r filteredData)
  /\ (px (unitPixelOf (rubberAt 1 0 0)) == 0
      /\ px (unitPixelOf (rubberAt 2 10 0)) == 10
      /\ px (unitPixelOf (rubberAt 3 60 0)) == 60
      /\ Forall (fun r => py (unitPixelOf r) == 0) threeInRow
      /\ computeVisibleRubbers (Some unitLayout) noRect threeInRow
         = [rubberAt 1 0 0; rubberAt 3 60 0]
      /\ ~ In (rubberAt 2 10 0)
              (computeVisibleRubbers (Some unitLayout) noRect threeInRow)).
Proof.
  intros pixelOf sorted.
  assert (Heq : computeVisibleRubbers (Some chart) rect filteredData
                = greedySelect (atLeastApart MIN_DIST_X MIN_DIST_Y)
                               pixelOf [] sorted).
  { unfold computeVisibleRubbers. destruct filteredData as [|r rest].
    - reflexivity.
    - now apply declutter_positive. }
  split; [apply sortByPriority_perm|].
  split; [apply sortByPriority_ascending|].
  split; [apply sortByPriority_ties|].
  split; [exact Heq|].
  split.
  { intros r Hin. rewrite Heq in Hin. apply greedySelect_In in Hin.
    destruct Hin as [[]|Hin].
    eapply Permutation_in; [apply sortByPriority_perm|exact Hin]. }
  split; [reflexivity|]. split; [reflexivity|]. split; [reflexivity|].
  split; [repeat constructor|].
  split; [reflexivity|].
  vm_compute. intros [H|[H|[]]]; discriminate.
Qed.

Lemma mathMin_le_mathMax (v : number) (vs : list number) :
  mathMin v vs <= mathMax v vs.
Proof.
  unfold mathMin, mathMax.
  assert (Hmin : forall l u, fold_left Qmin l u <= u).
  { induction l as [|a l IH]; intros u; simpl; [apply Qle_refl|].
    eapply Qle_trans; [apply IH|apply Q.le_min_l]. }
  assert (Hmax : forall l u, u <= fold_left Qmax l u).
  { induction l as [|a l IH]; intros u; simpl; [apply Qle_refl|].
    eapply Qle_trans; [apply Q.le_max_l|apply IH]. }
  eapply Qle_trans; [apply Hmin|apply Hmax].
Qed.

(** On the first render, without a layout, the window is the bounding box of
    the data widened by 2 on every side; its spans are positive, so the
    same greedy selection applies, in the pixels of that window. *)
Lemma computeVisibleRubbers_first_render
      (rect : Rect) (r : Rubber) (rest : list Rubber) :
  let xs := map (fun q => toNumber (x q)) rest in
  let ys := map (fun q => toNumber (y q)) rest in
  let xRange0 := (mathMin (toNumber (x r)) xs - 2,
                  mathMax (toNumber (x r)) xs + 2) in
  let yRange0 := (mathMin (toNumber (y r)) ys - 2,
                  mathMax (toNumber (y r)) ys + 2) in
  computeVisibleRubbers None rect (r :: rest)
  = greedySelect (atLeastApart MIN_DIST_X MIN_DIST_Y)
      (fun q => toPixel xRange0 yRange0
                        (rectWidth rect * 0.82) (rectHeight rect * 0.82)
                        (toNumber (x q)) (toNumber (y q)))
      [] (sortByPriority (r :: rest)).
Proof.
  intros xs ys xRange0 yRange0. unfold computeVisibleRubbers.
  apply declutter_positive; unfold spanOf, xRange0, yRange0, xs, ys;
    cbn [fst snd].
  - pose proof (mathMin_le_mathMax (toNumber (x r))
                                   (map (fun q => toNumber (x q)) rest)).
    lra.
  - pose proof (mathMin_le_mathMax (toNumber (y r))
                                   (map (fun q => toNumber (y q)) rest)).
    lra.
Qed.

Lemma declutter_greedy_selection_witness :
  computeVisibleRubbers (Some unitLayout) noRect threeInRow
  = greedySelect (atLeastApart MIN_DIST_X MIN_DIST_Y) unitPixelOf []
                 (sortByPriority threeInRow).
Proof.
  refine (proj1 (proj2 (proj2 (proj2
            (declutter_greedy_selection unitLayout noRect threeInRow _ _))))).
  - vm_compute. reflexivity.
  - vm_compute. reflexivity.
Defined.

(** The claim of C5 as the specification words it fails: with thresholds
    (8, 8) two of the four rubbers of [crowdedFour] are shown, with the
    larger thresholds (12, 12) three are. *)
Lemma declutter_count_not_monotone :
  map priority (declutter 8 8 (0, 128) (0, 128) 128 128 crowdedFour)
  = [1; 2]%Z
  /\ map priority (declutter 12 12 (0, 128) (0, 128) 128 128 crowdedFour)
     = [1; 3; 4]%Z
  /\ Nat.lt
       (List.length (declutter 8 8 (0, 128) (0, 128) 128 128 crowdedFour))
       (List.length (declutter 12 12 (0, 128) (0, 128) 128 128 crowdedFour)).
Proof.
  repeat split. vm_compute. lia.
Qed.

(** C5 (amended). Raising the thresholds only adds overlaps: a pair that
    overlaps under the smaller thresholds overlaps under the larger ones, so
    a position clear of a list of occupied positions under the larger
    thresholds is clear of it under the smaller ones, and the rubbers shown
    under the larger thresholds are pairwise clear under the smaller ones.
    (The number shown is not monotone.) *)
Theorem declutter_threshold_monotone
        (dx1 dy1 dx2 dy2 : number)
        (Hdx : dx1 <= dx2) (Hdy : dy1 <= dy2) :
  (forall p q : Pixel,
     overlapsWith dx1 dy1 p q = true -> overlapsWith dx2 dy2 p q = true)
  /\ (forall (p : Pixel) (occupied : list Pixel),
        existsb (overlapsWith dx2 dy2 p) occupied = false ->
        existsb (overlapsWith dx1 dy1 p) occupied = false)
  /\ (forall (xRange0 yRange0 : Range) (plotWidth plotHeight : number)
             (filteredData : list Rubber),
        0 < spanOf xRange0 -> 0 < spanOf yRange0 ->
        pairwiseClear dx1 dy1
          (fun r => toPixel xRange0 yRange0 plotWidth plotHeight
                            (toNumber (x r)) (toNumber (y r)))
          (declutter dx2 dy2 xRange0 yRange0 plotWidth plotHeight
                     filteredData)).
Proof.
  assert (Hmono : forall p q : Pixel,
            overlapsWith dx1 dy1 p q = true ->
            overlapsWith dx2 dy2 p q = true)
    by (intros p q; now apply overlapsWith_monotone).
  split; [exact Hmono|]. split.
  - intros p occupied Hclear.
    induction occupied as [|q rest IH]; [reflexivity|].
    simpl in *. apply orb_false_iff in Hclear. destruct Hclear as [Hq Hrest].
    rewrite (IH Hrest), orb_false_r.
    destruct (overlapsWith dx1 dy1 p q) eqn:E; [|reflexivity].
    apply Hmono in E. congruence.
  - intros xRange0 yRange0 plotWidth plotHeight filteredData Hx Hy.
    rewrite (declutter_positive dx2 dy2 _ _ _ _ _ Hx Hy).
    eapply ForallOrdPairs_impl;
      [|apply greedySelect_pairwiseClear; constructor].
    intros a b Hab. cbv beta in Hab |- *.
    destruct (overlapsWith dx1 dy1 _ _) eqn:E; [|reflexivity].
    apply Hmono in E. congruence.
Qed.

Lemma declutter_threshold_monotone_witness :
  pairwiseClear 8 8 unitPixelOf
                (declutter 12 12 (0, 128) (0, 128) 128 128 crowdedFour).
Proof.
  refine (proj2 (proj2 (declutter_threshold_monotone 8 8 12 12 _ _))
                (0, 128) (0, 128) 128 128 crowdedFour _ _).
  - lra.
  - lra.
  - vm_compute. reflexivity.
  - vm_compute. reflexivity.
Defined.

(* ================================================================== *)
(** * Further properties of the scale converter *)

(** The fraction along a segment, multiplied back by the segment length. *)
Lemma fraction_times_length (v lo hi : number) :
  lo < hi -> ((v - lo) / (hi - lo)) * (hi - lo) == v - lo.
Proof. intros H. field. lra. Qed.









(* ================================================================== *)
(** * Further properties of control levels, marker sizes and radar scores *)

Lemma Qfloor_inject_div (n d : Z) :
  (0 < d)%Z -> Qfloor (inject_Z n / inject_Z d) = (n / d)%Z.
Proof.
  intros Hd. destruct d as [|p|p]; try lia.
  unfold Qdiv, Qinv, Qmult, inject_Z, Qfloor. simpl.
  now rewrite Z.mul_1_r.
Qed.

(** A quotient of integers compared with [k / 10], without division. *)
Lemma ratio_lt_tenths (n d k : Z) :
  (0 < d)%Z ->
  (inject_Z n / inject_Z d < k # 10 <-> (10 * n < k * d)%Z).
Proof.
  intros Hd. destruct d as [|p|p]; try lia.
  unfold Qdiv, Qinv, Qmult, inject_Z, Qlt. cbn -[Z.mul]. lia.
Qed.

(** The clamped zero-based rank used by both bucketings. *)
Lemma zeroBasedRank_range (total delta : Z) :
  (0 < total)%Z ->
  (0 <= Z.max 0 (Z.min (total - 1) delta) < total)%Z.
Proof. lia. Qed.

Lemma control_buckets_of
      (st : ControlFilterState) (lo hi rank : Z) :
  rankMin st = Some lo -> rankMax st = Some hi -> (lo <= hi)%Z ->
  let total := (hi - lo + 1)%Z in
  let zb := Z.max 0 (Z.min (total - 1) (rank - lo)) in
  getControlLevelFromRank st (Some rank) = Some ((5 * zb) / total + 1)%Z
  /\ getControlTierFromRank st (Some rank)
     = Some (if (10 * zb <? 4 * total)%Z then Easy
             else if (10 * zb <? 8 * total)%Z then Med else Hard).
Proof.
  intros Hlo Hhi Hle total zb.
  assert (Ht : (0 < total)%Z) by (unfold total; lia).
  pose proof (zeroBasedRank_range total (rank - lo) Ht) as Hzb. fold zb in Hzb.
  unfold getControlLevelFromRank, getControlTierFromRank.
  rewrite Hlo, Hhi. fold total.
  destruct (total <=? 0)%Z eqn:E; [apply Z.leb_le in E; lia|].
  fold zb. split.
  - rewrite Qfloor_inject_div by exact Ht. unfold CONTROL_LEVEL_COUNT.
    f_equal.
    assert ((zb * 5) / total <= 4)%Z.
    { apply Z.lt_succ_r. apply Z.div_lt_upper_bound; lia. }
    replace (zb * 5)%Z with (5 * zb)%Z in * by lia. lia.
  - destruct (10 * zb <? 4 * total)%Z eqn:E4.
    + apply Z.ltb_lt in E4.
      assert (H4 : ltq (inject_Z zb / inject_Z total) 0.4 = true)
        by (apply ltq_spec, (ratio_lt_tenths zb total 4 Ht); exact E4).
      now rewrite H4.
    + apply Z.ltb_ge in E4.
      assert (H4 : ltq (inject_Z zb / inject_Z total) 0.4 = false).
      { apply ltq_false. apply Qnot_lt_le. intros Hc.
        apply (ratio_lt_tenths zb total 4 Ht) in Hc. lia. }
      rewrite H4.
      destruct (10 * zb <? 8 * total)%Z eqn:E8.
      * apply Z.ltb_lt in E8.
        assert (H8 : ltq (inject_Z zb / inject_Z total) 0.8 = true)
          by (apply ltq_spec, (ratio_lt_tenths zb total 8 Ht); exact E8).
        now rewrite H8.
      * apply Z.ltb_ge in E8.
        assert (H8 : ltq (inject_Z zb / inject_Z total) 0.8 = false).
        { apply ltq_false. apply Qnot_lt_le. intros Hc.
          apply (ratio_lt_tenths zb total 8 Ht) in Hc. lia. }
        now rewrite H8.
Qed.

(** X3. With rank bounds in place, the 5-level indicator and the 3-tier
    filter never disagree: every rank gets a level from 1 to 5 and a tier,
    and the tier is Easy exactly for levels 1-2, Med for levels 3-4 and Hard
    for level 5. *)
Theorem control_level_matches_tier
        (st : ControlFilterState) (lo hi rank : Z)
        (Hlo : rankMin st = Some lo) (Hhi : rankMax st = Some hi)
        (Hle : (lo <= hi)%Z) :
  exists level tier,
    getControlLevelFromRank st (Some rank) = Some level
    /\ getControlTierFromRank st (Some rank) = Some tier
    /\ (1 <= level <= 5)%Z
    /\ (tier = Easy <-> (level <= 2)%Z)
    /\ (tier = Med <-> (3 <= level <= 4)%Z)
    /\ (tier = Hard <-> level = 5%Z).
Proof.
  destruct (control_buckets_of st lo hi rank Hlo Hhi Hle) as [HL HT].
  set (total := (hi - lo + 1)%Z) in *.
  set (zb := Z.max 0 (Z.min (total - 1) (rank - lo))) in *.
  assert (Ht : (0 < total)%Z) by (unfold total; lia).
  pose proof (zeroBasedRank_range total (rank - lo) Ht) as Hzb. fold zb in Hzb.
  eexists. eexists. split; [exact HL|]. split; [exact HT|].
  assert (Hq0 : (0 <= (5 * zb) / total)%Z) by (apply Z.div_pos; lia).
  assert (Hq4 : ((5 * zb) / total < 5)%Z)
    by (apply Z.div_lt_upper_bound; lia).
  assert (Hlt : forall k, (0 <= k)%Z ->
            ((5 * zb) / total < k <-> 5 * zb < k * total)%Z).
  { intros k Hk. split; intros H.
    - destruct (Z_lt_le_dec (5 * zb) (k * total)) as [Hc|Hc]; [exact Hc|].
      exfalso. assert (k <= (5 * zb) / total)%Z
        by (apply Z.div_le_lower_bound; lia). lia.
    - apply Z.div_lt_upper_bound; lia. }
  pose proof (Hlt 2%Z ltac:(lia)) as H2.
  pose proof (Hlt 4%Z ltac:(lia)) as H4.
  split; [lia|].
  destruct (10 * zb <? 4 * total)%Z eqn:E4;
    [apply Z.ltb_lt in E4|apply Z.ltb_ge in E4].
  - repeat split; intros; try discriminate; lia.
  - destruct (10 * zb <? 8 * total)%Z eqn:E8;
      [apply Z.ltb_lt in E8|apply Z.ltb_ge in E8].
    + repeat split; intros; try discriminate; try reflexivity; lia.
    + repeat split; intros; try discriminate; try reflexivity; lia.
Qed.

Lemma control_level_matches_tier_witness :
  exists level tier,
    getControlLevelFromRank
      (initControlToggleFilter sampleData initialControlFilterState)
      (Some 5%Z) = Some level
    /\ getControlTierFromRank
         (initControlToggleFilter sampleData initialControlFilterState)
         (Some 5%Z) = Some tier
    /\ (1 <= level <= 5)%Z
    /\ (tier = Easy <-> (level <= 2)%Z)
    /\ (tier = Med <-> (3 <= level <= 4)%Z)
    /\ (tier = Hard <-> level = 5%Z).
Proof.
  apply (control_level_matches_tier
           (initControlToggleFilter sampleData initialControlFilterState)
           4%Z 5%Z 5%Z).
  - reflexivity.
  - reflexivity.
  - lia.
Defined.

(** X4. Both bucketings are monotone in the rank, ranks outside the bounds
    included: a worse rank never gets a better level or tier. *)
Theorem control_buckets_monotone
        (st : ControlFilterState) (lo hi rank rank' : Z)
        (Hlo : rankMin st = Some lo) (Hhi : rankMax st = Some hi)
        (Hle : (lo <= hi)%Z) (Hrank : (rank <= rank')%Z) :
  exists level level' tier tier',
    getControlLevelFromRank st (Some rank) = Some level
    /\ getControlLevelFromRank st (Some rank') = Some level'
    /\ getControlTierFromRank st (Some rank) = Some tier
    /\ getControlTierFromRank st (Some rank') = Some tier'
    /\ (level <= level')%Z
    /\ (tierIndex tier <= tierIndex tier')%Z.
Proof.
  destruct (control_buckets_of st lo hi rank Hlo Hhi Hle) as [HL HT].
  destruct (control_buckets_of st lo hi rank' Hlo Hhi Hle) as [HL' HT'].
  set (total := (hi - lo + 1)%Z) in *.
  set (zb := Z.max 0 (Z.min (total - 1) (rank - lo))) in *.
  set (zb' := Z.max 0 (Z.min (total - 1) (rank' - lo))) in *.
  assert (Ht : (0 < total)%Z) by (unfold total; lia).
  assert (Hzb : (zb <= zb')%Z) by (unfold zb, zb'; lia).
  do 4 eexists.
  split; [exact HL|]. split; [exact HL'|].
  split; [exact HT|]. split; [exact HT'|]. split.
  - assert ((5 * zb) / total <= (5 * zb') / total)%Z
      by (apply Z.div_le_mono; lia). lia.
  - destruct (10 * zb <? 4 * total)%Z eqn:A4,
             (10 * zb' <? 4 * total)%Z eqn:B4,
             (10 * zb <? 8 * total)%Z eqn:A8,
             (10 * zb' <? 8 * total)%Z eqn:B8;
      simpl; try lia;
      repeat match goal with
      | H : (_ <? _)%Z = true |- _ => apply Z.ltb_lt in H
      | H : (_ <? _)%Z = false |- _ => apply Z.ltb_ge in H
      end; lia.
Qed.

Lemma control_buckets_monotone_witness :
  exists level level' tier tier',
    getControlLevelFromRank
      (initControlToggleFilter sampleData initialControlFilterState)
      (Some 1%Z) = Some level
    /\ getControlLevelFromRank
         (initControlToggleFilter sampleData initialControlFilterState)
         (Some 9%Z) = Some level'
    /\ getControlTierFromRank
         (initControlToggleFilter sampleData initialControlFilterState)
         (Some 1%Z) = Some tier
    /\ getControlTierFromRank
         (initControlToggleFilter sampleData initialControlFilterState)
         (Some 9%Z) = Some tier'
    /\ (level <= level')%Z
    /\ (tierIndex tier <= tierIndex tier')%Z.
Proof.
  apply (control_buckets_monotone
           (initControlToggleFilter sampleData initialControlFilterState)
           4%Z 5%Z 1%Z 9%Z).
  - reflexivity.
  - reflexivity.
  - lia.
  - lia.
Defined.

Lemma MARKER_SIZES_nth (i : nat) :
  (i <= 6)%nat -> nth i MARKER_SIZES 0%Z = (20 - 2 * Z.of_nat i)%Z.
Proof.
  intros Hi. do 7 (destruct i as [|i]; [reflexivity|]). lia.
Qed.

Lemma markerSizeLoop_range (rank seventh : number) (fuel : nat) :
  forall i : nat,
    (i + fuel = 7)%nat ->
    (8 <= markerSizeLoop fuel i rank seventh
     <= Z.max 8 (20 - 2 * Z.of_nat i))%Z.
Proof.
  induction fuel as [|fuel IH]; intros i Hi; cbn [markerSizeLoop].
  - rewrite MARKER_SIZES_nth by lia. lia.
  - destruct (leq rank _).
    + rewrite MARKER_SIZES_nth by lia. lia.
    + specialize (IH (S i) ltac:(lia)). lia.
Qed.

Lemma markerSizeLoop_monotone (rank rank' seventh : number) (fuel : nat) :
  rank <= rank' ->
  forall i : nat,
    (i + fuel = 7)%nat ->
    (markerSizeLoop fuel i rank' seventh
     <= markerSizeLoop fuel i rank seventh)%Z.
Proof.
  intros Hr. induction fuel as [|fuel IH]; intros i Hi;
    cbn [markerSizeLoop].
  - lia.
  - destruct (leq rank _) eqn:E, (leq rank' _) eqn:E'.
    + lia.
    + rewrite MARKER_SIZES_nth by lia.
      pose proof (markerSizeLoop_range rank' seventh fuel (S i) ltac:(lia)).
      lia.
    + order_props. lra.
    + apply IH. lia.
Qed.

(** X5. Marker sizes stay between 8 and 20, and for two rubbers ranked in
    the same control table the worse-ranked one never gets the larger
    marker. *)
Theorem marker_size_monotone
        (r r' : Rubber) (k k' : Z)
        (Hk : controlRank r = Some k) (Hk' : controlRank r' = Some k')
        (Htotal : controlTotal r = controlTotal r')
        (Hrank : (k <= k')%Z) :
  (8 <= getMarkerSize r' <= getMarkerSize r)%Z
  /\ (getMarkerSize r <= 20)%Z.
Proof.
  unfold getMarkerSize. rewrite Hk, Hk', Htotal.
  set (seventh := inject_Z (controlTotal r') / 7).
  pose proof (markerSizeLoop_range (inject_Z k') seventh 7 0 eq_refl).
  pose proof (markerSizeLoop_range (inject_Z k) seventh 7 0 eq_refl).
  pose proof (markerSizeLoop_monotone (inject_Z k) (inject_Z k') seventh 7
                ltac:(now rewrite <- Zle_Qle) 0%nat eq_refl).
  lia.
Qed.

Lemma marker_size_monotone_witness :
  (8 <= getMarkerSize sampleA <= getMarkerSize sampleB)%Z
  /\ (getMarkerSize sampleB <= 20)%Z.
Proof.
  apply (marker_size_monotone sampleB sampleA 4%Z 5%Z).
  - reflexivity.
  - reflexivity.
  - reflexivity.
  - lia.
Defined.

(* ------------------------------------------------------------------ *)
(** ** Radar scores *)

Lemma mathMin_lower (v : number) (vs : list number) (u : number) :
  In u (v :: vs) -> mathMin v vs <= u.
Proof.
  unfold mathMin.
  assert (Hhead : forall l w, fold_left Qmin l w <= w).
  { induction l as [|a l IH]; intros w; simpl; [apply Qle_refl|].
    eapply Qle_trans; [apply IH|apply Q.le_min_l]. }
  revert v. induction vs as [|a rest IH]; intros v Hin.
  - destruct Hin as [<-|[]]. apply Qle_refl.
  - simpl fold_left. destruct Hin as [<-|[<-|Hin]].
    + eapply Qle_trans; [apply Hhead|apply Q.le_min_l].
    + eapply Qle_trans; [apply Hhead|apply Q.le_min_r].
    + apply IH. now right.
Qed.

Lemma mathMax_upper (v : number) (vs : list number) (u : number) :
  In u (v :: vs) -> u <= mathMax v vs.
Proof.
  unfold mathMax.
  assert (Hhead : forall l w, w <= fold_left Qmax l w).
  { induction l as [|a l IH]; intros w; simpl; [apply Qle_refl|].
    eapply Qle_trans; [apply Q.le_max_l|apply IH]. }
  revert v. induction vs as [|a rest IH]; intros v Hin.
  - destruct Hin as [<-|[]]. apply Qle_refl.
  - simpl fold_left. destruct Hin as [<-|[<-|Hin]].
    + eapply Qle_trans; [apply Q.le_max_l|apply Hhead].
    + eapply Qle_trans; [apply Q.le_max_r|apply Hhead].
    + apply IH. now right.
Qed.

Lemma finiteValues_In (vals : list (option number)) (q : number) :
  In q (finiteValues vals) <-> In (Some q) vals.
Proof.
  induction vals as [|[v|] rest IH]; simpl.
  - tauto.
  - rewrite IH. split; intros [H|H]; auto; left; congruence.
  - rewrite IH. split; [auto|intros [H|H]; [discriminate|exact H]].
Qed.

Lemma finiteRankValues_In (ranks : list (option Z)) (k : Z) :
  In k (finiteRankValues ranks) <-> In (Some k) ranks.
Proof.
  induction ranks as [|[v|] rest IH]; simpl.
  - tauto.
  - rewrite IH. split; intros [H|H]; auto; left; congruence.
  - rewrite IH. split; [auto|intros [H|H]; [discriminate|exact H]].
Qed.

(** [minMaxOf] brackets every value it was computed from. *)
Lemma minMaxOf_bounds (vals : list number) (lo hi q : number) :
  minMaxOf vals = Some (lo, hi) -> In q vals -> lo <= q /\ q <= hi.
Proof.
  destruct vals as [|v vs]; [discriminate|].
  intros [= <- <-] Hin. split.
  - now apply mathMin_lower.
  - now apply mathMax_upper.
Qed.

Lemma normalizeRankToScore_range (k t : Z) :
  (1 <= k <= t)%Z ->
  0 < normalizeRankToScore (Some k) (Some t)
  /\ normalizeRankToScore (Some k) (Some t) <= 100.
Proof.
  intros H. unfold normalizeRankToScore.
  destruct (t <=? 0)%Z eqn:E; [apply Z.leb_le in E; lia|].
  assert (Ht : 0 < inject_Z t).
  { replace 0 with (inject_Z 0) by reflexivity. rewrite <- Zlt_Qlt. lia. }
  assert (Hn : 0 < inject_Z (t - k + 1)).
  { replace 0 with (inject_Z 0) by reflexivity. rewrite <- Zlt_Qlt. lia. }
  assert (Hnt : inject_Z (t - k + 1) <= inject_Z t)
    by (rewrite <- Zle_Qle; lia).
  assert (H0 : 0 < inject_Z (t - k + 1) / inject_Z t)
    by (apply Qlt_shift_div_l; [exact Ht|lra]).
  assert (H1 : inject_Z (t - k + 1) / inject_Z t <= 1)
    by (apply Qle_shift_div_r; [exact Ht|lra]).
  split; lra.
Qed.

Lemma normalizeValueToScore_range (v lo hi : number) :
  lo <= v -> v <= hi ->
  0 <= normalizeValueToScore (Some v) (Some lo) (Some hi)
  /\ normalizeValueToScore (Some v) (Some lo) (Some hi) <= 100.
Proof.
  intros Hlo Hhi. unfold normalizeValueToScore.
  destruct (leq hi lo) eqn:E; [split; lra|].
  order_props.
  assert (H0 : 0 <= (v - lo) / (hi - lo))
    by (apply Qle_shift_div_l; lra).
  assert (H1 : (v - lo) / (hi - lo) <= 1)
    by (apply Qle_shift_div_r; lra).
  split; lra.
Qed.

(** The total used for a rank axis of the radar is the greatest rank among
    the rubbers, so no rubber's rank exceeds it. *)
Lemma radarTotal_bounds (rubberData : list Rubber)
      (rankOf : Rubber -> option Z) (r : Rubber) (k : Z) :
  In r rubberData -> rankOf r = Some k ->
  exists t, radarTotal rubberData rankOf = Some t /\ (k <= t)%Z.
Proof.
  intros Hin Hk. unfold radarTotal.
  destruct rubberData as [|r0 rest] eqn:E; [destruct Hin|].
  rewrite <- E in *.
  assert (Hk' : In k (finiteRankValues (map rankOf rubberData))).
  { apply finiteRankValues_In. rewrite <- Hk. now apply in_map. }
  destruct (finiteRankValues (map rankOf rubberData)) as [|k0 ks];
    [destruct Hk'|].
  destruct (fold_max_bounds ks k0) as (U1 & U2 & _).
  eexists. split; [reflexivity|].
  destruct Hk' as [<-|Hk']; [exact U1|now apply U2].
Qed.

(** Control rank, control total and priority of a rubber that went through
    the second loop of [loadRubberData]. *)
Lemma rankedData_control
      (rawItems : list RawItem) (rankings : Rankings)
      (priorityRanking bestsellerRanking : list RankEntry) (r : Rubber) :
  In r (rankedData rawItems rankings priorityRanking bestsellerRanking) ->
  controlTotal r = Z.of_nat (List.length (control rankings))
  /\ (forall k, controlRank r = Some k -> (1 <= k <= controlTotal r)%Z)
  /\ (1 <= priority r)%Z.
Proof.
  intros Hin.
  pose proof (rankedData_priority _ _ _ _ _ Hin) as [_ Hprio].
  unfold rankedData in Hin.
  apply in_map_iff in Hin. destruct Hin as [r0 [<- Hin0]].
  split; [reflexivity|]. split.
  - intros k Hk. simpl in Hk. apply whenFound_some in Hk.
    pose proof (findRubberRank_range r0 (control rankings)).
    simpl. lia.
  - rewrite Hprio. rewrite !findRubberRank_applyRankings.
    pose proof (findRubberRank_range r0 bestsellerRanking).
    pose proof (findRubberRank_range r0 priorityRanking).
    destruct (0 <=? findRubberRank r0 bestsellerRanking)%Z eqn:Eb;
      [apply Z.leb_le in Eb; lia|].
    destruct (0 <=? findRubberRank r0 priorityRanking)%Z eqn:Ep;
      [apply Z.leb_le in Ep; lia|lia].
Qed.

Lemma initWeightRangeFilter_bounds (rubberData : list Rubber)
      (st0 : RangeFilterState) (r : Rubber) (w : number) :
  In r rubberData -> weight r = Some w ->
  exists lo hi,
    dataMin (initWeightRangeFilter rubberData st0) = Some lo
    /\ dataMax (initWeightRangeFilter rubberData st0) = Some hi
    /\ selectedMin (initWeightRangeFilter rubberData st0) = Some lo
    /\ selectedMax (initWeightRangeFilter rubberData st0) = Some hi
    /\ lo <= w /\ w <= hi.
Proof.
  intros Hin Hw. unfold initWeightRangeFilter, getWeightBoundsFromData.
  assert (Hmem : In w (finiteValues (map weight rubberData))).
  { apply finiteValues_In. rewrite <- Hw. now apply in_map. }
  destruct (minMaxOf (finiteValues (map weight rubberData)))
    as [[lo hi]|] eqn:E.
  - exists lo, hi. simpl.
    pose proof (minMaxOf_bounds _ lo hi w E Hmem). tauto.
  - destruct (finiteValues (map weight rubberData)); [destruct Hmem|].
    discriminate.
Qed.

Lemma initHardnessRangeFilter_bounds (rubberData : list Rubber)
      (st0 : RangeFilterState) (r : Rubber) (h : number) :
  In r rubberData -> normalizedHardness r = Some h ->
  exists lo hi,
    dataMin (initHardnessRangeFilter rubberData st0) = Some lo
    /\ dataMax (initHardnessRangeFilter rubberData st0) = Some hi
    /\ selectedMin (initHardnessRangeFilter rubberData st0) = Some lo
    /\ selectedMax (initHardnessRangeFilter rubberData st0) = Some hi
    /\ lo <= h /\ h <= hi.
Proof.
  intros Hin Hh. unfold initHardnessRangeFilter, getHardnessBoundsFromData.
  assert (Hmem : In h (finiteValues (map normalizedHardness rubberData))).
  { apply finiteValues_In. rewrite <- Hh. now apply in_map. }
  destruct (minMaxOf (finiteValues (map normalizedHardness rubberData)))
    as [[lo hi]|] eqn:E.
  - exists lo, hi. simpl.
    pose proof (minMaxOf_bounds _ lo hi h E Hmem). tauto.
  - destruct (finiteValues (map normalizedHardness rubberData));
      [destruct Hmem|].
    discriminate.
Qed.

Lemma normalizeValueToScore_null (lo hi : option number) :
  normalizeValueToScore None lo hi = 50.
Proof. reflexivity. Qed.

(** X6. For every loaded rubber, with the weight and hardness filters
    initialized from the loaded data, all five radar scores lie between 0
    and 100; the spin and speed scores are positive. *)
Theorem radar_scores_in_range
        (rawItems : list RawItem) (rankings : Rankings)
        (priorityRanking bestsellerRanking : list RankEntry) (r : Rubber)
        (Hin : In r (loadRubberData rawItems rankings
                                    priorityRanking bestsellerRanking)) :
  let rubberData :=
    loadRubberData rawItems rankings priorityRanking bestsellerRanking in
  let d := getRadarData rubberData
             (initWeightRangeFilter rubberData initialRangeFilterState)
             (initHardnessRangeFilter rubberData initialRangeFilterState)
             r in
  (0 < radarSpeed d /\ radarSpeed d <= 100)
  /\ (0 < radarSpin d /\ radarSpin d <= 100)
  /\ (0 <= radarControl d /\ radarControl d <= 100)
  /\ (0 <= radarWeight d /\ radarWeight d <= 100)
  /\ (0 <= radarHardness d /\ radarHardness d <= 100).
Proof.
  intros rubberData d.
  pose proof (loadRubberData_fields _ _ _ _ _ Hin)
    as (Hi & Hj & Hsr & Hvr & _ & _).
  pose proof (proj1 (loadRubberData_In _ _ _ _ _) Hin) as [Hranked _].
  pose proof (rankedData_control _ _ _ _ _ Hranked) as (Hct & Hck & _).
  fold rubberData in Hin.
  destruct (radarTotal_bounds rubberData spinRank r _ Hin Hsr)
    as (ts & Hts & Hsle).
  destruct (radarTotal_bounds rubberData speedRank r _ Hin Hvr)
    as (tv & Htv & Hvle).
  unfold d, getRadarData. cbn [radarSpeed radarSpin radarControl
                               radarWeight radarHardness].
  rewrite Hts, Htv, Hsr, Hvr.
  split; [apply normalizeRankToScore_range; lia|].
  split; [apply normalizeRankToScore_range; lia|].
  split.
  { destruct (controlRank r) as [k|] eqn:Ek.
    - specialize (Hck k eq_refl).
      destruct (controlTotal r =? 0)%Z eqn:E0;
        [apply Z.eqb_eq in E0; lia|].
      destruct (normalizeRankToScore_range k (controlTotal r) Hck).
      split; lra.
    - unfold normalizeRankToScore. split; lra. }
  split.
  { destruct (weight r) as [w|] eqn:Ew.
    - destruct (initWeightRangeFilter_bounds rubberData
                  initialRangeFilterState r w Hin Ew)
        as (lo & hi & -> & -> & _ & _ & Hlo & Hhi).
      now apply normalizeValueToScore_range.
    - rewrite normalizeValueToScore_null. split; lra. }
  destruct (normalizedHardness r) as [h|] eqn:Eh.
  - destruct (initHardnessRangeFilter_bounds rubberData
                initialRangeFilterState r h Hin Eh)
      as (lo & hi & -> & -> & _ & _ & Hlo & Hhi).
    now apply normalizeValueToScore_range.
  - rewrite normalizeValueToScore_null. split; lra.
Qed.

Lemma radar_scores_in_range_witness :
  0 < radarSpin (getRadarData sampleData
                   (initWeightRangeFilter sampleData initialRangeFilterState)
                   (initHardnessRangeFilter sampleData
                                            initialRangeFilterState)
                   sampleB)
  /\ radarSpin (getRadarData sampleData
                  (initWeightRangeFilter sampleData initialRangeFilterState)
                  (initHardnessRangeFilter sampleData
                                           initialRangeFilterState)
                  sampleB) <= 100.
Proof.
  refine (proj1 (proj2 (radar_scores_in_range
                          sampleRaw sampleRankings samplePriority
                          sampleBestseller sampleB _))).
  right; left; reflexivity.
Defined.

(* ================================================================== *)
(** * Further properties of the range filters *)

(** Names every [Qmax] and [Qmin] of the goal and of the context, keeping
    only its defining case split, and then splits the cases. *)
Ltac minmax :=
  repeat match goal with
  | |- context [Qmax ?a ?b] =>
      let m := fresh "m" in
      pose proof (Q.max_spec a b); set (m := Qmax a b) in *; clearbody m
  | |- context [Qmin ?a ?b] =>
      let m := fresh "m" in
      pose proof (Q.min_spec a b); set (m := Qmin a b) in *; clearbody m
  | H : context [Qmax ?a ?b] |- _ =>
      let m := fresh "m" in
      pose proof (Q.max_spec a b); set (m := Qmax a b) in *; clearbody m
  | H : context [Qmin ?a ?b] |- _ =>
      let m := fresh "m" in
      pose proof (Q.min_spec a b); set (m := Qmin a b) in *; clearbody m
  end;
  repeat match goal with
  | H : (_ /\ _) \/ (_ /\ _) |- _ => destruct H as [[? ?]|[? ?]]
  end.

(** X7. Whatever is passed to [setWeightRange] (values out of range, in the
    wrong order, or not numbers), the data bounds are left alone and the
    selection ends up ordered and inside them; an ordered in-range pair is
    stored as given. *)
Theorem setWeightRange_selection_in_bounds
        (st : RangeFilterState) (dMin dMax : number)
        (minValue maxValue : option number)
        (Hmin : dataMin st = Some dMin) (Hmax : dataMax st = Some dMax)
        (Hord : dMin <= dMax) :
  let st' := setWeightRange st minValue maxValue in
  dataMin st' = Some dMin /\ dataMax st' = Some dMax
  /\ exists sMin sMax,
       selectedMin st' = Some sMin /\ selectedMax st' = Some sMax
       /\ dMin <= sMin /\ sMin <= sMax /\ sMax <= dMax
       /\ (forall a b, minValue = Some a -> maxValue = Some b ->
             dMin <= a -> a <= b -> b <= dMax ->
             sMin == a /\ sMax == b).
Proof.
  intros st'. unfold st', setWeightRange. rewrite Hmin, Hmax.
  cbn [dataMin dataMax selectedMin selectedMax].
  split; [reflexivity|]. split; [reflexivity|].
  eexists. eexists. split; [reflexivity|]. split; [reflexivity|].
  repeat split.
  - minmax; lra.
  - minmax; lra.
  - minmax; lra.
  - subst minValue maxValue. minmax; lra.
  - subst minValue maxValue. minmax; lra.
Qed.

Lemma setWeightRange_selection_in_bounds_witness :
  exists sMin sMax,
    selectedMin (setWeightRange
                   {| dataMin := Some 40; dataMax := Some 55;
                      selectedMin := Some 40; selectedMax := Some 55 |}
                   (Some 70) None) = Some sMin
    /\ selectedMax (setWeightRange
                      {| dataMin := Some 40; dataMax := Some 55;
                         selectedMin := Some 40; selectedMax := Some 55 |}
                      (Some 70) None) = Some sMax
    /\ 40 <= sMin /\ sMin <= sMax /\ sMax <= 55.
Proof.
  destruct (setWeightRange_selection_in_bounds
              {| dataMin := Some 40; dataMax := Some 55;
                 selectedMin := Some 40; selectedMax := Some 55 |}
              40 55 (Some 70) None eq_refl eq_refl ltac:(lra))
    as (_ & _ & sMin & sMax & H1 & H2 & H3 & H4 & H5 & _).
  exists sMin, sMax. repeat split; assumption.
Defined.

(** X8. Resetting a range filter, or syncing it from slider values that do
    not parse, always leaves it inactive, in every state. *)
Theorem range_reset_is_inactive (st : RangeFilterState) :
  isWeightFilterActive (resetWeightRangeToDataBounds st) = false
  /\ isHardnessFilterActive (resetHardnessRangeToDataBounds st) = false
  /\ (forall v, isWeightFilterActive (syncWeightRangeFromInputs st None v)
                = false)
  /\ (forall v, isWeightFilterActive (syncWeightRangeFromInputs st v None)
                = false).
Proof.
  assert (Hset : forall a b,
            (a = None /\ b = None) \/ (a = dataMin st /\ b = dataMax st) ->
            isWeightFilterActive (setWeightRange st a b) = false).
  { intros a b Hab.
    destruct st as [[dMin|] [dMax|] sMin sMax];
      unfold isWeightFilterActive, setWeightRange;
      cbn [dataMin dataMax selectedMin selectedMax];
      try reflexivity.
    destruct Hab as [[-> ->]|[-> ->]];
      cbn [dataMin dataMax];
      apply orb_false_iff; split; order_props; minmax; lra. }
  split; [apply Hset; right; split; reflexivity|].
  split; [apply Hset; right; split; reflexivity|].
  split; intros v; unfold syncWeightRangeFromInputs.
  - apply Hset. left. split; reflexivity.
  - apply Hset. left. destruct v; split; reflexivity.
Qed.

(* ================================================================== *)
(** * Further properties of filtering *)

Lemma filter_all {A : Type} (f : A -> bool) (l : list A) :
  (forall a, In a l -> f a = true) -> filter f l = l.
Proof.
  induction l as [|a rest IH]; intros H; [reflexivity|].
  simpl. rewrite (H a (or_introl eq_refl)). f_equal.
  apply IH. intros b Hb. apply H. now right.
Qed.

Lemma initWeightRangeFilter_inactive (rubberData : list Rubber) :
  isWeightFilterActive
    (initWeightRangeFilter rubberData initialRangeFilterState) = false.
Proof.
  unfold initWeightRangeFilter.
  destruct (getWeightBoundsFromData rubberData) as [[lo hi]|];
    [|reflexivity].
  unfold isWeightFilterActive. cbn [dataMin dataMax selectedMin selectedMax].
  apply orb_false_iff. split; order_props; apply Qle_refl.
Qed.

Lemma initHardnessRangeFilter_inactive (rubberData : list Rubber) :
  isHardnessFilterActive
    (initHardnessRangeFilter rubberData initialRangeFilterState) = false.
Proof.
  unfold initHardnessRangeFilter, isHardnessFilterActive.
  destruct (getHardnessBoundsFromData rubberData) as [[lo hi]|];
    [|reflexivity].
  unfold isWeightFilterActive. cbn [dataMin dataMax selectedMin selectedMax].
  apply orb_false_iff. split; order_props; apply Qle_refl.
Qed.

Lemma initControlToggleFilter_inactive (rubberData : list Rubber) :
  isControlFilterActive
    (initControlToggleFilter rubberData initialControlFilterState) = false.
Proof.
  unfold initControlToggleFilter.
  destruct (getControlBoundsFromData rubberData) as [[lo hi]|]; reflexivity.
Qed.

(** X9. Right after the three filters are initialized from the loaded data
    nothing is filtered out: with every rubber's brand, full name and sheet
    among the checked values, [getFilteredData] returns [rubberData]
    itself, rubbers without weight, hardness or control rank included. *)
Theorem default_filters_show_everything
        (fullNameOf sheetOf : Rubber -> option string) (sel : Selections)
        (rubberData : list Rubber)
        (Hsel : forall r, In r rubberData ->
                  includes (selectedBrands sel) (brand r) = true
                  /\ includes (selectedNames sel) (fullNameOf r) = true
                  /\ includes (selectedSheet sel) (sheetOf r) = true) :
  getFilteredData fullNameOf sheetOf sel
    (initWeightRangeFilter rubberData initialRangeFilterState)
    (initHardnessRangeFilter rubberData initialRangeFilterState)
    (initControlToggleFilter rubberData initialControlFilterState)
    rubberData
  = rubberData.
Proof.
  unfold getFilteredData.
  rewrite initWeightRangeFilter_inactive, initHardnessRangeFilter_inactive,
          initControlToggleFilter_inactive.
  destruct rubberData as [|r0 rest] eqn:E.
  { destruct (selectedBrands sel), (selectedNames sel), (selectedSheet sel);
      reflexivity. }
  rewrite <- E in *.
  assert (Hall : filter
            (fun rubber =>
               includes (selectedBrands sel) (brand rubber)
               && includes (selectedNames sel) (fullNameOf rubber)
               && includes (selectedSheet sel) (sheetOf rubber)
               && (negb false
                   || finiteInRange (normalizedHardness rubber)
                        (selectedMin (initHardnessRangeFilter rubberData
                                        initialRangeFilterState))
                        (selectedMax (initHardnessRangeFilter rubberData
                                        initialRangeFilterState)))
               && (negb false
                   || finiteInRange (weight rubber)
                        (selectedMin (initWeightRangeFilter rubberData
                                        initialRangeFilterState))
                        (selectedMax (initWeightRangeFilter rubberData
                                        initialRangeFilterState)))
               && (negb false
                   || hasTier
                        (selectedTiers (initControlToggleFilter rubberData
                                          initialControlFilterState))
                        (getControlTierFromRank
                           (initControlToggleFilter rubberData
                              initialControlFilterState)
                           (controlRank rubber))))
            rubberData = rubberData).
  { apply filter_all. intros r Hr.
    destruct (Hsel r Hr) as (Hb & Hn & Hs). now rewrite Hb, Hn, Hs. }
  assert (Hr0 : In r0 rubberData) by (rewrite E; now left).
  destruct (Hsel r0 Hr0) as (Hb & Hn & Hs).
  destruct (selectedBrands sel) as [|b bs]; [discriminate|].
  destruct (selectedNames sel) as [|n ns]; [discriminate|].
  destruct (selectedSheet sel) as [|s ss]; [discriminate|].
  exact Hall.
Qed.

Lemma default_filters_show_everything_witness :
  getFilteredData name (fun _ => Some "Classic"%string)
    {| selectedBrands := ["X"%string];
       selectedNames := ["A"%string; "B"%string];
       selectedSheet := ["Classic"%string] |}
    (initWeightRangeFilter sampleData initialRangeFilterState)
    (initHardnessRangeFilter sampleData initialRangeFilterState)
    (initControlToggleFilter sampleData initialControlFilterState)
    sampleData
  = sampleData.
Proof.
  apply default_filters_show_everything.
  intros r [<-|[<-|[]]]; repeat split; reflexivity.
Defined.

Lemma isWeightFilterActive_finite (st : RangeFilterState) :
  isWeightFilterActive st = true ->
  exists lo hi, selectedMin st = Some lo /\ selectedMax st = Some hi.
Proof.
  unfold isWeightFilterActive.
  destruct (dataMin st), (dataMax st), (selectedMin st), (selectedMax st);
    try discriminate.
  intros _. eauto.
Qed.

Lemma finiteInRange_spec (lo hi : number) (val : option number) :
  finiteInRange val (Some lo) (Some hi) = true ->
  exists q, val = Some q /\ lo <= q /\ q <= hi.
Proof.
  unfold finiteInRange. destruct val as [q|]; [|discriminate].
  intros H. apply andb_true_iff in H. destruct H as [H1 H2].
  order_props. simpl in *. eauto.
Qed.

(** X10. Every rubber that passes [getFilteredData] is one of [rubberData]
    with a checked brand; when the hardness (weight) filter is active it has
    a finite normalized hardness (weight) inside the selected range, so a
    rubber without that measurement is hidden; when the control filter is
    active it has a tier and that tier is selected. *)
Theorem filtered_rubbers_satisfy_active_filters
        (fullNameOf sheetOf : Rubber -> option string) (sel : Selections)
        (weightFilterState hardnessFilterState : RangeFilterState)
        (controlFilterState : ControlFilterState)
        (rubberData : list Rubber) (r : Rubber)
        (Hin : In r (getFilteredData fullNameOf sheetOf sel
                       weightFilterState hardnessFilterState
                       controlFilterState rubberData)) :
  In r rubberData
  /\ includes (selectedBrands sel) (brand r) = true
  /\ (isHardnessFilterActive hardnessFilterState = true ->
      exists h lo hi,
        normalizedHardness r = Some h
        /\ selectedMin hardnessFilterState = Some lo
        /\ selectedMax hardnessFilterState = Some hi
        /\ lo <= h /\ h <= hi)
  /\ (isWeightFilterActive weightFilterState = true ->
      exists w lo hi,
        weight r = Some w
        /\ selectedMin weightFilterState = Some lo
        /\ selectedMax weightFilterState = Some hi
        /\ lo <= w /\ w <= hi)
  /\ (isControlFilterActive controlFilterState = true ->
      exists t,
        getControlTierFromRank controlFilterState (controlRank r) = Some t
        /\ existsb (tierEqb t) (selectedTiers controlFilterState) = true).
Proof.
  unfold getFilteredData in Hin.
  assert (Hf : In r (filter
            (fun rubber =>
               includes (selectedBrands sel) (brand rubber)
               && includes (selectedNames sel) (fullNameOf rubber)
               && includes (selectedSheet sel) (sheetOf rubber)
               && (negb (isHardnessFilterActive hardnessFilterState)
                   || finiteInRange (normalizedHardness rubber)
                        (selectedMin hardnessFilterState)
                        (selectedMax hardnessFilterState))
               && (negb (isWeightFilterActive weightFilterState)
                   || finiteInRange (weight rubber)
                        (selectedMin weightFilterState)
                        (selectedMax weightFilterState))
               && (negb (isControlFilterActive controlFilterState)
                   || hasTier (selectedTiers controlFilterState)
                        (getControlTierFromRank controlFilterState
                                                (controlRank rubber))))
            rubberData)).
  { destruct (selectedBrands sel), (selectedNames sel), (selectedSheet sel);
      try destruct Hin; exact Hin. }
  clear Hin. apply filter_In in Hf. destruct Hf as [Hmem Hp].
  apply andb_true_iff in Hp. destruct Hp as [Hp Hctl].
  apply andb_true_iff in Hp. destruct Hp as [Hp Hwt].
  apply andb_true_iff in Hp. destruct Hp as [Hp Hhd].
  apply andb_true_iff in Hp. destruct Hp as [Hp _].
  apply andb_true_iff in Hp. destruct Hp as [Hbrand _].
  split; [exact Hmem|]. split; [exact Hbrand|].
  split; [|split].
  - intros Hact. unfold isHardnessFilterActive in *.
    destruct (isWeightFilterActive_finite _ Hact) as (lo & hi & Elo & Ehi).
    rewrite Hact, Elo, Ehi in Hhd. simpl in Hhd.
    destruct (finiteInRange_spec lo hi _ Hhd) as (h & Eh & Hl & Hu).
    exists h, lo, hi. tauto.
  - intros Hact.
    destruct (isWeightFilterActive_finite _ Hact) as (lo & hi & Elo & Ehi).
    rewrite Hact, Elo, Ehi in Hwt. simpl in Hwt.
    destruct (finiteInRange_spec lo hi _ Hwt) as (w & Ew & Hl & Hu).
    exists w, lo, hi. tauto.
  - intros Hact. rewrite Hact in Hctl. simpl in Hctl.
    destruct (getControlTierFromRank controlFilterState (controlRank r))
      as [t|]; [|discriminate].
    exists t. split; [reflexivity|exact Hctl].
Qed.

Lemma filtered_rubbers_satisfy_active_filters_witness :
  exists t,
    getControlTierFromRank
      {| rankMin := Some 4%Z; rankMax := Some 5%Z; selectedTiers := [Easy] |}
      (controlRank sampleB) = Some t
    /\ existsb (tierEqb t) [Easy] = true.
Proof.
  refine (proj2 (proj2 (proj2 (proj2
            (filtered_rubbers_satisfy_active_filters
               name (fun _ => Some "Classic"%string)
               {| selectedBrands := ["X"%string];
                  selectedNames := ["A"%string; "B"%string];
                  selectedSheet := ["Classic"%string] |}
               initialRangeFilterState initialRangeFilterState
               {| rankMin := Some 4%Z; rankMax := Some 5%Z;
                  selectedTiers := [Easy] |}
               sampleData sampleB _)))) _).
  - left. reflexivity.
  - reflexivity.
Defined.

(* ================================================================== *)
(** * Further properties of the view window *)

(** Every rubber lies at least half a unit inside the autoscale bounds. *)
Lemma getAutoscaleBounds_margin (rubbers : list Rubber) (b : Bounds)
      (r : Rubber) :
  getAutoscaleBounds rubbers = Some b -> In r rubbers ->
  fst (boundsX b) + 0.5 <= toNumber (x r)
  /\ toNumber (x r) <= snd (boundsX b) - 0.5
  /\ fst (boundsY b) + 0.5 <= toNumber (y r)
  /\ toNumber (y r) <= snd (boundsY b) - 0.5.
Proof.
  destruct rubbers as [|r0 rest]; [discriminate|].
  intros [= <-] Hin. cbn [boundsX boundsY fst snd].
  assert (Hx : In (toNumber (x r))
                  (toNumber (x r0) :: map (fun q => toNumber (x q)) rest)).
  { destruct Hin as [<-|Hin]; [now left|right].
    now apply (in_map (fun q => toNumber (x q))). }
  assert (Hy : In (toNumber (y r))
                  (toNumber (y r0) :: map (fun q => toNumber (y q)) rest)).
  { destruct Hin as [<-|Hin]; [now left|right].
    now apply (in_map (fun q => toNumber (y q))). }
  pose proof (mathMin_lower _ _ _ Hx) as Lx.
  pose proof (mathMax_upper _ _ _ Hx) as Ux.
  pose proof (mathMin_lower _ _ _ Hy) as Ly.
  pose proof (mathMax_upper _ _ _ Hy) as Uy.
  repeat split; minmax; lra.
Qed.

(** X11. The autoscale bounds of a non-empty set contain every rubber with
    a margin of at least half a unit on each side, so each axis of the
    bounds spans at least one unit and is never degenerate. *)
Theorem autoscale_bounds_contain_items
        (rubbers : list Rubber) (b : Bounds) (r : Rubber)
        (Hb : getAutoscaleBounds rubbers = Some b) (Hin : In r rubbers) :
  (fst (boundsX b) + 0.5 <= toNumber (x r)
   /\ toNumber (x r) <= snd (boundsX b) - 0.5)
  /\ (fst (boundsY b) + 0.5 <= toNumber (y r)
      /\ toNumber (y r) <= snd (boundsY b) - 0.5)
  /\ 1 <= spanOf (boundsX b)
  /\ 1 <= spanOf (boundsY b).
Proof.
  pose proof (getAutoscaleBounds_margin rubbers b r Hb Hin)
    as (H1 & H2 & H3 & H4).
  unfold spanOf. repeat split; lra.
Qed.

Lemma autoscale_bounds_contain_items_witness :
  exists b,
    getAutoscaleBounds twoCorners = Some b
    /\ 1 <= spanOf (boundsX b) /\ 1 <= spanOf (boundsY b).
Proof.
  eexists. split; [reflexivity|].
  refine (proj2 (proj2 (autoscale_bounds_contain_items
                          twoCorners _ (rubberAt 1 1 1) eq_refl _))).
  left. reflexivity.
Defined.

Lemma filter_length_all {A : Type} (f : A -> bool) (l : list A) :
  List.length (filter f l) = List.length l <-> forallb f l = true.
Proof.
  induction l as [|a rest IH]; simpl; [tauto|].
  pose proof (filter_length_le f rest) as Hle.
  destruct (f a); simpl.
  - rewrite <- IH. split; intros H; lia.
  - split; [intros H; lia|discriminate].
Qed.



(** X13. A window that covers the autoscale bounds of the filtered set
    shows every rubber: no autoscale is triggered and the header count is
    the size of the set. *)
Theorem covering_view_shows_all
        (filteredData : list Rubber) (xRange0 yRange0 : Range)
        (Hne : filteredData <> [])
        (Hcov : viewCoversDataBounds filteredData xRange0 yRange0 = true) :
  shouldAutoscaleForFilteredData filteredData (Some (xRange0, yRange0))
  = false
  /\ inViewCount (Some (xRange0, yRange0)) filteredData
     = List.length filteredData.
Proof.
  destruct (proj1 (getAutoscaleBounds_nonempty filteredData) Hne) as [b Hb].
  apply (viewCoversDataBounds_within _ b) in Hcov; [|exact Hb].
  destruct Hcov as [[Hx0 Hx1] [Hy0 Hy1]].
  assert (Hall : forall r, In r filteredData ->
            fst xRange0 <= toNumber (x r) /\ toNumber (x r) <= snd xRange0
            /\ fst yRange0 <= toNumber (y r)
            /\ toNumber (y r) <= snd yRange0).
  { intros r Hr.
    pose proof (getAutoscaleBounds_margin _ b r Hb Hr) as (H1 & H2 & H3 & H4).
    repeat split; lra. }
  assert (Hno : shouldAutoscaleForFilteredData filteredData
                  (Some (xRange0, yRange0)) = false).
  { unfold shouldAutoscaleForFilteredData.
    destruct filteredData as [|r0 rest] eqn:E; [reflexivity|].
    rewrite <- E in *.
    destruct (existsb _ filteredData) eqn:Ex; [|reflexivity].
    apply existsb_exists in Ex. destruct Ex as [r [Hr Hout]].
    destruct (Hall r Hr) as (H1 & H2 & H3 & H4).
    rewrite !orb_true_iff, !ltq_spec in Hout.
    destruct Hout as [[[Ho|Ho]|Ho]|Ho]; lra. }
  split; [exact Hno|].
  destruct filteredData as [|r0 rest] eqn:E; [now contradiction Hne|].
  rewrite <- E in *.
  destruct (Hall r0 ltac:(rewrite E; now left)) as (H1 & H2 & H3 & H4).
  unfold inViewCount. apply filter_length_all, forallb_forall.
  intros r Hr. destruct (Hall r Hr) as (G1 & G2 & G3 & G4).
  rewrite !andb_true_iff, !leq_spec.
  repeat split; minmax; lra.
Qed.

Lemma covering_view_shows_all_witness :
  shouldAutoscaleForFilteredData twoCorners (Some ((0, 11), (0, 11))) = false
  /\ inViewCount (Some ((0, 11), (0, 11))) twoCorners
     = List.length twoCorners.
Proof.
  apply covering_view_shows_all.
  - discriminate.
  - reflexivity.
Defined.

(** X14. A zoom-out over a non-empty filtered set never reaches beyond the
    autoscale bounds: whenever [computeZoomedRanges] returns a window for
    [scale > 1], both of its ranges start at or after the lower bound and
    end at or before the upper bound. *)
Theorem zoom_out_stays_within_bounds
        (currentFilteredData : list Rubber) (b : Bounds)
        (xRange0 yRange0 : Range) (scale anchorFx anchorFy : number)
        (w : ZoomedRanges)
        (Hb : getAutoscaleBounds currentFilteredData = Some b)
        (Hscale : 1 < scale)
        (Hres : computeZoomedRanges currentFilteredData xRange0 yRange0
                                    scale anchorFx anchorFy = Some w) :
  (fst (boundsX b) <= fst (xRange w) /\ snd (xRange w) <= snd (boundsX b))
  /\ (fst (boundsY b) <= fst (yRange w) /\ snd (yRange w) <= snd (boundsY b)).
Proof.
  apply computeZoomedRanges_some in Hres. destruct Hres as (_ & _ & Hw).
  rewrite Hb in Hw.
  assert (Ecs : clampedScaleOf (Some b) (spanOf xRange0) (spanOf yRange0)
                               scale = scale).
  { unfold clampedScaleOf.
    assert (E : ltq scale 1 = false) by (order_props; lra).
    now rewrite E. }
  rewrite Ecs in Hw.
  assert (E1 : ltq 1 scale = true) by now apply ltq_spec.
  rewrite E1 in Hw. subst w. cbn [xRange yRange].
  unfold clampRangeToBounds. cbn [fst snd].
  repeat split;
    first [apply Q.le_max_r | apply Q.le_min_r].
Qed.

Lemma zoom_out_stays_within_bounds_witness :
  exists w,
    computeZoomedRanges twoCorners (2, 4) (0, 11) 10 0.5 0.5 = Some w
    /\ 0.5 <= fst (xRange w) /\ snd (xRange w) <= 10.5.
Proof.
  eexists. split; [vm_compute; reflexivity|].
  refine (proj1 (zoom_out_stays_within_bounds
                   twoCorners
                   {| boundsX := (0.5, 10.5); boundsY := (0.5, 10.5) |}
                   (2, 4) (0, 11) 10 0.5 0.5 _ _ _ _)).
  - vm_compute. reflexivity.
  - lra.
  - vm_compute. reflexivity.
Defined.






(* ================================================================== *)
(** * Further properties of the label declutter *)

Lemma greedySelect_app (apart : Pixel -> Pixel -> bool)
      (pixelOf : Rubber -> Pixel) (l1 l2 : list Rubber) :
  forall accepted,
    greedySelect apart pixelOf accepted (l1 ++ l2)
    = greedySelect apart pixelOf (greedySelect apart pixelOf accepted l1) l2.
Proof.
  induction l1 as [|c rest IH]; intros accepted; simpl; [reflexivity|].
  destruct (forallb _ accepted); apply IH.
Qed.

Lemma greedySelect_prefix (apart : Pixel -> Pixel -> bool)
      (pixelOf : Rubber -> Pixel) (candidates : list Rubber) :
  forall accepted,
    exists more,
      greedySelect apart pixelOf accepted candidates = accepted ++ more.
Proof.
  induction candidates as [|c rest IH]; intros accepted; simpl.
  - exists []. now rewrite app_nil_r.
  - destruct (forallb _ accepted).
    + destruct (IH (accepted ++ [c])) as [more ->].
      exists (c :: more). now rewrite <- app_assoc.
    + apply IH.
Qed.

Lemma StronglySorted_drop_middle {A : Type} (R : A -> A -> Prop)
      (l1 : list A) (c : A) (l2 : list A) :
  StronglySorted R (l1 ++ c :: l2) -> StronglySorted R (l1 ++ l2).
Proof.
  induction l1 as [|a l1 IH]; simpl; intros H.
  - now apply StronglySorted_inv in H.
  - apply StronglySorted_inv in H. destruct H as [Hs Hall].
    constructor; [now apply IH|].
    apply Forall_app in Hall. destruct Hall as [H1 H2].
    apply Forall_app. split; [exact H1|].
    now apply Forall_inv_tail in H2.
Qed.

Lemma greedySelect_ascending (apart : Pixel -> Pixel -> bool)
      (pixelOf : Rubber -> Pixel) (candidates : list Rubber) :
  forall accepted,
    ascending (accepted ++ candidates) ->
    ascending (greedySelect apart pixelOf accepted candidates).
Proof.
  unfold ascending.
  induction candidates as [|c rest IH]; intros accepted Hs; simpl.
  - now rewrite app_nil_r in Hs.
  - destruct (forallb _ accepted).
    + apply IH. now rewrite <- app_assoc.
    + apply IH. now apply StronglySorted_drop_middle in Hs.
Qed.

Lemma ascending_sorted_fixpoint (l : list Rubber) :
  ascending l -> sortByPriority l = l.
Proof.
  unfold ascending. induction l as [|a rest IH]; intros Hs; [reflexivity|].
  apply StronglySorted_inv in Hs. destruct Hs as [Hrest Hall].
  simpl. rewrite (IH Hrest).
  destruct rest as [|s rest']; [reflexivity|].
  simpl. apply Forall_inv in Hall. apply Z.leb_le in Hall.
  now rewrite Hall.
Qed.

Lemma ForallOrdPairs_before {A : Type} (R : A -> A -> Prop)
      (l1 : list A) (c : A) (l2 : list A) :
  ForallOrdPairs R (l1 ++ c :: l2) -> Forall (fun a => R a c) l1.
Proof.
  induction l1 as [|a l1 IH]; simpl; intros H; [constructor|].
  inversion H as [|? ? Ha Hrest]; subst.
  constructor.
  - apply Forall_app in Ha. destruct Ha as [_ Ha].
    now apply Forall_inv in Ha.
  - now apply IH.
Qed.

(** Greedy selection accepts every candidate of a list that is already
    pairwise clear. *)
Lemma greedySelect_all_clear (dx dy : number) (pixelOf : Rubber -> Pixel)
      (candidates : list Rubber) :
  forall accepted,
    pairwiseClear dx dy pixelOf (accepted ++ candidates) ->
    greedySelect (atLeastApart dx dy) pixelOf accepted candidates
    = accepted ++ candidates.
Proof.
  unfold pairwiseClear.
  induction candidates as [|c rest IH]; intros accepted Hc; simpl.
  - now rewrite app_nil_r.
  - assert (Hall : forallb (fun a => atLeastApart dx dy (pixelOf c)
                                                  (pixelOf a)) accepted
                   = true).
    { apply forallb_forall. intros a Ha.
      pose proof (ForallOrdPairs_before _ _ _ _ Hc) as Hb.
      rewrite Forall_forall in Hb. specialize (Hb a Ha). cbv beta in Hb.
      rewrite atLeastApart_not_overlaps. now rewrite Hb. }
    rewrite Hall. rewrite IH; [now rewrite <- app_assoc|].
    now rewrite <- app_assoc.
Qed.

(** X17. No two rubbers shown by [computeVisibleRubbers] overlap: each one
    is at least [MIN_DIST_X] pixels away in x or [MIN_DIST_Y] pixels away
    in y from every rubber shown before it. *)
Theorem shown_labels_never_overlap
        (chart : FullLayout) (rect : Rect) (filteredData : list Rubber)
        (Hx : 0 < spanOf (xaRange chart))
        (Hy : 0 < spanOf (yaRange chart)) :
  pairwiseClear MIN_DIST_X MIN_DIST_Y
    (fun r => toPixel (xaRange chart) (yaRange chart)
                      (sizeW chart) (sizeH chart)
                      (toNumber (x r)) (toNumber (y r)))
    (computeVisibleRubbers (Some chart) rect filteredData).
Proof.
  unfold computeVisibleRubbers. destruct filteredData as [|r rest].
  - constructor.
  - rewrite (declutter_positive _ _ _ _ _ _ _ Hx Hy).
    apply greedySelect_pairwiseClear. constructor.
Qed.

Lemma shown_labels_never_overlap_witness :
  pairwiseClear MIN_DIST_X MIN_DIST_Y unitPixelOf
    (computeVisibleRubbers (Some unitLayout) noRect threeInRow).
Proof.
  apply (shown_labels_never_overlap unitLayout noRect threeInRow).
  - vm_compute. reflexivity.
  - vm_compute. reflexivity.
Defined.

(** X18. Nothing is hidden without cause: every filtered rubber is either
    shown or overlaps a shown rubber whose priority number is not larger
    than its own. *)
Theorem hidden_labels_are_blocked
        (chart : FullLayout) (rect : Rect) (filteredData : list Rubber)
        (r : Rubber)
        (Hx : 0 < spanOf (xaRange chart))
        (Hy : 0 < spanOf (yaRange chart))
        (Hin : In r filteredData) :
  let pixelOf := fun q =>
    toPixel (xaRange chart) (yaRange chart) (sizeW chart) (sizeH chart)
            (toNumber (x q)) (toNumber (y q)) in
  let visible := computeVisibleRubbers (Some chart) rect filteredData in
  In r visible
  \/ exists a,
       In a visible
       /\ overlapsWith MIN_DIST_X MIN_DIST_Y (pixelOf r) (pixelOf a) = true
       /\ (priority a <= priority r)%Z.
Proof.
  intros pixelOf visible.
  assert (Hvis : visible
                 = greedySelect (atLeastApart MIN_DIST_X MIN_DIST_Y)
                                pixelOf [] (sortByPriority filteredData)).
  { unfold visible, computeVisibleRubbers.
    destruct filteredData as [|r0 rest]; [destruct Hin|].
    now apply declutter_positive. }
  assert (Hsorted : In r (sortByPriority filteredData)).
  { eapply Permutation_in;
      [apply Permutation_sym, sortByPriority_perm|exact Hin]. }
  apply in_split in Hsorted. destruct Hsorted as (l1 & l2 & Hsplit).
  pose proof (sortByPriority_ascending filteredData) as Hasc.
  rewrite Hsplit in Hasc.
  rewrite Hvis, Hsplit, greedySelect_app.
  set (A := greedySelect (atLeastApart MIN_DIST_X MIN_DIST_Y) pixelOf [] l1).
  simpl greedySelect.
  destruct (forallb (fun a => atLeastApart MIN_DIST_X MIN_DIST_Y
                                           (pixelOf r) (pixelOf a)) A) eqn:E.
  - left.
    destruct (greedySelect_prefix (atLeastApart MIN_DIST_X MIN_DIST_Y)
                pixelOf l2 (A ++ [r])) as [more ->].
    rewrite !in_app_iff. left; right; now left.
  - right.
    assert (Hex : exists a, In a A
              /\ atLeastApart MIN_DIST_X MIN_DIST_Y (pixelOf r) (pixelOf a)
                 = false).
    { clear -E. induction A as [|a A IH]; [discriminate|].
      simpl in E. apply andb_false_iff in E. destruct E as [E|E].
      - exists a. split; [now left|exact E].
      - destruct (IH E) as [a' [Ha' Hf]]. exists a'. split; [now right|exact Hf]. }
    destruct Hex as [a [Ha Hf]]. exists a.
    rewrite atLeastApart_not_overlaps in Hf. apply negb_false_iff in Hf.
    split; [|split; [exact Hf|]].
    + destruct (greedySelect_prefix (atLeastApart MIN_DIST_X MIN_DIST_Y)
                  pixelOf l2 A) as [more ->].
      apply in_app_iff. now left.
    + unfold A in Ha. apply greedySelect_In in Ha.
      destruct Ha as [[]|Ha].
      unfold ascending in Hasc.
      apply in_split in Ha. destruct Ha as (p1 & p2 & ->).
      rewrite <- app_assoc in Hasc. simpl in Hasc.
      clear -Hasc. induction p1 as [|u p1 IH]; simpl in Hasc.
      * apply StronglySorted_inv in Hasc. destruct Hasc as [_ Hall].
        rewrite Forall_forall in Hall. apply Hall.
        apply in_app_iff. right. now left.
      * apply StronglySorted_inv in Hasc. destruct Hasc as [Hs _].
        now apply IH.
Qed.

Lemma hidden_labels_are_blocked_witness :
  In (rubberAt 2 10 0)
     (computeVisibleRubbers (Some unitLayout) noRect threeInRow)
  \/ exists a,
       In a (computeVisibleRubbers (Some unitLayout) noRect threeInRow)
       /\ overlapsWith MIN_DIST_X MIN_DIST_Y
            (unitPixelOf (rubberAt 2 10 0)) (unitPixelOf a) = true
       /\ (priority a <= priority (rubberAt 2 10 0))%Z.
Proof.
  apply (hidden_labels_are_blocked unitLayout noRect threeInRow
                                   (rubberAt 2 10 0)).
  - vm_compute. reflexivity.
  - vm_compute. reflexivity.
  - right; left; reflexivity.
Defined.

(** X19. Decluttering is stable under repetition against the same layout:
    running [computeVisibleRubbers] on the rubbers it has just shown shows
    them all again, in the same order, for every window (degenerate or
    not). *)
Theorem declutter_idempotent
        (chart : FullLayout) (rect : Rect) (filteredData : list Rubber) :
  computeVisibleRubbers (Some chart) rect
    (computeVisibleRubbers (Some chart) rect filteredData)
  = computeVisibleRubbers (Some chart) rect filteredData.
Proof.
  assert (Hdecl : forall l,
            computeVisibleRubbers (Some chart) rect l
            = declutter MIN_DIST_X MIN_DIST_Y (xaRange chart) (yaRange chart)
                        (sizeW chart) (sizeH chart) l).
  { intros [|r rest]; [|reflexivity].
    unfold computeVisibleRubbers, declutter. simpl.
    destruct (leq _ 0 || leq _ 0); reflexivity. }
  rewrite !Hdecl.
  set (pixelOf := fun r => toPixel (xaRange chart) (yaRange chart)
                             (sizeW chart) (sizeH chart)
                             (toNumber (x r)) (toNumber (y r))).
  destruct (leq (snd (xaRange chart) - fst (xaRange chart)) 0
            || leq (snd (yaRange chart) - fst (yaRange chart)) 0) eqn:Edeg.
  - unfold declutter. now rewrite !Edeg.
  - apply orb_false_iff in Edeg. destruct Edeg as [Ex Ey]. order_props.
    rewrite !(declutter_positive _ _ _ _ _ _ _ Ex Ey). fold pixelOf.
    set (visible := greedySelect (atLeastApart MIN_DIST_X MIN_DIST_Y)
                                 pixelOf [] (sortByPriority filteredData)).
    assert (Hasc : ascending visible).
    { apply greedySelect_ascending. apply sortByPriority_ascending. }
    assert (Hclear : pairwiseClear MIN_DIST_X MIN_DIST_Y pixelOf visible).
    { apply greedySelect_pairwiseClear. constructor. }
    rewrite (ascending_sorted_fixpoint visible Hasc).
    now apply (greedySelect_all_clear MIN_DIST_X MIN_DIST_Y pixelOf visible []).
Qed.

(** X20. On a window with positive spans the shown rubbers are listed in
    ascending priority, and when there is anything to show the first one is
    the head of the priority order, a rubber whose priority number no
    filtered rubber undercuts: the declutterer never hides everything. *)
Theorem top_priority_label_is_shown
        (chart : FullLayout) (rect : Rect) (filteredData : list Rubber)
        (Hx : 0 < spanOf (xaRange chart))
        (Hy : 0 < spanOf (yaRange chart))
        (Hne : filteredData <> []) :
  ascending (computeVisibleRubbers (Some chart) rect filteredData)
  /\ exists top others shown,
       sortByPriority filteredData = top :: others
       /\ computeVisibleRubbers (Some chart) rect filteredData = top :: shown
       /\ In top filteredData
       /\ forall r, In r filteredData -> (priority top <= priority r)%Z.
Proof.
  set (pixelOf := fun r => toPixel (xaRange chart) (yaRange chart)
                             (sizeW chart) (sizeH chart)
                             (toNumber (x r)) (toNumber (y r))).
  assert (Hvis : computeVisibleRubbers (Some chart) rect filteredData
                 = greedySelect (atLeastApart MIN_DIST_X MIN_DIST_Y)
                                pixelOf [] (sortByPriority filteredData)).
  { unfold computeVisibleRubbers.
    destruct filteredData as [|r0 rest]; [now contradiction Hne|].
    now apply declutter_positive. }
  rewrite Hvis. split.
  { apply greedySelect_ascending. apply sortByPriority_ascending. }
  pose proof (sortByPriority_perm filteredData) as Hperm.
  pose proof (sortByPriority_ascending filteredData) as Hasc.
  destruct (sortByPriority filteredData) as [|top others] eqn:Es.
  { apply Permutation_nil in Hperm. now contradiction Hne. }
  simpl greedySelect.
  destruct (greedySelect_prefix (atLeastApart MIN_DIST_X MIN_DIST_Y)
              pixelOf others [top]) as [more Hmore].
  exists top, others, more.
  split; [reflexivity|]. split; [exact Hmore|]. split.
  - eapply Permutation_in; [exact Hperm|now left].
  - intros r Hr.
    assert (Hr' : In r (top :: others))
      by (eapply Permutation_in; [apply Permutation_sym, Hperm|exact Hr]).
    unfold ascending in Hasc. apply StronglySorted_inv in Hasc.
    destruct Hasc as [_ Hall]. rewrite Forall_forall in Hall.
    destruct Hr' as [<-|Hr']; [lia|now apply Hall].
Qed.

Lemma top_priority_label_is_shown_witness :
  exists top others shown,
    sortByPriority threeInRow = top :: others
    /\ computeVisibleRubbers (Some unitLayout) noRect threeInRow
       = top :: shown
    /\ In top threeInRow
    /\ forall r, In r threeInRow -> (priority top <= priority r)%Z.
Proof.
  refine (proj2 (top_priority_label_is_shown unitLayout noRect threeInRow
                                             _ _ _)).
  - vm_compute. reflexivity.
  - vm_compute. reflexivity.
  - discriminate.
Defined.

(* ================================================================== *)
(** * Further properties of ranking lookups and loading *)

Lemma findRankFrom_first_match (rubber : Rubber)
      (rankingArray : list RankEntry) :
  forall i0 : Z,
    (0 <= i0)%Z ->
    let k := findRankFrom i0 (toLowerCase (trim (orEmpty (brand rubber))))
                          (name rubber) (abbr rubber) rankingArray in
    (k = (-1)%Z
     /\ forall e, In e rankingArray -> entryMatches rubber e = false)
    \/ ((i0 <= k)%Z
        /\ exists e,
             nth_error rankingArray (Z.to_nat (k - i0)) = Some e
             /\ entryMatches rubber e = true
             /\ forall j e',
                  (j < Z.to_nat (k - i0))%nat ->
                  nth_error rankingArray j = Some e' ->
                  entryMatches rubber e' = false).
Proof.
  induction rankingArray as [|e rest IH]; intros i0 Hi0; simpl.
  - left. split; [reflexivity|]. intros e [].
  - assert (Hm : entryMatches rubber e
                 = negb (negb (String.eqb
                                 (toLowerCase (trim (orEmpty (entryBrand e))))
                                 (toLowerCase (trim (orEmpty (brand rubber))))))
                   && (strictEq (entryName e) (name rubber)
                       || strictEq (entryName e) (abbr rubber)))
      by (unfold entryMatches; now rewrite negb_involutive).
    destruct (negb (String.eqb _ _)) eqn:Eb.
    + simpl in Hm.
      destruct (IH (i0 + 1)%Z ltac:(lia)) as [[Hk Hnone]|(Hk & e1 & Hn & Hy & Hbefore)].
      * left. split; [exact Hk|]. intros e' [<-|He']; [exact Hm|now apply Hnone].
      * right. split; [lia|]. exists e1.
        replace (Z.to_nat (findRankFrom (i0 + 1) _ _ _ rest - i0))
          with (S (Z.to_nat (findRankFrom (i0 + 1)
                     (toLowerCase (trim (orEmpty (brand rubber))))
                     (name rubber) (abbr rubber) rest - (i0 + 1)))) by lia.
        split; [exact Hn|]. split; [exact Hy|].
        intros [|j] e' Hj He'.
        -- simpl in He'. injection He' as <-. exact Hm.
        -- simpl in He'. apply (Hbefore j e'); [lia|exact He'].
    + simpl in Hm.
      destruct (strictEq (entryName e) (name rubber)
                || strictEq (entryName e) (abbr rubber)) eqn:En.
      * right. split; [lia|]. exists e.
        replace (i0 - i0)%Z with 0%Z by lia. simpl.
        split; [reflexivity|]. split; [exact Hm|]. intros j e' Hj. lia.
      * destruct (IH (i0 + 1)%Z ltac:(lia)) as [[Hk Hnone]|(Hk & e1 & Hn & Hy & Hbefore)].
        -- left. split; [exact Hk|].
           intros e' [<-|He']; [exact Hm|now apply Hnone].
        -- right. split; [lia|]. exists e1.
           replace (Z.to_nat (findRankFrom (i0 + 1) _ _ _ rest - i0))
             with (S (Z.to_nat (findRankFrom (i0 + 1)
                        (toLowerCase (trim (orEmpty (brand rubber))))
                        (name rubber) (abbr rubber) rest - (i0 + 1)))) by lia.
           split; [exact Hn|]. split; [exact Hy|].
           intros [|j] e' Hj He'.
           ++ simpl in He'. injection He' as <-. exact Hm.
           ++ simpl in He'. apply (Hbefore j e'); [lia|exact He'].
Qed.

(** X21. [findRubberRank] returns the position of the first entry whose
    brand equals the rubber's brand up to case and surrounding blanks and
    whose name is the rubber's name or abbreviation; it returns -1 exactly
    when no entry matches. *)
Theorem findRubberRank_first_match
        (rubber : Rubber) (rankingArray : list RankEntry) :
  let k := findRubberRank rubber rankingArray in
  (k = (-1)%Z
   /\ forall e, In e rankingArray -> entryMatches rubber e = false)
  \/ ((0 <= k)%Z
      /\ exists e,
           nth_error rankingArray (Z.to_nat k) = Some e
           /\ entryMatches rubber e = true
           /\ forall j e',
                (j < Z.to_nat k)%nat ->
                nth_error rankingArray j = Some e' ->
                entryMatches rubber e' = false).
Proof.
  intros k.
  pose proof (findRankFrom_first_match rubber rankingArray 0 ltac:(lia))
    as H.
  cbv zeta in H. fold (findRubberRank rubber rankingArray) in H. fold k in H.
  rewrite Z.sub_0_r in H. exact H.
Qed.

(** X22. Every loaded rubber stems from a catalog entry that is not
    flagged as disabled, keeps that entry's name, brand and weight, and
    takes the entry's abbreviation when it has a non-empty one and its name
    otherwise; loading never yields more rubbers than there are enabled
    entries. *)
Theorem loaded_rubbers_come_from_enabled_entries
        (rawItems : list RawItem) (rankings : Rankings)
        (priorityRanking bestsellerRanking : list RankEntry) :
  let rubberData :=
    loadRubberData rawItems rankings priorityRanking bestsellerRanking in
  (forall r, In r rubberData ->
     exists raw,
       In raw rawItems /\ rawDisabled raw = false
       /\ name r = rawName raw /\ brand r = rawManufacturer raw
       /\ weight r = rawWeight raw
       /\ abbr r = orElse (rawAbbr raw) (rawName raw))
  /\ (List.length rubberData
      <= List.length (filter (fun raw => negb (rawDisabled raw)) rawItems)
      <= List.length rawItems)%nat.
Proof.
  intros rubberData. split.
  - intros r Hin. apply loadRubberData_In in Hin. destruct Hin as [Hin _].
    unfold rankedData in Hin.
    apply in_map_iff in Hin. destruct Hin as [r0 [<- Hin0]].
    apply in_map_iff in Hin0. destruct Hin0 as [raw [<- Hraw]].
    apply filter_In in Hraw. destruct Hraw as [Hraw Hen].
    apply negb_true_iff in Hen.
    exists raw. repeat split; assumption.
  - unfold rubberData, loadRubberData, rankedData. split.
    + eapply Nat.le_trans; [apply filter_length_le|].
      now rewrite !length_map.
    + apply filter_length_le.
Qed.

(** X23. Every loaded rubber records the size of the control table as its
    control total, has a control rank between 1 and that total when it has
    one, and has a priority of at least 1. *)
Theorem loaded_control_rank_and_priority
        (rawItems : list RawItem) (rankings : Rankings)
        (priorityRanking bestsellerRanking : list RankEntry) (r : Rubber)
        (Hin : In r (loadRubberData rawItems rankings
                                    priorityRanking bestsellerRanking)) :
  controlTotal r = Z.of_nat (List.length (control rankings))
  /\ (forall k, controlRank r = Some k -> (1 <= k <= controlTotal r)%Z)
  /\ (1 <= priority r)%Z.
Proof.
  apply loadRubberData_In in Hin. destruct Hin as [Hin _].
  exact (rankedData_control _ _ _ _ _ Hin).
Qed.

Lemma loaded_control_rank_and_priority_witness :
  controlTotal sampleB = 5%Z
  /\ (forall k, controlRank sampleB = Some k ->
                (1 <= k <= controlTotal sampleB)%Z)
  /\ (1 <= priority sampleB)%Z.
Proof.
  apply (loaded_control_rank_and_priority
           sampleRaw sampleRankings samplePriority sampleBestseller sampleB).
  right; left; reflexivity.
Defined.

(* ================================================================== *)
(** * The relayout guard *)

Lemma clearTimeout_In (v : option nat) (pending : list (nat * TimerCallback))
      (t : nat * TimerCallback) :
  In t (clearTimeout v pending) -> In t pending /\ v <> Some (fst t).
Proof.
  unfold clearTimeout. destruct v as [id|].
  - intros H. apply filter_In in H. destruct H as [Hin Hne].
    split; [exact Hin|]. apply negb_true_iff, Nat.eqb_neq in Hne.
    intros [= ->]. now apply Hne.
  - intros H. split; [exact H|discriminate].
Qed.

Lemma clearTimeout_NoDup (v : option nat)
      (pending : list (nat * TimerCallback)) :
  NoDup (map fst pending) -> NoDup (map fst (clearTimeout v pending)).
Proof.
  unfold clearTimeout. destruct v as [id|]; [|auto].
  induction pending as [|t rest IH]; simpl; intros Hnd; [constructor|].
  inversion Hnd as [|? ? Hnotin Hrest]; subst.
  destruct (negb (fst t =? id)%nat); simpl; [|now apply IH].
  constructor; [|now apply IH].
  intros Hin. apply Hnotin. apply in_map_iff in Hin.
  destruct Hin as [u [Hu Hin]]. apply filter_In in Hin.
  apply in_map_iff. exists u. tauto.
Qed.

Lemma NoDup_snoc_fresh (ids : list nat) (n : nat) :
  NoDup ids -> (forall i, In i ids -> (i < n)%nat) -> NoDup (ids ++ [n]).
Proof.
  intros Hnd Hlt. apply NoDup_app.
  - exact Hnd.
  - constructor; [intros []|constructor].
  - intros i Hi [E|[]]. specialize (Hlt i Hi). lia.
Qed.

Lemma lookupTimer_In (id : nat) (pending : list (nat * TimerCallback))
      (cb : TimerCallback) :
  lookupTimer id pending = Some cb -> In (id, cb) pending.
Proof.
  induction pending as [|[i c] rest IH]; simpl; [discriminate|].
  destruct (i =? id)%nat eqn:E.
  - apply Nat.eqb_eq in E. subst i. intros [= <-]. now left.
  - intros H. right. now apply IH.
Qed.

(** Both timers cleared: what is left pending holds neither a disarm nor a
    redraw timer, given that those were the ones held in the variables. *)
Lemma cleared_both_empty (st : GuardState) :
  timersConsistent st ->
  forall id cb,
    ~ In (id, cb) (clearTimeout (internalUpdateTimer st)
                     (clearTimeout (relayoutTimer st) (timers st))).
Proof.
  intros (_ & _ & Hd & Hr & _) id cb Hin.
  apply clearTimeout_In in Hin. destruct Hin as [Hin Hne1].
  apply clearTimeout_In in Hin. destruct Hin as [Hin Hne2].
  simpl in Hne1, Hne2. destruct cb.
  - apply Hne1. now apply Hd.
  - apply Hne2. now apply Hr.
Qed.

Lemma updateChartGuard_invariant (st : GuardState) :
  timersConsistent st -> guardInvariant (updateChartGuard st).
Proof.
  intros Hc. pose proof (cleared_both_empty st Hc) as Hempty.
  destruct Hc as (Hlt & Hnd & Hd & Hr & Hp).
  unfold guardInvariant, timersConsistent, updateChartGuard.
  cbn [isInternalUpdate relayoutTimer internalUpdateTimer pinchActive
       pinchStartDist pinchStartRanges timers nextTimerId].
  assert (Hnew : forall id cb,
            In (id, cb) (clearTimeout (internalUpdateTimer st)
                           (clearTimeout (relayoutTimer st) (timers st))
                         ++ [(nextTimerId st, Disarm)]) ->
            id = nextTimerId st /\ cb = Disarm).
  { intros id cb Hin. apply in_app_iff in Hin.
    destruct Hin as [Hin|[[= <- <-]|[]]]; [|now split].
    now apply Hempty in Hin. }
  split; [split; [|split; [|split; [|split]]]|split].
  - intros id cb Hin. apply Hnew in Hin. lia.
  - rewrite map_app. apply NoDup_snoc_fresh.
    + now apply clearTimeout_NoDup, clearTimeout_NoDup.
    + intros i Hi. apply in_map_iff in Hi. destruct Hi as [[i' cb] [<- Hi]].
      now apply Hempty in Hi.
  - intros id Hin. apply Hnew in Hin. now destruct Hin as [-> _].
  - intros id Hin. apply Hnew in Hin. now destruct Hin as [_ [=]].
  - exact Hp.
  - intros _. right. exists (nextTimerId st).
    apply in_app_iff. right. now left.
  - intros _ id Hin. apply Hnew in Hin. now destruct Hin as [_ [=]].
Qed.

(** A state whose timers are what both [clearTimeout] calls leave. *)
Lemma consistent_after_clear (st st' : GuardState) :
  timersConsistent st ->
  timers st' = clearTimeout (internalUpdateTimer st)
                 (clearTimeout (relayoutTimer st) (timers st)) ->
  relayoutTimer st' = relayoutTimer st ->
  internalUpdateTimer st' = internalUpdateTimer st ->
  nextTimerId st' = nextTimerId st ->
  (pinchStartDist st' = true -> pinchActive st' = true) ->
  timersConsistent st' /\ forall id cb, ~ In (id, cb) (timers st').
Proof.
  intros Hc Ht Hrl Hiu Hnx Hp.
  pose proof (cleared_both_empty st Hc) as Hempty. rewrite <- Ht in Hempty.
  destruct Hc as (Hlt & Hnd & Hd & Hr & _).
  split; [|exact Hempty].
  unfold timersConsistent. repeat split.
  - intros id cb Hin. now apply Hempty in Hin.
  - rewrite Ht. now apply clearTimeout_NoDup, clearTimeout_NoDup.
  - intros id Hin. now apply Hempty in Hin.
  - intros id Hin. now apply Hempty in Hin.
  - exact Hp.
Qed.

(** A state whose timers are what both [clearTimeout] calls leave, plus a
    newly scheduled disarm timer. *)
Lemma consistent_after_schedule (st st' : GuardState) :
  timersConsistent st ->
  timers st' = clearTimeout (internalUpdateTimer st)
                 (clearTimeout (relayoutTimer st) (timers st))
               ++ [(nextTimerId st, Disarm)] ->
  relayoutTimer st' = relayoutTimer st ->
  internalUpdateTimer st' = Some (nextTimerId st) ->
  nextTimerId st' = S (nextTimerId st) ->
  (pinchStartDist st' = true -> pinchActive st' = true) ->
  timersConsistent st'
  /\ (exists id, In (id, Disarm) (timers st'))
  /\ forall id, ~ In (id, Redraw) (timers st').
Proof.
  intros Hc Ht Hrl Hiu Hnx Hp.
  pose proof (cleared_both_empty st Hc) as Hempty.
  destruct Hc as (Hlt & Hnd & Hd & Hr & _).
  assert (Hnew : forall id cb, In (id, cb) (timers st') ->
                               id = nextTimerId st /\ cb = Disarm).
  { intros id cb Hin. rewrite Ht in Hin. apply in_app_iff in Hin.
    destruct Hin as [Hin|[[= <- <-]|[]]]; [|now split].
    now apply Hempty in Hin. }
  split; [|split].
  - unfold timersConsistent. repeat split.
    + intros id cb Hin. apply Hnew in Hin. lia.
    + rewrite Ht, map_app. apply NoDup_snoc_fresh.
      * now apply clearTimeout_NoDup, clearTimeout_NoDup.
      * intros i Hi. apply in_map_iff in Hi.
        destruct Hi as [[i' cb] [<- Hi]]. now apply Hempty in Hi.
    + intros id Hin. apply Hnew in Hin. destruct Hin as [-> _]. exact Hiu.
    + intros id Hin. apply Hnew in Hin. now destruct Hin as [_ [=]].
    + exact Hp.
  - exists (nextTimerId st). rewrite Ht. apply in_app_iff. right. now left.
  - intros id Hin. apply Hnew in Hin. now destruct Hin as [_ [=]].
Qed.

Lemma onRelayout_invariant (hasRangeKey : bool) (st : GuardState) :
  guardInvariant st -> guardInvariant (onRelayout hasRangeKey st).
Proof.
  intros Hinv. unfold onRelayout.
  destruct (isInternalUpdate st) eqn:Earmed; [exact Hinv|].
  destruct (negb hasRangeKey); [exact Hinv|].
  destruct Hinv as ((Hlt & Hnd & Hd & Hr & Hp) & _ & _).
  unfold guardInvariant, timersConsistent.
  cbn [isInternalUpdate relayoutTimer internalUpdateTimer pinchActive
       pinchStartDist pinchStartRanges timers nextTimerId].
  split; [|split; intros; discriminate].
  repeat split.
  - intros id cb Hin. apply in_app_iff in Hin.
    destruct Hin as [Hin|[[= <- <-]|[]]]; [|lia].
    apply clearTimeout_In in Hin. destruct Hin as [Hin _].
    specialize (Hlt _ _ Hin). lia.
  - rewrite map_app. apply NoDup_snoc_fresh.
    + now apply clearTimeout_NoDup.
    + intros i Hi. apply in_map_iff in Hi.
      destruct Hi as [[i' cb] [<- Hi]].
      apply clearTimeout_In in Hi. destruct Hi as [Hi _].
      now apply (Hlt _ _ Hi).
  - intros id Hin. apply in_app_iff in Hin.
    destruct Hin as [Hin|[[=]|[]]].
    apply clearTimeout_In in Hin. destruct Hin as [Hin _]. now apply Hd.
  - intros id Hin. apply in_app_iff in Hin.
    destruct Hin as [Hin|[[= <-]|[]]]; [|reflexivity].
    apply clearTimeout_In in Hin. destruct Hin as [Hin Hne].
    exfalso. apply Hne. now apply Hr.
  - exact Hp.
Qed.

Lemma onTouchStart_invariant (touches : nat) (hasLayout : bool)
      (st : GuardState) :
  guardInvariant st -> guardInvariant (onTouchStart touches hasLayout st).
Proof.
  intros Hinv. unfold onTouchStart.
  destruct (touches =? 2)%nat; [|exact Hinv].
  destruct Hinv as (Hc & _ & _).
  match goal with |- guardInvariant ?s =>
    destruct (consistent_after_clear st s Hc eq_refl eq_refl eq_refl eq_refl
                (fun _ => eq_refl)) as [Hc' Hempty]
  end.
  split; [exact Hc'|]. split.
  - intros _. now left.
  - intros _ id. apply Hempty.
Qed.

Lemma onTouchMove_invariant (touches : nat) (farEnough zoomed : bool)
      (st : GuardState) :
  guardInvariant st ->
  guardInvariant (onTouchMove touches farEnough zoomed st).
Proof.
  intros Hinv. unfold onTouchMove.
  destruct (negb (touches =? 2)%nat || negb (pinchStartDist st)) eqn:E;
    [exact Hinv|].
  destruct (negb (pinchStartRanges st)); [exact Hinv|].
  destruct (negb farEnough); [exact Hinv|].
  destruct zoomed; [|exact Hinv].
  apply orb_false_iff in E. destruct E as [_ Estart].
  apply negb_false_iff in Estart.
  destruct Hinv as (Hc & _ & _).
  pose proof Hc as (_ & _ & _ & _ & Hp).
  match goal with |- guardInvariant ?s =>
    destruct (consistent_after_clear st s Hc eq_refl eq_refl eq_refl eq_refl
                Hp) as [Hc' Hempty]
  end.
  split; [exact Hc'|]. split.
  - intros _. left. exact (Hp Estart).
  - intros _ id. apply Hempty.
Qed.

Lemma onPinchEnd_invariant (touches : nat) (st : GuardState) :
  guardInvariant st -> guardInvariant (onPinchEnd touches st).
Proof.
  intros Hinv. unfold onPinchEnd.
  destruct ((touches <? 2)%nat && pinchActive st); [|exact Hinv].
  destruct Hinv as (Hc & _ & _).
  match goal with |- guardInvariant ?s =>
    assert (Hp' : pinchStartDist s = true -> pinchActive s = true)
      by (cbn [pinchStartDist]; discriminate);
    destruct (consistent_after_schedule st s Hc eq_refl eq_refl eq_refl
                eq_refl Hp')
      as (Hc' & Hex & Hno)
  end.
  split; [exact Hc'|]. split.
  - intros _. now right.
  - intros _. exact Hno.
Qed.

Lemma fireTimer_invariant (id : nat) (st : GuardState) :
  guardInvariant st -> guardInvariant (fireTimer id st).
Proof.
  intros Hinv. unfold fireTimer.
  destruct (lookupTimer id (timers st)) as [cb|]; [|exact Hinv].
  destruct Hinv as ((Hlt & Hnd & Hd & Hr & Hp) & _ & _).
  set (st1 := {| isInternalUpdate := isInternalUpdate st;
                 relayoutTimer := relayoutTimer st;
                 internalUpdateTimer := internalUpdateTimer st;
                 pinchActive := pinchActive st;
                 pinchStartDist := pinchStartDist st;
                 pinchStartRanges := pinchStartRanges st;
                 timers := clearTimeout (Some id) (timers st);
                 nextTimerId := nextTimerId st |}).
  assert (Hsub : forall t, In t (timers st1) -> In t (timers st)).
  { intros t Ht. unfold st1 in Ht. cbn [timers] in Ht.
    now apply clearTimeout_In in Ht. }
  assert (Hc1 : timersConsistent st1).
  { unfold timersConsistent. repeat split.
    - intros i cb' Hin. apply Hsub in Hin. now apply (Hlt _ _ Hin).
    - now apply clearTimeout_NoDup.
    - intros i Hin. apply Hsub in Hin. now apply Hd.
    - intros i Hin. apply Hsub in Hin. now apply Hr.
    - exact Hp. }
  destruct cb.
  - split; [|split; intros; discriminate]. exact Hc1.
  - now apply updateChartGuard_invariant.
Qed.

Lemma guardStep_invariant (st : GuardState) (ev : GuardEvent) :
  guardInvariant st -> guardInvariant (guardStep st ev).
Proof.
  intros Hinv. destruct ev as [[|]|k|n l|n f z|n|id]; simpl.
  - apply updateChartGuard_invariant. now destruct Hinv.
  - exact Hinv.
  - now apply onRelayout_invariant.
  - now apply onTouchStart_invariant.
  - now apply onTouchMove_invariant.
  - now apply onPinchEnd_invariant.
  - now apply fireTimer_invariant.
Qed.

Lemma guardRun_snoc (events : list GuardEvent) (ev : GuardEvent) :
  guardRun (events ++ [ev]) = guardStep (guardRun events) ev.
Proof. unfold guardRun. now rewrite fold_left_app. Qed.

Lemma guardRun_invariant (events : list GuardEvent) :
  guardInvariant (guardRun events).
Proof.
  induction events as [|ev events IH] using rev_ind.
  - unfold guardRun, guardInvariant, timersConsistent. simpl.
    repeat split; try discriminate; try tauto. constructor.
  - rewrite guardRun_snoc. now apply guardStep_invariant.
Qed.

Lemma pendingCount_none (cb : TimerCallback)
      (pending : list (nat * TimerCallback)) :
  (forall id, ~ In (id, cb) pending) -> pendingCount cb pending = 0%nat.
Proof.
  unfold pendingCount.
  induction pending as [|[i c] rest IH]; intros Hno; [reflexivity|].
  simpl. destruct c, cb; simpl;
    try (apply IH; intros id Hin; apply (Hno id); now right);
    exfalso; apply (Hno i); now left.
Qed.

Lemma pendingCount_single (cb : TimerCallback) (v : option nat)
      (pending : list (nat * TimerCallback)) :
  NoDup (map fst pending) ->
  (forall id, In (id, cb) pending -> v = Some id) ->
  (pendingCount cb pending <= 1)%nat.
Proof.
  induction pending as [|[i c] rest IH]; intros Hnd Hv;
    [unfold pendingCount; simpl; lia|].
  inversion Hnd as [|? ? Hnotin Hrest]; subst.
  assert (Hskip : (pendingCount cb rest <= 1)%nat).
  { apply IH; [exact Hrest|]. intros id Hin. apply Hv. now right. }
  assert (Hhead : c = cb -> pendingCount cb rest = 0%nat).
  { intros ->. apply pendingCount_none. intros id Hin.
    assert (E1 : v = Some id) by (apply Hv; now right).
    assert (E2 : v = Some i) by (apply Hv; now left).
    rewrite E1 in E2. injection E2 as ->.
    apply Hnotin. simpl. apply in_map_iff. exists (i, cb). now split. }
  destruct c, cb.
  - specialize (Hhead eq_refl). unfold pendingCount in *.
    cbn [filter snd List.length]. rewrite Hhead. lia.
  - exact Hskip.
  - exact Hskip.
  - specialize (Hhead eq_refl). unfold pendingCount in *.
    cbn [filter snd List.length]. rewrite Hhead. lia.
Qed.

(** X24. After any sequence of chart updates, relayout notifications,
    touch events and timer firings, an armed guard always has a way to be
    released: a disarm timer is pending or a pinch is in progress. *)
Theorem guard_release_always_scheduled
        (events : list GuardEvent)
        (Harmed : isInternalUpdate (guardRun events) = true) :
  pinchActive (guardRun events) = true
  \/ exists id, In (id, Disarm) (timers (guardRun events)).
Proof.
  destruct (guardRun_invariant events) as (_ & Hrel & _). now apply Hrel.
Qed.

Lemma guard_release_always_scheduled_witness :
  pinchActive (guardRun [UpdateChart true; PlotlyRelayout true;
                         UpdateChart true]) = true
  \/ exists id,
       In (id, Disarm)
          (timers (guardRun [UpdateChart true; PlotlyRelayout true;
                             UpdateChart true])).
Proof.
  apply guard_release_always_scheduled. reflexivity.
Defined.

(** X25. After any sequence of events at most one disarm timer and at most
    one redraw timer are pending, the pending disarm timer is the one held
    in [internalUpdateTimer] (the last one scheduled), and while the guard
    is armed no redraw is pending at all. *)
Theorem guard_timers_are_single (events : list GuardEvent) :
  let st := guardRun events in
  (pendingCount Disarm (timers st) <= 1)%nat
  /\ (pendingCount Redraw (timers st) <= 1)%nat
  /\ (forall id, In (id, Disarm) (timers st) ->
                 internalUpdateTimer st = Some id)
  /\ (forall id, In (id, Redraw) (timers st) -> relayoutTimer st = Some id)
  /\ (isInternalUpdate st = true -> pendingCount Redraw (timers st) = 0%nat).
Proof.
  intros st.
  destruct (guardRun_invariant events)
    as ((_ & Hnd & Hd & Hr & _) & _ & Hno).
  fold st in Hnd, Hd, Hr, Hno.
  split; [now apply (pendingCount_single Disarm (internalUpdateTimer st))|].
  split; [now apply (pendingCount_single Redraw (relayoutTimer st))|].
  split; [exact Hd|]. split; [exact Hr|].
  intros Harmed. apply pendingCount_none. now apply Hno.
Qed.

(** X26. The guard is released by nothing but the firing of the disarm
    timer scheduled last: if an event turns [isInternalUpdate] from true to
    false, that event is the firing of the pending timer held in
    [internalUpdateTimer]. *)
Theorem guard_released_only_by_last_timer
        (events : list GuardEvent) (ev : GuardEvent)
        (Harmed : isInternalUpdate (guardRun events) = true)
        (Hreleased : isInternalUpdate (guardStep (guardRun events) ev)
                     = false) :
  exists id,
    ev = TimerFires id
    /\ internalUpdateTimer (guardRun events) = Some id
    /\ In (id, Disarm) (timers (guardRun events)).
Proof.
  destruct (guardRun_invariant events) as ((_ & _ & Hd & _ & _) & _ & _).
  set (st := guardRun events) in *.
  destruct ev as [[|]|k|n l|n f z|n|id]; simpl in Hreleased.
  - discriminate.
  - congruence.
  - unfold onRelayout in Hreleased. rewrite Harmed in Hreleased. congruence.
  - unfold onTouchStart in Hreleased.
    destruct (n =? 2)%nat; [discriminate|congruence].
  - unfold onTouchMove in Hreleased.
    destruct (negb (n =? 2)%nat || negb (pinchStartDist st));
      [congruence|].
    destruct (negb (pinchStartRanges st)); [congruence|].
    destruct (negb f); [congruence|].
    destruct z; [discriminate|congruence].
  - unfold onPinchEnd in Hreleased.
    destruct ((n <? 2)%nat && pinchActive st); simpl in Hreleased;
      congruence.
  - unfold fireTimer in Hreleased.
    destruct (lookupTimer id (timers st)) as [cb|] eqn:E; [|congruence].
    destruct cb; [|discriminate].
    apply lookupTimer_In in E.
    exists id. split; [reflexivity|]. split; [now apply Hd|exact E].
Qed.

Lemma guard_released_only_by_last_timer_witness :
  exists id,
    TimerFires 1 = TimerFires id
    /\ internalUpdateTimer (guardRun [UpdateChart true; UpdateChart true])
       = Some id
    /\ In (id, Disarm) (timers (guardRun [UpdateChart true;
                                          UpdateChart true])).
Proof.
  apply (guard_released_only_by_last_timer
           [UpdateChart true; UpdateChart true] (TimerFires 1)).
  - reflexivity.
  - reflexivity.
Defined.

(* ================================================================== *)
(** * Further properties of zoom and first render *)




(** X28. On the first render, without a layout, decluttering is never
    bypassed: the estimated window has spans of at least 4, what is shown is
    the greedy selection in the pixels of that window, and it starts with
    the head of the priority order. *)
Theorem first_render_declutters
        (rect : Rect) (r : Rubber) (rest : list Rubber) :
  let xs := map (fun q => toNumber (x q)) rest in
  let ys := map (fun q => toNumber (y q)) rest in
  let xRange0 := (mathMin (toNumber (x r)) xs - 2,
                  mathMax (toNumber (x r)) xs + 2) in
  let yRange0 := (mathMin (toNumber (y r)) ys - 2,
                  mathMax (toNumber (y r)) ys + 2) in
  let pixelOf := fun q =>
    toPixel xRange0 yRange0 (rectWidth rect * 0.82) (rectHeight rect * 0.82)
            (toNumber (x q)) (toNumber (y q)) in
  4 <= spanOf xRange0 /\ 4 <= spanOf yRange0
  /\ computeVisibleRubbers None rect (r :: rest)
     = greedySelect (atLeastApart MIN_DIST_X MIN_DIST_Y) pixelOf []
                    (sortByPriority (r :: rest))
  /\ pairwiseClear MIN_DIST_X MIN_DIST_Y pixelOf
                   (computeVisibleRubbers None rect (r :: rest))
  /\ exists others shown,
       sortByPriority (r :: rest)
       = hd r (sortByPriority (r :: rest)) :: others
       /\ computeVisibleRubbers None rect (r :: rest)
          = hd r (sortByPriority (r :: rest)) :: shown.
Proof.
  intros xs ys xRange0 yRange0 pixelOf.
  pose proof (mathMin_le_mathMax (toNumber (x r)) xs) as Mx.
  pose proof (mathMin_le_mathMax (toNumber (y r)) ys) as My.
  assert (Hx : 4 <= spanOf xRange0) by (unfold spanOf, xRange0; simpl; lra).
  assert (Hy : 4 <= spanOf yRange0) by (unfold spanOf, yRange0; simpl; lra).
  assert (Heq : computeVisibleRubbers None rect (r :: rest)
                = greedySelect (atLeastApart MIN_DIST_X MIN_DIST_Y) pixelOf []
                               (sortByPriority (r :: rest))).
  { unfold computeVisibleRubbers. fold xs ys. fold xRange0 yRange0.
    apply declutter_positive; lra. }
  split; [exact Hx|]. split; [exact Hy|]. split; [exact Heq|]. split.
  - rewrite Heq. apply greedySelect_pairwiseClear. constructor.
  - rewrite Heq.
    pose proof (sortByPriority_perm (r :: rest)) as Hperm.
    destruct (sortByPriority (r :: rest)) as [|top others] eqn:Es.
    { apply Permutation_nil in Hperm. discriminate. }
    simpl hd. simpl greedySelect.
    destruct (greedySelect_prefix (atLeastApart MIN_DIST_X MIN_DIST_Y)
                pixelOf others [top]) as [more Hmore].
    exists others, more. split; [reflexivity|exact Hmore].
Qed.
